(** * Rules Search Utility: the matching-and-ranking engine of search_rules.py

    A shallow embedding of [RulesSearcher] (fuzzy search through the bilingual
    cycling rules) and the properties its specification states about it.

    Conventions of the embedding:
    - a Python [str] is the list of its Unicode code points ([N]);
    - a Python [int] is a [Z]; list indices are [Z] as well;
    - a Python [float] score is an exact rational ([Q]): the weights and
      thresholds of the source are decimal literals and are taken at their
      decimal value, binary64 rounding is not modelled;
    - a [for ... in range(lo, hi)] loop is [range_loop lo hi], a [while] loop
      is a fuelled fixpoint whose fuel is shown to suffice;
    - the Unicode tables behind [str.lower], [str.isdigit] and [int] are
      parameters of the development (Section variables); [str.split] and
      [str.strip] use Python's fixed list of whitespace code points.

    After the searcher come its users: the command line of search_rules.py
    ([display_results], [main]), the rotation of the daily rules
    (daily_rules.py), the daily run of simple_scheduler.py and the handlers
    of telegram_bot.py. There
    - a dictionary with string keys is an association list in insertion
      order;
    - a random draw and the reading of the clock are arguments;
    - a handler is what it hands to Telegram (replies, articles, messages),
      the calls to Telegram taken to succeed; files are not modelled. *)

From Stdlib Require Import ZArith QArith Qminmax Lia Lqa List Bool Ascii String.
From Stdlib Require Import Permutation Sorted DecimalString Decimal DecimalZ DecimalPos.
From stdpp Require Import base decidable countable list gmap.
Import ListNotations.

Local Open Scope Z_scope.

(** ** Python strings *)

Abbreviation char := N (only parsing).
Abbreviation str := (list N) (only parsing).

(** A literal of the development, read as its ASCII code points. *)
Definition lit (s : string) : str := List.map N_of_ascii (list_ascii_of_string s).

(** [len(x)] *)
Definition len {A} (l : list A) : Z := Z.of_nat (length l).

(** [x[i]] for an index that is in range ([None] stands for IndexError;
    negative indices are never used by the code below). *)
Definition item {A} (l : list A) (i : Z) : option A :=
  if i <? 0 then None else l !! Z.to_nat i.

(** The code points [str.isspace] accepts: they are what [str.split()] and
    [str.strip()] treat as whitespace. *)
Definition isspace (c : char) : bool :=
  (((9 <=? c) && (c <=? 13)) || ((28 <=? c) && (c <=? 32)) ||
   (c =? 133) || (c =? 160) || (c =? 5760) ||
   ((8192 <=? c) && (c <=? 8202)) || (c =? 8232) || (c =? 8233) ||
   (c =? 8239) || (c =? 8287) || (c =? 12288))%N.

Fixpoint lstrip (s : str) : str :=
  match s with
  | c :: s' => if isspace c then lstrip s' else s
  | [] => []
  end.

Definition rstrip (s : str) : str := rev (lstrip (rev s)).

(** [s.strip()] *)
Definition strip (s : str) : str := lstrip (rstrip s).

(** [s.split()]: the maximal runs of non-whitespace characters, in order.
    [cur] is the word being read, most recent character first. *)
Fixpoint split_from (cur : str) (s : str) : list str :=
  match s with
  | [] => match cur with [] => [] | _ => [rev cur] end
  | c :: s' =>
      if isspace c
      then match cur with [] => split_from [] s' | _ => rev cur :: split_from [] s' end
      else split_from (c :: cur) s'
  end.

Definition split (s : str) : list str := split_from [] s.

Fixpoint startswith (s p : str) : bool :=
  match p, s with
  | [], _ => true
  | _ :: _, [] => false
  | x :: p', y :: s' => (x =? y)%N && startswith s' p'
  end.

(** [sub in s] on strings: [sub] occurs in [s] as a contiguous substring. *)
Fixpoint str_in (sub s : str) : bool :=
  startswith s sub || match s with [] => false | _ :: s' => str_in sub s' end.

(** [a == b] on strings. *)
Definition str_eqb (x y : str) : bool := bool_decide (x = y).

(** ** Loops *)

(** [for i in range(lo, hi): s = body(i, s)] *)
Fixpoint for_range {S : Type} (n : nat) (i : Z) (body : Z -> S -> S) (s : S) : S :=
  match n with
  | O => s
  | Datatypes.S n' => for_range n' (i + 1) body (body i s)
  end.

Definition range_loop {S : Type} (lo hi : Z) (body : Z -> S -> S) (s : S) : S :=
  for_range (Z.to_nat (hi - lo)) lo body s.

(** The first [k] of [range(lo, lo + n)] that satisfies [p]: a [for] loop
    left by [break] at its first hit. *)
Fixpoint first_from (n : nat) (k : Z) (p : Z -> bool) : option Z :=
  match n with
  | O => None
  | Datatypes.S n' => if p k then Some k else first_from n' (k + 1) p
  end.

Definition first_in_range (lo hi : Z) (p : Z -> bool) : option Z :=
  first_from (Z.to_nat (hi - lo)) lo p.

(** ** Floats as rationals *)

Definition Qltb (x y : Q) : bool := negb (Qle_bool y x).

(** [max(x, y)] and [min(x, y)] of Python: the first argument unless the
    second is strictly larger (smaller). *)
Definition fmax (x y : Q) : Q := if Qltb x y then y else x.
Definition fmin (x y : Q) : Q := if Qltb y x then y else x.

(** ** difflib.SequenceMatcher(None, a, b).ratio()

    The standard library's matcher, with [isjunk = None] and the default
    [autojunk = True], as the scorer calls it. *)
Module difflib.
Section SequenceMatcher.
Variables a b : str.

(** [__chain_b]: the positions of every element of [b], in increasing
    order; when [b] has 200 elements or more, the elements that occur
    more than [len(b) // 100 + 1] times (the popular ones) are purged. *)
Definition chain_step (i : Z) (b2j : gmap N (list Z)) : gmap N (list Z) :=
  match item b i with
  | Some elt => <[elt := default [] (b2j !! elt) ++ [i]]> b2j
  | None => b2j
  end.

Definition b2j_all : gmap N (list Z) := range_loop 0 (len b) chain_step ∅.

Definition b2j : gmap N (list Z) :=
  let n := len b in
  if 200 <=? n
  then let ntest := n / 100 + 1 in
       filter (λ kv : N * list Z, ¬ (ntest < len kv.2)) b2j_all
  else b2j_all.

(** No element is junk: [isjunk] is [None], so [bjunk] is the empty set. *)
Definition isbjunk (_ : N) : bool := false.

(** One iteration of the inner loop of [find_longest_match]:
    [k = newj2len[j] = j2len.get(j-1, 0) + 1], and the best match is
    replaced when [k > bestsize]. *)
Definition inner_step (i j : Z) (j2len : gmap Z Z)
    (st : gmap Z Z * (Z * Z * Z)) : gmap Z Z * (Z * Z * Z) :=
  let '(newj2len, (besti, bestj, bestsize)) := st in
  let k := default 0 (j2len !! (j - 1)) + 1 in
  (<[j := k]> newj2len,
   if bestsize <? k then (i - k + 1, j - k + 1, k) else (besti, bestj, bestsize)).

(** [for j in b2j.get(a[i], nothing)], with its [continue] below [blo]
    and its [break] at [bhi]. *)
Fixpoint inner_loop (blo bhi i : Z) (j2len : gmap Z Z) (js : list Z)
    (st : gmap Z Z * (Z * Z * Z)) : gmap Z Z * (Z * Z * Z) :=
  match js with
  | [] => st
  | j :: js' =>
      if j <? blo then inner_loop blo bhi i j2len js' st
      else if bhi <=? j then st
      else inner_loop blo bhi i j2len js' (inner_step i j j2len st)
  end.

Definition outer_step (blo bhi : Z) (i : Z)
    (st : gmap Z Z * (Z * Z * Z)) : gmap Z Z * (Z * Z * Z) :=
  let '(j2len, best) := st in
  let js := match item a i with
            | Some elt => default [] (b2j !! elt)
            | None => []
            end in
  inner_loop blo bhi i j2len js (∅, best).

Definition longest_junk_free (alo ahi blo bhi : Z) : Z * Z * Z :=
  snd (range_loop alo ahi (outer_step blo bhi) (∅, (alo, blo, 0))).

Definition same_at (i j : Z) : bool :=
  match item a i, item b j with
  | Some x, Some y => (x =? y)%N
  | _, _ => false
  end.

(** The two [while] loops that extend the best match by non-junk
    elements on each end. *)
Fixpoint extend_left (fuel : nat) (alo blo : Z) (m : Z * Z * Z) : Z * Z * Z :=
  match fuel with
  | O => m
  | Datatypes.S fuel' =>
      let '(besti, bestj, bestsize) := m in
      if (alo <? besti) && (blo <? bestj) &&
         negb (match item b (bestj - 1) with Some y => isbjunk y | None => false end) &&
         same_at (besti - 1) (bestj - 1)
      then extend_left fuel' alo blo (besti - 1, bestj - 1, bestsize + 1)
      else m
  end.

Fixpoint extend_right (fuel : nat) (ahi bhi : Z) (m : Z * Z * Z) : Z * Z * Z :=
  match fuel with
  | O => m
  | Datatypes.S fuel' =>
      let '(besti, bestj, bestsize) := m in
      if (besti + bestsize <? ahi) && (bestj + bestsize <? bhi) &&
         negb (match item b (bestj + bestsize) with Some y => isbjunk y | None => false end) &&
         same_at (besti + bestsize) (bestj + bestsize)
      then extend_right fuel' ahi bhi (besti, bestj, bestsize + 1)
      else m
  end.

(** [find_longest_match(alo, ahi, blo, bhi)]. The two further loops of
    the library, which absorb junk around the match, never run here:
    their guard asks for [isbjunk], which is false everywhere. *)
Definition find_longest_match (alo ahi blo bhi : Z) : Z * Z * Z :=
  let m := longest_junk_free alo ahi blo bhi in
  let m := extend_left (Z.to_nat (m.1.1 - alo)) alo blo m in
  extend_right (Z.to_nat (ahi - (m.1.1 + m.2))) ahi bhi m.

(** The [while queue] loop of [get_matching_blocks]; the head of [queue]
    is the entry [queue.pop()] takes. [None] stands for fuel that ran
    out before the queue was empty. *)
Fixpoint blocks_loop (fuel : nat) (queue : list (Z * Z * Z * Z))
    (matching_blocks : list (Z * Z * Z)) : option (list (Z * Z * Z)) :=
  match queue with
  | [] => Some matching_blocks
  | (alo, ahi, blo, bhi) :: queue' =>
      match fuel with
      | O => None
      | Datatypes.S fuel' =>
          let '(i, j, k) := find_longest_match alo ahi blo bhi in
          if k =? 0 then blocks_loop fuel' queue' matching_blocks
          else
            let left := if (alo <? i) && (blo <? j) then [(alo, i, blo, j)] else [] in
            let right := if (i + k <? ahi) && (j + k <? bhi)
                         then [(i + k, ahi, j + k, bhi)] else [] in
            blocks_loop fuel' (right ++ left ++ queue') (matching_blocks ++ [(i, j, k)])
      end
  end.

Definition blocks_fuel : nat := Datatypes.S (2 * length a).

(** The blocks found, before [get_matching_blocks] sorts them, merges
    adjacent ones and appends the sentinel [(la, lb, 0)]: none of the
    three changes the sum of the sizes, which is all [ratio] reads. *)
Definition get_matching_blocks : option (list (Z * Z * Z)) :=
  blocks_loop blocks_fuel [(0, len a, 0, len b)] [].

Definition sum_sizes (blocks : list (Z * Z * Z)) : Z :=
  fold_right (fun m acc => m.2 + acc) 0 blocks.

Definition matches : Z := sum_sizes (default [] get_matching_blocks).

(** [_calculate_ratio(matches, len(a) + len(b))] *)
Definition ratio : Q :=
  let length := len a + len b in
  if length =? 0 then 1%Q
  else (2 * inject_Z matches / inject_Z length)%Q.

End SequenceMatcher.
End difflib.

(** ** The corpus and the results *)

(** One entry of rules.json. *)
Record Rule := {
  rule_number : Z;
  text_eng : str;
  text_rus : str
}.

(** The value of the key ['matched_language'] of a result. *)
Inductive Language := English | Russian | Both | DirectRuleNumber.

(** A result dictionary. Its key ['is_direct_rule'] is optional: [None]
    stands for a dictionary that does not have the key. *)
Record MatchResult := {
  result_rule_number : Z;
  result_text_eng : str;
  result_text_rus : str;
  similarity_score : Q;
  matched_language : Language;
  is_direct_rule : option bool
}.

(** The keys of a result dictionary. *)
Definition keys (r : MatchResult) : list string :=
  ["rule_number"; "text_eng"; "text_rus"; "similarity_score"; "matched_language"]%string
  ++ match is_direct_rule r with Some _ => ["is_direct_rule"%string] | None => [] end.

(** The searcher object: [self.rules] is the corpus, in file order. *)
Record RulesSearcher := { rules : list Rule }.

(** What a call does: it returns a value, or [int()] raises. *)
Inductive outcome (A : Type) : Type :=
| Returns (x : A)
| ValueError.
Arguments Returns {A} x.
Arguments ValueError {A}.

(** ** _calculate_sequence_similarity *)

(** The [for k in range(window_start, window_end)] loop: the first
    position of the window that holds [query_word]. *)
Definition window_find (text_words : list str) (query_word : str) (last_pos : Z) : option Z :=
  let window_start := Z.max 0 (last_pos - 2) in
  let window_end := Z.min (len text_words) (last_pos + 3) in
  first_in_range window_start window_end
    (fun k => match item text_words k with
              | Some w => str_eqb w query_word
              | None => false
              end).

(** The loop over [enumerate(query_words)], on the state
    [(matches, gaps, last_pos)]; a word that is not found leaves the loop. *)
Fixpoint match_query_words (text_words query_words : list str) (st : Z * Z * Z) : Z * Z * Z :=
  match query_words with
  | [] => st
  | query_word :: rest =>
      let '(matches, gaps, last_pos) := st in
      match window_find text_words query_word last_pos with
      | Some k =>
          match_query_words text_words rest
            (matches + 1, gaps + Z.max 0 (k - last_pos - 1), k + 1)
      | None => st
      end
  end.

(** The score of a complete match with [gaps] gaps. *)
Definition gap_score (gaps : Z) : Q :=
  let gap_penalty := fmin 0.3 (inject_Z gaps * 0.1) in
  (0.9 - gap_penalty)%Q.

(** The body of the loop over the start positions [i]. *)
Definition sequence_step (query_words text_words : list str) (i : Z) (best_score : Q) : Q :=
  let '(matches, gaps, _) := match_query_words text_words query_words (0, 0, i) in
  if matches =? len query_words
  then fmax best_score (gap_score gaps)
  else best_score.

Definition _calculate_sequence_similarity (query_words text_words : list str) : Q :=
  if len query_words <? 2 then 0%Q
  else range_loop 0 (len text_words - len query_words + 1)
         (sequence_step query_words text_words) 0%Q.

(** ** _calculate_similarity *)

(** Method 2: exact word sequence match, for multi-word queries. [None]
    means that the method does not return and the cascade goes on. *)
Definition method2 (query_words : list str) (text : str) : option Q :=
  if 1 <? len query_words then
    let text_words := split text in
    let sequence_score := _calculate_sequence_similarity query_words text_words in
    if Qltb 0.8 sequence_score then Some sequence_score else None
  else None.

(** Method 3: all (or most) words present, in any order. *)
Definition method3 (query_words : list str) (text : str) : option Q :=
  if 1 <? len query_words then
    let word_matches := len (List.filter (fun word => str_in word text) query_words) in
    if word_matches =? len query_words then Some 0.7%Q
    else if Qltb (inject_Z (len query_words) * 0.7) (inject_Z word_matches)
    then Some (0.5 + (inject_Z word_matches / inject_Z (len query_words)) * 0.2)%Q
    else None
  else None.

(** Method 4: single word exact match. *)
Definition method4 (query_words : list str) (text : str) : option Q :=
  match query_words with
  | [word] => if str_in word text then Some 0.6%Q else None
  | _ => None
  end.

(** The inner loop of method 7, left by [break] at the first hit. *)
Fixpoint partial_inner (query_word : str) (text_words : list str) (partial_score : Q) : Q :=
  match text_words with
  | [] => partial_score
  | text_word :: rest =>
      if str_in query_word text_word || str_in text_word query_word
      then fmax partial_score 0.3
      else partial_inner query_word rest partial_score
  end.

Definition partial_substring (query_words : list str) (text_words : gset (list N)) : Q :=
  fold_left (fun partial_score query_word =>
               partial_inner query_word (elements text_words) partial_score)
            query_words 0%Q.

Definition word_jaccard (query_words : list str) (text_words : gset (list N)) : Q :=
  let intersection := list_to_set query_words ∩ text_words in
  let union := list_to_set query_words ∪ text_words in
  if (size union =? 0)%nat then 0%Q
  else (inject_Z (Z.of_nat (size intersection)) / inject_Z (Z.of_nat (size union)))%Q.

(** Methods 5 to 7 and the weighted sum. *)
Definition fallback (query : str) (query_words : list str) (text : str) : Q :=
  let seq_score := difflib.ratio query text in
  let text_words : gset (list N) := list_to_set (split text) in
  match query_words with
  | [] => seq_score
  | _ =>
      let word_score := word_jaccard query_words text_words in
      let partial_score := partial_substring query_words text_words in
      (seq_score * 0.15 + word_score * 0.25 + partial_score * 0.25)%Q
  end.

Definition _calculate_similarity (query text : str) : Q :=
  if str_in query text then 1%Q
  else
    let query_words := split query in
    match method2 query_words text with
    | Some score => score
    | None =>
        match method3 query_words text with
        | Some score => score
        | None =>
            match method4 query_words text with
            | Some score => score
            | None => fallback query query_words text
            end
        end
    end.

(** ** Sorting and slicing *)

(** [results.sort(key=lambda x: x['similarity_score'], reverse=True)]:
    Python's sort is stable, also with [reverse=True]. The model is the
    insertion sort that puts an element before the first later element
    whose score is not larger. *)
Fixpoint insert_result (x : MatchResult) (l : list MatchResult) : list MatchResult :=
  match l with
  | [] => [x]
  | y :: l' =>
      if Qle_bool (similarity_score y) (similarity_score x)
      then x :: y :: l'
      else y :: insert_result x l'
  end.

Definition sort_reverse (results : list MatchResult) : list MatchResult :=
  fold_right insert_result [] results.

(** [l[:n]] *)
Definition slice_to {A} (l : list A) (n : Z) : list A :=
  if 0 <=? n then firstn (Z.to_nat n) l
  else firstn (Z.to_nat (len l + n)) l.

(** ** The public entry points *)

Definition search_by_rule_number (self : RulesSearcher) (n : Z) : option Rule :=
  List.find (fun rule => rule_number rule =? n) (rules self).

Section Unicode.
(** [str.lower], the per-character test behind [str.isdigit], and [int]
    on a string ([None] when it raises ValueError). *)
Variable lower : str -> str.
Variable isdigit_char : char -> bool.
Variable py_int : str -> option Z.

(** [s.isdigit()] *)
Definition isdigit (s : str) : bool :=
  match s with
  | [] => false
  | _ => forallb isdigit_char s
  end.

(** The body of the loop of [fuzzy_search] over the corpus. *)
Definition fuzzy_step (query_lower : str) (threshold : Q)
    (results : list MatchResult) (rule : Rule) : list MatchResult :=
  let eng_score := _calculate_similarity query_lower (lower (text_eng rule)) in
  let rus_score := _calculate_similarity query_lower (lower (text_rus rule)) in
  let best_score := fmax eng_score rus_score in
  if Qle_bool threshold best_score then
    results ++ [{| result_rule_number := rule_number rule;
                   result_text_eng := text_eng rule;
                   result_text_rus := text_rus rule;
                   similarity_score := best_score;
                   matched_language := if Qltb rus_score eng_score then English else Russian;
                   is_direct_rule := Some false |}]
  else results.

Definition fuzzy_search (self : RulesSearcher) (query : str) (threshold : Q)
    (max_results : Z) : outcome (list MatchResult) :=
  match strip query with
  | [] => Returns []
  | _ =>
      if isdigit (strip query) then
        match py_int (strip query) with
        | None => ValueError
        | Some n =>
            match search_by_rule_number self n with
            | Some result =>
                Returns [{| result_rule_number := rule_number result;
                            result_text_eng := text_eng result;
                            result_text_rus := text_rus result;
                            similarity_score := 1;
                            matched_language := DirectRuleNumber;
                            is_direct_rule := Some true |}]
            | None => Returns []
            end
        end
      else
        let query_lower := strip (lower query) in
        let results := fold_left (fuzzy_step query_lower threshold) (rules self) [] in
        Returns (slice_to (sort_reverse results) max_results)
  end.

(** The first loop over the keywords, left at the first absent one. *)
Fixpoint all_present (keywords : list str) (eng_text rus_text : str) : bool :=
  match keywords with
  | [] => true
  | keyword :: rest =>
      let keyword_lower := lower keyword in
      if negb (str_in keyword_lower eng_text) && negb (str_in keyword_lower rus_text)
      then false
      else all_present rest eng_text rus_text
  end.

(** The second loop over the keywords. *)
Definition total_score (keywords : list str) (eng_text rus_text : str) : Q :=
  fold_left (fun total keyword =>
               let keyword_lower := lower keyword in
               let eng_score := _calculate_similarity keyword_lower eng_text in
               let rus_score := _calculate_similarity keyword_lower rus_text in
               (total + fmax eng_score rus_score)%Q)
            keywords 0%Q.

Definition avg_score (keywords : list str) (eng_text rus_text : str) : Q :=
  (total_score keywords eng_text rus_text / inject_Z (len keywords))%Q.

Definition keywords_step (keywords : list str) (threshold : Q)
    (results : list MatchResult) (rule : Rule) : list MatchResult :=
  let eng_text := lower (text_eng rule) in
  let rus_text := lower (text_rus rule) in
  if all_present keywords eng_text rus_text then
    if Qle_bool threshold (avg_score keywords eng_text rus_text) then
      results ++ [{| result_rule_number := rule_number rule;
                     result_text_eng := text_eng rule;
                     result_text_rus := text_rus rule;
                     similarity_score := avg_score keywords eng_text rus_text;
                     matched_language := Both;
                     is_direct_rule := None |}]
    else results
  else results.

Definition search_by_keywords (self : RulesSearcher) (keywords : list str)
    (threshold : Q) : list MatchResult :=
  match keywords with
  | [] => []
  | _ => sort_reverse (fold_left (keywords_step keywords threshold) (rules self) [])
  end.
End Unicode.

(** The Basic Latin part of the Unicode tables, for the worked examples. *)
Definition ascii_lower_char (c : char) : char :=
  if ((65 <=? c) && (c <=? 90))%N then (c + 32)%N else c.
Definition ascii_lower (s : str) : str := List.map ascii_lower_char s.
Definition ascii_isdigit_char (c : char) : bool := ((48 <=? c) && (c <=? 57))%N.
Definition ascii_int (s : str) : option Z :=
  if isdigit ascii_isdigit_char s
  then Some (fold_left (fun n c => 10 * n + (Z.of_N c - 48)) s 0)
  else None.

(** ** Further Python primitives *)

(** [str(n)] for an [int]: the decimal digits, after a minus sign when
    [n] is negative. *)
Definition py_str (n : Z) : str := lit (NilZero.string_of_int (Z.to_int n)).

(** A literal of the source, read as the code points its UTF-8 bytes
    encode. *)
Fixpoint utf8_decode (bytes : list N) : str :=
  match bytes with
  | [] => []
  | b0 :: rest =>
      if (b0 <? 128)%N then b0 :: utf8_decode rest
      else if (b0 <? 224)%N then
        match rest with
        | b1 :: rest' => ((b0 - 192) * 64 + (b1 - 128))%N :: utf8_decode rest'
        | _ => []
        end
      else if (b0 <? 240)%N then
        match rest with
        | b1 :: b2 :: rest' =>
            ((b0 - 224) * 4096 + (b1 - 128) * 64 + (b2 - 128))%N :: utf8_decode rest'
        | _ => []
        end
      else
        match rest with
        | b1 :: b2 :: b3 :: rest' =>
            ((b0 - 240) * 262144 + (b1 - 128) * 4096 + (b2 - 128) * 64 + (b3 - 128))%N
              :: utf8_decode rest'
        | _ => []
        end
  end.

Definition literal (s : string) : str := utf8_decode (lit s).

(** The line feed of the escape [\n]. *)
Definition nl : str := [10%N].

(** A dictionary with string keys, in insertion order: [d.get(k)] and
    [d[k] = v], which replaces the value of a key that is present and
    appends a key that is new. *)
Fixpoint dict_get {V : Type} (d : list (list N * V)) (k : str) : option V :=
  match d with
  | [] => None
  | (k', v) :: d' => if str_eqb k' k then Some v else dict_get d' k
  end.

Fixpoint dict_set {V : Type} (d : list (list N * V)) (k : str) (v : V) : list (list N * V) :=
  match d with
  | [] => [(k, v)]
  | (k', v') :: d' => if str_eqb k' k then (k, v) :: d' else (k', v') :: dict_set d' k v
  end.

(** [random.choice(seq)]: the element at an index below [len(seq)];
    [draw] is the random draw, reduced to such an index. [None] stands
    for the IndexError of an empty sequence. *)
Definition choice {A : Type} (draw : nat) (seq : list A) : option A :=
  seq !! (draw mod length seq)%nat.

(** [l.remove(x)]: [l] without the first occurrence of [x] (a list that
    does not hold [x] raises ValueError; the code below removes elements
    that it has just taken from the list). *)
Fixpoint list_remove (x : Z) (l : list Z) : list Z :=
  match l with
  | [] => []
  | y :: l' => if y =? x then l' else y :: list_remove x l'
  end.

(** * daily_rules.py: the daily rule of a group *)

(** The record of a group in groups.json. The keys ["used"] and
    ["unused"] are read with [get] or by index: [None] stands for a
    record without the key. The key ["id"] is written and never read. *)
Record Group := {
  id_ : Z;
  used : option (list Z);
  unused : option (list Z)
}.

(** The manager object: [self.searcher] and [self.groups]. *)
Record SimpleDailyRules := {
  searcher : RulesSearcher;
  groups : list (list N * Group)
}.

(** The dictionary [get_daily_rule] returns. *)
Record DailyRule := {
  daily_rule_number : Z;
  daily_text_eng : str;
  daily_text_rus : str;
  used_count : Z;
  unused_count : Z
}.

(** [list(range(1, 96))] *)
Definition all_rule_numbers : list Z := seqZ 1 95.

(** [add_group]; [save_ok] is what [save_groups] returns, the outcome of
    writing the file. *)
Definition add_group (self : SimpleDailyRules) (group_id : Z) (save_ok : bool)
    : SimpleDailyRules * bool :=
  let group_id_str := py_str group_id in
  match dict_get (groups self) group_id_str with
  | None =>
      ({| searcher := searcher self;
          groups := dict_set (groups self) group_id_str
                      {| id_ := group_id; used := Some []; unused := Some all_rule_numbers |} |},
       save_ok)
  | Some _ => (self, true)
  end.

(** The first part of [get_daily_rule]: an empty (or missing) [unused]
    list is refilled from [used], or with all the numbers when [used] is
    empty (or missing) too. *)
Definition refill_unused (group : Group) : Group :=
  match default [] (unused group) with
  | _ :: _ => group
  | [] =>
      match default [] (used group) with
      | (_ :: _) as used_list =>
          {| id_ := id_ group; used := Some []; unused := Some used_list |}
      | [] =>
          {| id_ := id_ group; used := used group; unused := Some all_rule_numbers |}
      end
  end.

(** The second part: a random number leaves [unused] and joins [used].
    The result is the record as the call leaves it and the number, or
    [None] when the call ends without one: the KeyError of
    [group["used"]] on a record without the key, which the handler of
    [get_daily_rule] catches after [unused] has lost the number. *)
Definition pick_rule (draw : nat) (group : Group) : Group * option Z :=
  let group := refill_unused group in
  let unused_list := default [] (unused group) in
  match choice draw unused_list with
  | None => (group, None)
  | Some rule_number =>
      let group := {| id_ := id_ group;
                      used := used group;
                      unused := Some (list_remove rule_number unused_list) |} in
      match used group with
      | None => (group, None)
      | Some used_list =>
          ({| id_ := id_ group;
              used := Some (used_list ++ [rule_number]);
              unused := unused group |},
           Some rule_number)
      end
  end.

(** [get_daily_rule]: the manager after the call and the value
    returned. The file that [save_groups] writes is not part of the
    state: its outcome is not read. *)
Definition get_daily_rule (self : SimpleDailyRules) (group_id : Z) (draw : nat)
    : SimpleDailyRules * option DailyRule :=
  let group_id_str := py_str group_id in
  match dict_get (groups self) group_id_str with
  | None => (self, None)
  | Some group =>
      let '(group, picked) := pick_rule draw group in
      let self := {| searcher := searcher self;
                     groups := dict_set (groups self) group_id_str group |} in
      match picked with
      | None => (self, None)
      | Some rule_number =>
          match search_by_rule_number (searcher self) rule_number with
          | Some rule =>
              (self,
               Some {| daily_rule_number := rule_number;
                       daily_text_eng := text_eng rule;
                       daily_text_rus := text_rus rule;
                       used_count := len (default [] (used group));
                       unused_count := len (default [] (unused group)) |})
          | None => (self, None)
          end
      end
  end.

Definition format_daily_rule_message (rule_data : DailyRule) : str :=
  literal "🎯 *Правило дня #" ++ py_str (daily_rule_number rule_data) ++ literal "*" ++ nl ++ nl
  ++ daily_text_eng rule_data ++ nl ++ nl
  ++ daily_text_rus rule_data.

(** Successive calls of [get_daily_rule] for one group, one draw each. *)
Fixpoint daily_rules_of (self : SimpleDailyRules) (group_id : Z) (draws : list nat)
    : SimpleDailyRules * list (option DailyRule) :=
  match draws with
  | [] => (self, [])
  | draw :: rest =>
      let '(self, result) := get_daily_rule self group_id draw in
      let '(self, results) := daily_rules_of self group_id rest in
      (self, result :: results)
  end.

(** * simple_scheduler.py: the daily run

    The scheduler keeps a [SimpleDailyRules] of its own, which it
    imports under the module name [simple_daily]; it is taken to be the
    class of that name in daily_rules.py, the only one of the
    repository. The clock is read once per call of
    [wait_until_next_run] and is an argument here; [daily_time] is a
    naive [time]. *)

(** A naive [datetime]: the day (its proleptic ordinal, 1 for the first
    day of year 1) and the time of the day in microseconds since
    midnight; a [time] is such a time of the day. *)
Record datetime := {
  date : Z;
  time_of_day : Z
}.

Definition microseconds_per_day : Z := 86400000000.

(** The ordinal of [date.max], 9999-12-31: a [datetime] plus a
    [timedelta] that would fall after it raises OverflowError. *)
Definition max_ordinal : Z := 3652059.

(** The [next_run] of [wait_until_next_run]:
    [datetime.combine(now.date(), daily_time)], a day later when
    [now.time() >= daily_time]; [None] is the OverflowError of the
    addition. *)
Definition next_run (now : datetime) (daily_time : Z) : option datetime :=
  let next_run := {| date := date now; time_of_day := daily_time |} in
  if daily_time <=? time_of_day now
  then if date next_run + 1 <=? max_ordinal
       then Some {| date := date next_run + 1; time_of_day := time_of_day next_run |}
       else None
  else Some next_run.

(** [(a - b).total_seconds()]: the microseconds between the two, divided
    by [10**6]. *)
Definition total_seconds_between (a b : datetime) : Q :=
  (inject_Z ((date a - date b) * microseconds_per_day
             + (time_of_day a - time_of_day b)) / 1000000)%Q.

(** What [wait_until_next_run] does. *)
Inductive wait :=
| Sleeps (wait_seconds : Q)
| NoSleep
| OverflowError.

(** [wait_until_next_run] at the clock reading [now]: the argument of its
    [asyncio.sleep], [NoSleep] when it returns without sleeping. *)
Definition wait_until_next_run (now : datetime) (daily_time : Z) : wait :=
  match next_run now daily_time with
  | None => OverflowError
  | Some next_run =>
      let wait_seconds := total_seconds_between next_run now in
      if Qltb 0 wait_seconds then Sleeps wait_seconds else NoSleep
  end.

Section Scheduler.
Variable py_int : str -> option Z.

(** [send_daily_rule_to_group]: the manager after the call and the
    messages handed to [bot.send_message], as [(chat_id, text)]. *)
Definition send_daily_rule_to_group (daily_rules : SimpleDailyRules) (group_id : Z)
    (draw : nat) : SimpleDailyRules * list (Z * list N) :=
  let '(daily_rules, rule_data) := get_daily_rule daily_rules group_id draw in
  match rule_data with
  | None => (daily_rules, [])
  | Some rule_data => (daily_rules, [(group_id, format_daily_rule_message rule_data)])
  end.

(** The loop of [send_daily_rules_to_all_groups] over the keys of
    [groups]; a key that [int] rejects is skipped. [draws n] is the draw
    of the [n]-th iteration. *)
Fixpoint send_loop (keys : list (list N)) (n : nat) (draws : nat -> nat)
    (daily_rules : SimpleDailyRules) (sent : list (Z * list N))
    : SimpleDailyRules * list (Z * list N) :=
  match keys with
  | [] => (daily_rules, sent)
  | group_id_str :: rest =>
      match py_int group_id_str with
      | None => send_loop rest (Datatypes.S n) draws daily_rules sent
      | Some group_id =>
          let '(daily_rules, messages) :=
            send_daily_rule_to_group daily_rules group_id (draws n) in
          send_loop rest (Datatypes.S n) draws daily_rules (sent ++ messages)
      end
  end.

Definition send_daily_rules_to_all_groups (daily_rules : SimpleDailyRules)
    (draws : nat -> nat) : SimpleDailyRules * list (Z * list N) :=
  match groups daily_rules with
  | [] => (daily_rules, [])
  | _ => send_loop (List.map fst (groups daily_rules)) 0 draws daily_rules []
  end.
End Scheduler.


(** * search_rules.py: the command line *)

(** [s * n] on strings. *)
Definition str_mul (s : str) (n : Z) : str := concat (List.repeat s (Z.to_nat n)).

(** The strings that the code stores under ['matched_language']. *)
Definition language_name (language : Language) : str :=
  match language with
  | English => lit "English"
  | Russian => lit "Russian"
  | Both => lit "Both"
  | DirectRuleNumber => lit "Direct Rule Number"
  end.

Section CommandLine.
Variable lower : str -> str.
Variable isdigit_char : char -> bool.
Variable py_int : str -> option Z.
(** [f"{x:.3f}"] for a float. *)
Variable format_3f : Q -> str.

(** The lines [display_results] prints for a direct rule number result,
    one string for each [print]. *)
Definition display_direct (result : MatchResult) : list str :=
  [ nl ++ lit "Rule #" ++ py_str (result_rule_number result) ++ lit ":";
    str_mul (lit "=") 80;
    lit "English: " ++ result_text_eng result;
    lit "Russian: " ++ result_text_rus result ].

(** The body of the loop over [enumerate(results, 1)]. *)
Definition display_entry (show_scores : bool) (i : Z) (result : MatchResult) : list str :=
  [ nl ++ py_str i ++ lit ". Rule #" ++ py_str (result_rule_number result) ]
  ++ (if show_scores
      then [ lit "   Similarity: " ++ format_3f (similarity_score result);
             lit "   Language: " ++ language_name (matched_language result) ]
      else [])
  ++ [ lit "   English: " ++ result_text_eng result;
       lit "   Russian: " ++ result_text_rus result;
       str_mul (lit "-") 80 ].

Fixpoint display_entries (show_scores : bool) (i : Z) (results : list MatchResult)
    : list str :=
  match results with
  | [] => []
  | result :: rest =>
      display_entry show_scores i result ++ display_entries show_scores (i + 1) rest
  end.

Definition display_list (results : list MatchResult) (show_scores : bool) : list str :=
  [ nl ++ lit "Found " ++ py_str (len results) ++ lit " result(s):";
    str_mul (lit "=") 80 ]
  ++ display_entries show_scores 1 results.

(** [display_results]: what it prints. *)
Definition display_results (results : list MatchResult) (show_scores : bool) : list str :=
  match results with
  | [] => [lit "No results found."]
  | result :: _ =>
      if (len results =? 1) && default false (is_direct_rule result)
      then display_direct result
      else display_list results show_scores
  end.

(** The parsed arguments of [main]: [None] is the default of an option
    that was not given. *)
Record Namespace := {
  args_query : option str;
  args_rule : option Z;
  args_keywords : option (list str);
  args_threshold : Q;
  args_max_results : Z;
  args_show_scores : bool
}.

(** What a run of [main] does after the corpus is loaded: it prints and
    returns, it is ended by the ValueError of [int], or it enters the
    interactive loop. *)
Inductive run :=
| Prints (lines : list str)
| RaisesValueError
| Interactive.

(** The branches of [main] after [if args.rule:]. *)
Definition main_search (searcher : RulesSearcher) (args : Namespace) : run :=
  match args_keywords args with
  | Some (keyword :: rest) =>
      let results := search_by_keywords lower searcher (keyword :: rest)
                                        (args_threshold args) in
      Prints (display_results results (args_show_scores args))
  | _ =>
      match args_query args with
      | Some (c :: s) =>
          match fuzzy_search lower isdigit_char py_int searcher (c :: s)
                             (args_threshold args) (args_max_results args) with
          | Returns results => Prints (display_results results (args_show_scores args))
          | ValueError => RaisesValueError
          end
      | _ => Interactive
      end
  end.

(** [main], for the parsed arguments [args] and the searcher built from
    the rules file. *)
Definition main (searcher : RulesSearcher) (args : Namespace) : run :=
  match args_rule args with
  | Some rule_number =>
      if rule_number =? 0 then main_search searcher args
      else
        match search_by_rule_number searcher rule_number with
        | Some result =>
            Prints [ nl ++ lit "Rule #" ++ py_str rule_number ++ lit ":";
                     str_mul (lit "=") 80;
                     lit "English: " ++ text_eng result;
                     lit "Russian: " ++ text_rus result ]
        | None => Prints [ lit "Rule #" ++ py_str rule_number ++ lit " not found." ]
        end
  | None => main_search searcher args
  end.
End CommandLine.

(** * telegram_bot.py: what the handlers answer

    A handler is modelled by what it hands to Telegram, the calls to
    Telegram taken to succeed: the replies to a message (the arguments
    of [update.message.reply_text]) and the articles of an inline answer
    (the argument of [update.inline_query.answer]). The update of a
    message handler is one that has a message. *)

Record InlineKeyboardButton := {
  button_text : str;
  callback_data : str
}.

(** A reply: its text and the rows of its inline keyboard (no row for a
    reply without [reply_markup]). *)
Record Reply := {
  reply_text : str;
  reply_markup : list (list InlineKeyboardButton)
}.

Record InlineQueryResultArticle := {
  article_id : str;
  title : str;
  description : str;
  message_text : str
}.

(** [random.randint(a, b)], for [a <= b]: [draw] is the random draw,
    reduced to a number from [a] to [b]. *)
Definition randint (draw : nat) (a b : Z) : Z := a + Z.of_nat draw mod (b - a + 1).

(** [s.split(sep)] for a separator of one character: the parts between
    the separators, empty ones included. [cur] is the part being read,
    most recent character first. *)
Fixpoint split_at (sep : char) (cur : str) (s : str) : list str :=
  match s with
  | [] => [rev cur]
  | c :: s' =>
      if (c =? sep)%N then rev cur :: split_at sep [] s' else split_at sep (c :: cur) s'
  end.

Definition split_sep (s : str) (sep : char) : list str := split_at sep [] s.

(** [sep.join(parts)] *)
Fixpoint join (sep : str) (parts : list str) : str :=
  match parts with
  | [] => []
  | [part] => part
  | part :: rest => part ++ sep ++ join sep rest
  end.

(** [text[:limit] + "..." if len(text) > limit else text] *)
Definition preview (limit : Z) (text : str) : str :=
  if len text >? limit then firstn (Z.to_nat limit) text ++ lit "..." else text.

Definition text_reply (text : str) : Reply := {| reply_text := text; reply_markup := [] |}.

Section Bot.
Variable lower : str -> str.
Variable isdigit_char : char -> bool.
Variable py_int : str -> option Z.
(** [self.searcher] *)
Variable searcher : RulesSearcher.

(** [show_rule]: its reply ([number] is the argument [rule_number]). *)
Definition show_rule (number : Z) : Reply :=
  match search_by_rule_number searcher number with
  | None =>
      text_reply (literal "❌ Правило #" ++ py_str number ++ literal " не найдено."
                  ++ nl ++ nl ++ literal "💡 Всего правил: 95 (от 1 до 95)")
  | Some rule =>
      text_reply ((literal "Правило " ++ py_str (rule_number rule) ++ nl ++ nl)
                  ++ (text_eng rule ++ nl ++ nl)
                  ++ text_rus rule)
  end.

(** The row of buttons that [show_search_results] makes for a result. *)
Definition result_row (result : MatchResult) : list InlineKeyboardButton :=
  [ {| button_text := literal "Правило " ++ py_str (result_rule_number result);
       callback_data := lit "rule_" ++ py_str (result_rule_number result) |} ].

(** The loop of [show_search_results] over [enumerate(results, 1)]: what
    it appends to [results_text]. *)
Fixpoint results_entries (i : Z) (results : list MatchResult) : str :=
  match results with
  | [] => []
  | result :: rest =>
      let eng_preview := preview 100 (result_text_eng result) in
      let rus_preview := preview 100 (result_text_rus result) in
      (py_str i ++ literal ". Правило " ++ py_str (result_rule_number result) ++ nl
       ++ lit "   " ++ eng_preview ++ nl
       ++ lit "   " ++ rus_preview ++ nl ++ nl)
      ++ results_entries (i + 1) rest
  end.

(** [show_search_results]: its reply. *)
Definition show_search_results (query : str) (results : list MatchResult) : Reply :=
  {| reply_text :=
       (literal "🔍 Поиск: " ++ query ++ nl ++ nl)
       ++ (literal "📋 Найдено " ++ py_str (len results) ++ literal " результат(ов):"
           ++ nl ++ nl)
       ++ results_entries 1 results
       ++ literal "💡 Нажмите на кнопку, чтобы увидеть полное правило";
     reply_markup := List.map result_row results |}.

(** [perform_search]: its reply. The ValueError of [int] in
    [fuzzy_search] is caught by [except Exception]. *)
Definition perform_search (query : str) : Reply :=
  match fuzzy_search lower isdigit_char py_int searcher query 0.5 5 with
  | Returns [] =>
      text_reply (literal "🔍 Поиск: " ++ query ++ nl ++ nl
                  ++ literal "❌ Ничего не найдено." ++ nl ++ nl
                  ++ literal "💡 Попробуйте:" ++ nl
                  ++ literal "• Другие ключевые слова" ++ nl
                  ++ literal "• Более простые запросы" ++ nl
                  ++ literal "• Поиск на другом языке")
  | Returns (result :: rest) =>
      if (len (result :: rest) =? 1) && default false (is_direct_rule result)
      then show_rule (result_rule_number result)
      else show_search_results query (result :: rest)
  | ValueError =>
      text_reply (literal "❌ Произошла ошибка при поиске. Попробуйте позже.")
  end.

(** [search_command], for [context.args]. *)
Definition search_command (args : list str) : Reply :=
  match args with
  | [] =>
      text_reply (literal "🔍 Использование: /search <запрос>" ++ nl ++ nl
                  ++ literal "Например:" ++ nl
                  ++ literal "/search шлем" ++ nl
                  ++ lit "/search bike" ++ nl
                  ++ lit "/search training")
  | _ => perform_search (join (lit " ") args)
  end.

(** [rule_command], for [context.args]. *)
Definition rule_command (args : list str) : Reply :=
  match args with
  | [] =>
      text_reply (literal "🔢 Использование: /rule <номер>" ++ nl ++ nl
                  ++ literal "Например:" ++ nl
                  ++ lit "/rule 5" ++ nl
                  ++ lit "/rule 42")
  | arg :: _ =>
      match py_int arg with
      | Some rule_number => show_rule rule_number
      | None =>
          text_reply
            (literal "❌ Пожалуйста, введите корректный номер правила (например: /rule 5)")
      end
  end.

(** [random_command] *)
Definition random_command (draw : nat) : Reply := show_rule (randint draw 1 95).

(** [handle_message], for [update.message.text]: its replies; the
    ValueError of [int] is not caught here. *)
Definition handle_message (message_text : str) : outcome (list Reply) :=
  let text := strip message_text in
  match text with
  | [] => Returns []
  | _ =>
      if isdigit isdigit_char text then
        match py_int text with
        | Some rule_number => Returns [show_rule rule_number]
        | None => ValueError
        end
      else Returns [perform_search text]
  end.

(** What [handle_callback] does with [query.data] after [query.answer()]. *)
Inductive callback_action :=
| CallShowRule (rule_number : Z)
| EditMessageText (text : str)
| NoAction.

Definition handle_callback (data : str) : callback_action :=
  if startswith data (lit "rule_") then
    match item (split_sep data 95%N) 1 with
    | Some part =>
        match py_int part with
        | Some rule_number => CallShowRule rule_number
        | None => EditMessageText (literal "❌ Ошибка при обработке запроса")
        end
    | None => EditMessageText (literal "❌ Ошибка при обработке запроса")
    end
  else NoAction.

Definition help_articles : list InlineQueryResultArticle :=
  [ {| article_id := lit "help_1";
       title := literal "🔍 Поиск правил";
       description := literal "Начните вводить слово или фразу для поиска";
       message_text :=
         literal "🔍 Поиск правил велосипедистов" ++ nl ++ nl
         ++ literal "Начните вводить слово или фразу для поиска правил." |};
    {| article_id := lit "help_2";
       title := literal "🔢 Поиск по номеру";
       description := literal "Введите номер правила (например: 5, 42)";
       message_text :=
         literal "🔢 Поиск по номеру" ++ nl ++ nl
         ++ literal "Введите номер правила от 1 до 95." |};
    {| article_id := lit "help_3";
       title := literal "💡 Примеры запросов";
       description := literal "шлем, bike, training, над головой";
       message_text :=
         literal "💡 Примеры запросов:" ++ nl ++ nl
         ++ literal "• шлем" ++ nl
         ++ literal "• bike" ++ nl
         ++ literal "• training" ++ nl
         ++ literal "• над головой" ++ nl
         ++ literal "• 42" |};
    {| article_id := lit "random_rule";
       title := literal "🎲 Случайное правило";
       description := literal "Напиши random чтобы получить случайное правило";
       message_text :=
         literal "🎲 Случайное правило" ++ nl ++ nl
         ++ literal "Напишите @имя_бота + случайное слово для получения случайного правила."
    |} ].

Definition random_keywords : list str :=
  [ literal "случайное"; lit "random"; literal "случайно"; literal "любое";
    literal "любое правило"; lit "random rule"; literal "🎲"; lit "dice" ].

Definition random_article (random_rule_number : Z) (random_rule : Rule)
    : InlineQueryResultArticle :=
  {| article_id := lit "random_" ++ py_str random_rule_number;
     title := literal "🎲 Случайное правило " ++ py_str random_rule_number;
     description :=
       literal "Случайно выбранное правило: "
       ++ firstn 100 (text_rus random_rule) ++ lit "...";
     message_text :=
       (literal "🎲 Случайное правило " ++ py_str (rule_number random_rule)
        ++ nl ++ nl)
       ++ (text_eng random_rule ++ nl ++ nl)
       ++ text_rus random_rule |}.

Definition result_article (result : MatchResult) : InlineQueryResultArticle :=
  {| article_id := lit "rule_" ++ py_str (result_rule_number result);
     title := literal "Правило " ++ py_str (result_rule_number result);
     description := preview 120 (result_text_rus result);
     message_text :=
       (literal "Правило " ++ py_str (result_rule_number result) ++ nl ++ nl)
       ++ (result_text_eng result ++ nl ++ nl)
       ++ result_text_rus result |}.

Definition no_results_article (query : str) : InlineQueryResultArticle :=
  {| article_id := lit "no_results";
     title := literal "❌ Ничего не найдено";
     description := literal "Запрос: " ++ query;
     message_text :=
       literal "🔍 Поиск: " ++ query ++ nl ++ nl
       ++ literal "❌ Ничего не найдено." ++ nl ++ nl
       ++ literal "💡 Попробуйте другие ключевые слова или более простые запросы." |}.

Definition error_article : InlineQueryResultArticle :=
  {| article_id := lit "error";
     title := literal "❌ Ошибка поиска";
     description := literal "Произошла ошибка при поиске";
     message_text := literal "❌ Произошла ошибка при поиске. Попробуйте позже." |}.

(** The ordinary search of [handle_inline_query]. *)
Definition inline_search (query : str) : list InlineQueryResultArticle :=
  match fuzzy_search lower isdigit_char py_int searcher query 0.4 10 with
  | Returns [] => [no_results_article query]
  | Returns search_results => List.map result_article search_results
  | ValueError => [error_article]
  end.

(** [handle_inline_query], for [update.inline_query.query]: the articles
    of its answer. [draw] is the draw of [random.randint]. *)
Definition handle_inline_query (inline_query : str) (draw : nat)
    : list InlineQueryResultArticle :=
  let query := strip inline_query in
  match query with
  | [] => help_articles
  | _ =>
      let is_random_request :=
        existsb (fun keyword => str_in keyword (lower query)) random_keywords in
      if is_random_request then
        let random_rule_number := randint draw 1 95 in
        match search_by_rule_number searcher random_rule_number with
        | Some random_rule => [random_article random_rule_number random_rule]
        | None => inline_search query
        end
      else inline_search query
  end.
End Bot.
(** ** Invariants of the matcher of difflib *)

(** A match [(i, j, k)] lies inside the window [a[alo:ahi]], [b[blo:bhi]]. *)
Definition block_ok (alo ahi blo bhi : Z) (m : Z * Z * Z) : Prop :=
  alo <= m.1.1 /\ blo <= m.1.2 /\ 0 <= m.2 /\
  m.1.1 + m.2 <= ahi /\ m.1.2 + m.2 <= bhi.

(** The row [j2len] that the outer loop holds when it reaches index [i]:
    every recorded length fits between the window's start and the row. *)
Definition row_ok (alo blo bhi i : Z) (j2len : gmap Z Z) : Prop :=
  forall j k, j2len !! j = Some k ->
    1 <= k /\ k <= i - alo /\ k <= j - blo + 1 /\ j < bhi.

Definition range_ok (q : Z * Z * Z * Z) : Prop :=
  q.1.1.1 <= q.1.1.2 /\ q.1.2 <= q.2.

(** What the queue of [get_matching_blocks] still covers of [a] and of [b],
    and the number of iterations it can still take. *)
Definition span_a (queue : list (Z * Z * Z * Z)) : Z :=
  fold_right (fun q acc => (q.1.1.2 - q.1.1.1) + acc) 0 queue.
Definition span_b (queue : list (Z * Z * Z * Z)) : Z :=
  fold_right (fun q acc => (q.2 - q.1.2) + acc) 0 queue.
Definition queue_cost (queue : list (Z * Z * Z * Z)) : Z :=
  fold_right (fun q acc => (2 * (q.1.1.2 - q.1.1.1) + 1) + acc) 0 queue.

(** ** The Sequence-Order Matcher as the specification words it (section 4.3) *)

(** [matches_from text_words query_words last_pos gaps]: starting with
    [last_pos], every query word is found, in order, each one at the first
    exact match [k] of the window [last_pos - 2, last_pos + 3) clamped to
    the text; the match moves [last_pos] to [k + 1] and adds
    [max(0, k - last_pos - 1)] to the gap count, whose total is [gaps]. *)
Inductive matches_from (text_words : list str) : list str -> Z -> Z -> Prop :=
| matches_done last_pos :
    matches_from text_words [] last_pos 0
| matches_word word rest last_pos k gaps :
    Z.max 0 (last_pos - 2) <= k < Z.min (len text_words) (last_pos + 3) ->
    item text_words k = Some word ->
    (forall k', Z.max 0 (last_pos - 2) <= k' < k -> item text_words k' <> Some word) ->
    matches_from text_words rest (k + 1) gaps ->
    matches_from text_words (word :: rest) last_pos (Z.max 0 (k - last_pos - 1) + gaps).

(** A start position [i] in [text_words], as section 4.3 has the matcher
    try them: any index of the text. *)
Definition candidate_start (text_words : list str) (i : Z) : Prop :=
  0 <= i < len text_words.

(** [0.9 - min(0.3, gaps * 0.1)] *)
Definition spec_gap_score (gaps : Z) : Q := (0.9 - Qmin 0.3 (inject_Z gaps * 0.1))%Q.

(** ** The sub-scores of the fallback as the specification words them (section 4.2) *)

(** Some query word is a substring of some text word, or the other way
    round. *)
Definition partial_hit (query_words : list str) (text_words : gset (list N)) : Prop :=
  exists query_word text_word,
    In query_word query_words /\ text_word ∈ text_words /\
    (str_in query_word text_word = true \/ str_in text_word query_word = true).

(** [edit_ratio * 0.15 + word_jaccard * 0.25 + partial_substring * 0.25] *)
Definition spec_composite (edit_ratio word_jaccard partial_substring : Q) : Q :=
  (edit_ratio * 0.15 + word_jaccard * 0.25 + partial_substring * 0.25)%Q.

(** The cascade reaches the fallback: no earlier branch returns. *)
Definition reaches_fallback (query text : str) : Prop :=
  str_in query text = false /\
  method2 (split query) text = None /\
  method3 (split query) text = None /\
  method4 (split query) text = None.

(** ** Ranking as the specification words it (sections 3 and 4.4) *)

(** Non-increasing scores. *)
Definition sorted_desc (l : list MatchResult) : Prop :=
  StronglySorted (fun x y => (similarity_score y <= similarity_score x)%Q) l.

(** The results of [l] whose score is [s], in the order of [l]. *)
Definition with_score (s : Q) (l : list MatchResult) : list MatchResult :=
  List.filter (fun r => Qeq_bool (similarity_score r) s) l.

(** [sorted] is [l] in a stable order: results of equal score stand in the
    order they have in [l]. *)
Definition stable_order (l sorted : list MatchResult) : Prop :=
  forall s, with_score s sorted = with_score s l.

Section RankingSpec.
Variable lower : str -> str.

(** The results of the rules that pass the threshold, in corpus order,
    before they are sorted. *)
Definition fuzzy_candidates (query_lower : str) (threshold : Q) (corpus : list Rule)
    : list MatchResult :=
  flat_map (fuzzy_step lower query_lower threshold []) corpus.

Definition keyword_candidates (keywords : list str) (threshold : Q) (corpus : list Rule)
    : list MatchResult :=
  flat_map (keywords_step lower keywords threshold []) corpus.

(** Section 4.6: every keyword, lower-cased, occurs in the lower-cased
    primary text or in the lower-cased secondary text. *)
Definition qualifies (keywords : list str) (rule : Rule) : Prop :=
  forall keyword, In keyword keywords ->
    str_in (lower keyword) (lower (text_eng rule)) = true \/
    str_in (lower keyword) (lower (text_rus rule)) = true.

(** Section 4.6: the mean over the keywords of
    [max(score(keyword, primary), score(keyword, secondary))]. *)
Definition spec_mean_score (keywords : list str) (rule : Rule) : Q :=
  (fold_right Qplus 0
     (List.map (fun keyword =>
                  Qmax (_calculate_similarity (lower keyword) (lower (text_eng rule)))
                       (_calculate_similarity (lower keyword) (lower (text_rus rule))))
               keywords)
   / inject_Z (len keywords))%Q.
End RankingSpec.

(** The two query words stand far apart wherever they occur: no occurrence
    of [w2] lies in the window that follows an occurrence of [w1]. *)
Definition scattered (w1 w2 : str) (text_words : list str) : Prop :=
  forall p q, item text_words p = Some w1 -> item text_words q = Some w2 ->
              q < p - 1 \/ p + 3 < q.

(** The fields of a MatchResult (section 3). *)
Definition all_fields : list string :=
  ["rule_number"; "text_eng"; "text_rus"; "similarity_score"; "matched_language";
   "is_direct_rule"]%string.

(** The corpus of the worked examples. *)
Definition example_corpus : RulesSearcher :=
  {| rules := [ {| rule_number := 1; text_eng := lit "Obey The Rules"; text_rus := lit "x" |};
                {| rule_number := 5; text_eng := lit "Harden up"; text_rus := lit "rules y" |};
                {| rule_number := 7; text_eng := lit "rules rule"; text_rus := lit "z" |} ] |}.


(** [str.isdigit] on the code points below 256, for the worked examples:
    the ASCII digits and the superscript digits U+00B2, U+00B3 and
    U+00B9. [int] reads none of the three superscripts: on the strings
    this test accepts it is [ascii_int]. *)
Definition latin1_isdigit_char (c : char) : bool :=
  (ascii_isdigit_char c || (c =? 178) || (c =? 179) || (c =? 185))%N.
(** ** The rotation of the daily rules, for the statements below *)

(** The numbers a group rotates through: those of [used] and [unused]
    together, or all the numbers when both lists are empty or missing. *)
Definition rule_pool (group : Group) : list Z :=
  match default [] (used group) ++ default [] (unused group) with
  | [] => all_rule_numbers
  | _ :: _ => default [] (used group) ++ default [] (unused group)
  end.

(** The rule numbers of the results that are not [None]. *)
Definition delivered (results : list (option DailyRule)) : list Z :=
  flat_map (fun result => match result with
                          | Some rule_data => [daily_rule_number rule_data]
                          | None => []
                          end) results.

(** [int] on the decimal strings that [str] writes, for the worked
    examples: an optional minus sign and ASCII digits. *)
Definition decimal_int (s : str) : option Z :=
  if forallb (fun c => (c <? 256)%N) s
  then option_map Z.of_int
         (NilZero.int_of_string (string_of_list_ascii (List.map ascii_of_N s)))
  else None.

(** A corpus with the rules 1 to 95, for the worked examples. *)
Definition corpus_95 : RulesSearcher :=
  {| rules := List.map (fun n => {| rule_number := n;
                                     text_eng := lit "Rule " ++ py_str n;
                                     text_rus := literal "Правило " ++ py_str n |})
                       all_rule_numbers |}.


(** A time of the day: from midnight up to, not including, the next
    midnight. *)
Definition valid_time (t : Z) : Prop := 0 <= t < microseconds_per_day.

(** The microseconds from the first midnight to a [datetime]. *)
Definition instant (d : datetime) : Z := date d * microseconds_per_day + time_of_day d.

Section SchedulerSpec.
Variable py_int : str -> option Z.

(** One daily run with every group taken alone: each entry of [groups]
    is run in a manager that has this entry only, the [n]-th one with
    the draw [draws n]. The entries after the runs and the messages, in
    the order of [groups]. *)
Fixpoint each_group_alone (rules_searcher : RulesSearcher) (n : nat) (draws : nat -> nat)
    (entries : list (list N * Group)) : list (list N * Group) * list (Z * list N) :=
  match entries with
  | [] => ([], [])
  | (key, group) :: rest =>
      let alone := {| searcher := rules_searcher; groups := [(key, group)] |} in
      let '(after, messages) :=
        match py_int key with
        | Some group_id => send_daily_rule_to_group alone group_id (draws n)
        | None => (alone, [])
        end in
      let '(entries', sent) := each_group_alone rules_searcher (Datatypes.S n) draws rest in
      (groups after ++ entries', messages ++ sent)
  end.

(** The group ids that [int] reads from the keys, in the order of the
    keys. *)
Definition key_ids (entries : list (list N * Group)) : list Z :=
  omap (fun entry => py_int (fst entry)) entries.
End SchedulerSpec.

(** Managers for the worked examples: one group in the middle of its
    cycle over the example corpus, a group whose record has lost the key
    ["used"], and two groups over the corpus of 95 rules. *)
Definition example_manager : SimpleDailyRules :=
  {| searcher := example_corpus;
     groups := [(py_str 7, {| id_ := 7; used := Some [1]; unused := Some [5; 7] |})] |}.

Definition example_manager_no_used : SimpleDailyRules :=
  {| searcher := example_corpus;
     groups := [(py_str 7, {| id_ := 7; used := None; unused := Some [5; 7] |})] |}.

Definition example_manager_two_groups : SimpleDailyRules :=
  {| searcher := corpus_95;
     groups := [(py_str (-100123),
                 {| id_ := -100123; used := Some [3]; unused := Some [1; 2] |});
                (py_str 7, {| id_ := 7; used := Some []; unused := Some all_rule_numbers |})] |}.

(** ** The command line and the bot, for the statements below *)

(** A decimal digit of ASCII. *)
Definition ascii_digit (c : char) : Prop := (48 <= c <= 57)%N.

(** The arguments of a run with a positional query and neither [--rule]
    nor [--keywords]. *)
Definition query_only (args : Namespace) (query : str) : Namespace :=
  {| args_query := Some query;
     args_rule := None;
     args_keywords := None;
     args_threshold := args_threshold args;
     args_max_results := args_max_results args;
     args_show_scores := args_show_scores args |}.

(** The arguments of a run without [--rule]. *)
Definition without_rule (args : Namespace) : Namespace :=
  {| args_query := args_query args;
     args_rule := None;
     args_keywords := args_keywords args;
     args_threshold := args_threshold args;
     args_max_results := args_max_results args;
     args_show_scores := args_show_scores args |}.

(** The reply of [perform_search] when nothing is found. *)
Definition nothing_found_reply (query : str) : Reply :=
  text_reply (literal "🔍 Поиск: " ++ query ++ nl ++ nl
              ++ literal "❌ Ничего не найдено." ++ nl ++ nl
              ++ literal "💡 Попробуйте:" ++ nl
              ++ literal "• Другие ключевые слова" ++ nl
              ++ literal "• Более простые запросы" ++ nl
              ++ literal "• Поиск на другом языке").

(** The reply of [perform_search] when the search has raised. *)
Definition search_error_reply : Reply :=
  text_reply (literal "❌ Произошла ошибка при поиске. Попробуйте позже.").

(** A string that does not begin with whitespace. *)
Definition no_space_head (s : str) : Prop :=
  match s with
  | [] => True
  | c :: _ => isspace c = false
  end.

Section PhraseSpec.
Variable lower : str -> str.

(** The query occurs, as it is written, in the lower-cased English or
    Russian text of a result. *)
Definition has_phrase (query_lower : str) (result : MatchResult) : Prop :=
  str_in query_lower (lower (result_text_eng result)) = true \/
  str_in query_lower (lower (result_text_rus result)) = true.
End PhraseSpec.

(** A corpus for the worked example of the ranking: rule 2, the first in
    the file, has the two words of ["ride hard"] but not the phrase;
    rules 1 and 3 have the phrase. *)
Definition phrase_corpus : RulesSearcher :=
  {| rules := [ {| rule_number := 2; text_eng := lit "Hard ride today"; text_rus := lit "a" |};
                {| rule_number := 1; text_eng := lit "Ride hard"; text_rus := lit "b" |};
                {| rule_number := 3; text_eng := lit "We ride hard"; text_rus := lit "c" |} ] |}.
(** * Properties *)

(** ** Loops *)

Lemma for_range_inv {S : Type} (P : Z -> S -> Prop) (body : Z -> S -> S) (n : nat) :
  forall i s,
    P i s ->
    (forall j t, i <= j < i + Z.of_nat n -> P j t -> P (j + 1) (body j t)) ->
    P (i + Z.of_nat n) (for_range n i body s).
Proof.
  induction n as [|n IH]; intros i s Hs Hstep; simpl for_range.
  - replace (i + Z.of_nat 0) with i by lia. exact Hs.
  - replace (i + Z.of_nat (Datatypes.S n)) with ((i + 1) + Z.of_nat n) by lia.
    apply IH.
    + apply Hstep; [lia | exact Hs].
    + intros j t Hj. apply Hstep. lia.
Qed.

Lemma range_loop_inv {S : Type} (P : Z -> S -> Prop) (body : Z -> S -> S) lo hi s :
  lo <= hi ->
  P lo s ->
  (forall j t, lo <= j < hi -> P j t -> P (j + 1) (body j t)) ->
  P hi (range_loop lo hi body s).
Proof.
  intros Hle Hs Hstep. unfold range_loop.
  replace hi with (lo + Z.of_nat (Z.to_nat (hi - lo))) at 1 by lia.
  apply for_range_inv; [exact Hs|].
  intros j t Hj. apply Hstep. lia.
Qed.

Lemma range_loop_empty {S : Type} (body : Z -> S -> S) lo hi s :
  hi <= lo -> range_loop lo hi body s = s.
Proof.
  intros H. unfold range_loop.
  replace (Z.to_nat (hi - lo)) with O by lia. reflexivity.
Qed.

Lemma first_from_Some n : forall k p r,
  first_from n k p = Some r ->
  k <= r < k + Z.of_nat n /\ p r = true /\ (forall j, k <= j < r -> p j = false).
Proof.
  induction n as [|n IH]; intros k p r H; simpl in H; [discriminate|].
  destruct (p k) eqn:Hpk.
  - inversion H; subst r. split; [lia|]. split; [exact Hpk|]. intros j Hj. lia.
  - apply IH in H. destruct H as (Hr & Hp & Hbefore).
    split; [lia|]. split; [exact Hp|].
    intros j Hj. destruct (Z.eq_dec j k) as [->|Hne]; [exact Hpk|].
    apply Hbefore. lia.
Qed.

Lemma first_from_None n : forall k p,
  first_from n k p = None <-> (forall j, k <= j < k + Z.of_nat n -> p j = false).
Proof.
  induction n as [|n IH]; intros k p; simpl first_from.
  - split; [intros _ j Hj; lia | reflexivity].
  - destruct (p k) eqn:Hpk.
    + split; [discriminate|]. intros H. rewrite H in Hpk by lia. discriminate.
    + split.
      * intros H j Hj. destruct (Z.eq_dec j k) as [->|Hne]; [exact Hpk|].
        apply (proj1 (IH (k + 1) p) H). lia.
      * intros H. apply IH. intros j Hj. apply H. lia.
Qed.

Lemma first_in_range_Some lo hi p r :
  first_in_range lo hi p = Some r ->
  lo <= r < hi /\ p r = true /\ (forall j, lo <= j < r -> p j = false).
Proof.
  unfold first_in_range. intros H. apply first_from_Some in H.
  destruct H as (Hr & Hp & Hb). repeat split; try assumption; lia.
Qed.

Lemma first_in_range_None lo hi p :
  first_in_range lo hi p = None <-> (forall j, lo <= j < hi -> p j = false).
Proof.
  unfold first_in_range. rewrite first_from_None. split.
  - intros H j Hj. apply H. lia.
  - intros H j Hj. apply H. lia.
Qed.

(** A hit inside the range makes the search succeed, at or before it. *)
Lemma first_in_range_hit lo hi p j :
  lo <= j < hi -> p j = true ->
  exists r, first_in_range lo hi p = Some r /\ lo <= r <= j.
Proof.
  intros Hj Hp. destruct (first_in_range lo hi p) as [r|] eqn:E.
  - exists r. split; [reflexivity|].
    apply first_in_range_Some in E. destruct E as (Hr & _ & Hb).
    destruct (Z_le_gt_dec r j); [lia|].
    rewrite Hb in Hp by lia. discriminate.
  - rewrite first_in_range_None in E. rewrite E in Hp by lia. discriminate.
Qed.

(** ** Comparisons of scores *)

Lemma Qltb_lt x y : Qltb x y = true <-> (x < y)%Q.
Proof.
  unfold Qltb. rewrite negb_true_iff. split.
  - intros H. apply Qnot_le_lt. intros Hle.
    apply Qle_bool_iff in Hle. congruence.
  - intros H. destruct (Qle_bool y x) eqn:E; [|reflexivity].
    apply Qle_bool_iff in E. exfalso. apply (Qlt_not_le _ _ H E).
Qed.

Lemma Qltb_ge x y : Qltb x y = false <-> (y <= x)%Q.
Proof.
  unfold Qltb. rewrite negb_false_iff. apply Qle_bool_iff.
Qed.

Lemma fmax_cases x y : (fmax x y = y /\ (x < y)%Q) \/ (fmax x y = x /\ (y <= x)%Q).
Proof.
  unfold fmax. destruct (Qltb x y) eqn:E.
  - left. split; [reflexivity|]. apply Qltb_lt. exact E.
  - right. split; [reflexivity|]. apply Qltb_ge. exact E.
Qed.

Lemma fmin_cases x y : (fmin x y = y /\ (y < x)%Q) \/ (fmin x y = x /\ (x <= y)%Q).
Proof.
  unfold fmin. destruct (Qltb y x) eqn:E.
  - left. split; [reflexivity|]. apply Qltb_lt. exact E.
  - right. split; [reflexivity|]. apply Qltb_ge. exact E.
Qed.


(** ** difflib: every block lies in its window, the loop ends, the ratio
    is a fraction of one *)

Section SequenceMatcherFacts.
Variables a b : str.

Lemma inner_loop_ok alo ahi blo bhi i j2len js : forall st,
  alo <= i < ahi ->
  row_ok alo blo bhi i j2len ->
  row_ok alo blo bhi (i + 1) st.1 ->
  block_ok alo ahi blo bhi st.2 ->
  row_ok alo blo bhi (i + 1) (difflib.inner_loop blo bhi i j2len js st).1 /\
  block_ok alo ahi blo bhi (difflib.inner_loop blo bhi i j2len js st).2.
Proof.
  induction js as [|j js IH]; intros st Hi Hprev Hrow Hbest; simpl.
  - split; assumption.
  - destruct (j <? blo) eqn:Hlo; [apply IH; assumption|].
    destruct (bhi <=? j) eqn:Hhi; [split; assumption|].
    apply Z.ltb_ge in Hlo. apply Z.leb_gt in Hhi.
    apply IH; try assumption.
    + destruct st as [newj2len [[besti bestj] bestsize]]. simpl in *.
      intros j' k' Hlook.
      apply lookup_insert_Some in Hlook.
      destruct Hlook as [[<- <-]|[_ Hlook]]; [|apply Hrow; exact Hlook].
      destruct (j2len !! (j - 1)) as [k0|] eqn:Hk0; simpl.
      * destruct (Hprev _ _ Hk0) as (? & ? & ? & ?). lia.
      * lia.
    + destruct st as [newj2len [[besti bestj] bestsize]]. simpl in *.
      destruct (bestsize <? _) eqn:Hbetter; [|exact Hbest].
      unfold block_ok; simpl.
      destruct (j2len !! (j - 1)) as [k0|] eqn:Hk0; simpl.
      * destruct (Hprev _ _ Hk0) as (? & ? & ? & ?). lia.
      * lia.
Qed.

Lemma longest_junk_free_ok alo ahi blo bhi :
  alo <= ahi -> blo <= bhi ->
  block_ok alo ahi blo bhi (difflib.longest_junk_free a b alo ahi blo bhi).
Proof.
  intros Ha Hb. unfold difflib.longest_junk_free.
  enough (H : row_ok alo blo bhi ahi
                (range_loop alo ahi (difflib.outer_step a b blo bhi) (∅, (alo, blo, 0))).1 /\
              block_ok alo ahi blo bhi
                (range_loop alo ahi (difflib.outer_step a b blo bhi) (∅, (alo, blo, 0))).2)
    by (destruct H as [_ H]; exact H).
  apply (range_loop_inv
           (fun i st => row_ok alo blo bhi i st.1 /\ block_ok alo ahi blo bhi st.2)).
  - exact Ha.
  - split.
    + intros j k Hlook. simpl in Hlook. rewrite lookup_empty in Hlook. discriminate.
    + unfold block_ok; simpl. lia.
  - intros i [j2len best] Hi [Hrow Hbest]. unfold difflib.outer_step.
    apply (inner_loop_ok alo ahi); simpl; try assumption.
    intros j k Hlook. simpl in Hlook. rewrite lookup_empty in Hlook. discriminate.
Qed.

Lemma extend_left_ok alo ahi blo bhi fuel : forall m,
  block_ok alo ahi blo bhi m ->
  block_ok alo ahi blo bhi (difflib.extend_left a b fuel alo blo m).
Proof.
  induction fuel as [|fuel IH]; intros [[besti bestj] bestsize] Hm; simpl; [exact Hm|].
  destruct (alo <? besti) eqn:H1; simpl; [|exact Hm].
  destruct (blo <? bestj) eqn:H2; simpl; [|exact Hm].
  match goal with |- context [if ?c then _ else _] => destruct c end; [|exact Hm].
  apply IH. unfold block_ok in *; simpl in *. lia.
Qed.

Lemma extend_right_ok alo ahi blo bhi fuel : forall m,
  block_ok alo ahi blo bhi m ->
  block_ok alo ahi blo bhi (difflib.extend_right a b fuel ahi bhi m).
Proof.
  induction fuel as [|fuel IH]; intros [[besti bestj] bestsize] Hm; simpl; [exact Hm|].
  destruct (besti + bestsize <? ahi) eqn:H1; simpl; [|exact Hm].
  destruct (bestj + bestsize <? bhi) eqn:H2; simpl; [|exact Hm].
  match goal with |- context [if ?c then _ else _] => destruct c end; [|exact Hm].
  apply IH. unfold block_ok in *; simpl in *. lia.
Qed.

Lemma find_longest_match_ok alo ahi blo bhi :
  alo <= ahi -> blo <= bhi ->
  block_ok alo ahi blo bhi (difflib.find_longest_match a b alo ahi blo bhi).
Proof.
  intros Ha Hb. unfold difflib.find_longest_match.
  apply extend_right_ok, extend_left_ok, longest_junk_free_ok; assumption.
Qed.

(** The fuel of the two [while] loops is enough: with no fuel left the
    guard of the loop is false. *)
Lemma extend_left_fuel alo blo fuel : forall m,
  (m.1.1 - alo <= Z.of_nat fuel) ->
  let r := difflib.extend_left a b fuel alo blo m in
  difflib.extend_left a b 1 alo blo r = r.
Proof.
  induction fuel as [|fuel IH]; intros [[besti bestj] bestsize] Hm; simpl in *.
  - replace (alo <? besti) with false by lia. reflexivity.
  - destruct (alo <? besti) eqn:H1; simpl; [|rewrite H1; reflexivity].
    destruct (blo <? bestj) eqn:H2; simpl; [|rewrite H1, H2; reflexivity].
    match goal with |- context [if ?c then _ else _] => destruct c eqn:H3 end.
    + apply IH. simpl. lia.
    + rewrite H1, H2. simpl. rewrite H3. reflexivity.
Qed.

Lemma extend_right_fuel ahi bhi fuel : forall m,
  (ahi - (m.1.1 + m.2) <= Z.of_nat fuel) ->
  let r := difflib.extend_right a b fuel ahi bhi m in
  difflib.extend_right a b 1 ahi bhi r = r.
Proof.
  induction fuel as [|fuel IH]; intros [[besti bestj] bestsize] Hm; simpl in *.
  - replace (besti + bestsize <? ahi) with false by lia. reflexivity.
  - destruct (besti + bestsize <? ahi) eqn:H1; simpl; [|rewrite H1; reflexivity].
    destruct (bestj + bestsize <? bhi) eqn:H2; simpl; [|rewrite H1, H2; reflexivity].
    match goal with |- context [if ?c then _ else _] => destruct c eqn:H3 end.
    + apply IH. simpl. lia.
    + rewrite H1, H2. simpl. rewrite H3. reflexivity.
Qed.

Lemma sum_sizes_app l1 l2 :
  difflib.sum_sizes (l1 ++ l2) = difflib.sum_sizes l1 + difflib.sum_sizes l2.
Proof.
  unfold difflib.sum_sizes. induction l1 as [|m l1 IH]; simpl; [reflexivity|].
  rewrite IH. lia.
Qed.

Lemma sum_sizes_snoc l i j k :
  difflib.sum_sizes (l ++ [(i, j, k)]) = difflib.sum_sizes l + k.
Proof. rewrite sum_sizes_app. unfold difflib.sum_sizes; simpl. lia. Qed.

Lemma queue_measures_nonneg queue :
  Forall range_ok queue ->
  0 <= span_a queue /\ 0 <= span_b queue /\ 0 <= queue_cost queue.
Proof.
  induction 1 as [|q queue Hq _ IH]; simpl; [lia|].
  destruct Hq as [Hqa Hqb]. lia.
Qed.

(** The loop of [get_matching_blocks] ends within [queue_cost queue]
    iterations, and the blocks it adds are no longer, in total, than what
    the queue covers of [a] and of [b]. *)
Lemma blocks_loop_total fuel : forall queue acc,
  Forall range_ok queue ->
  queue_cost queue <= Z.of_nat fuel ->
  exists blocks,
    difflib.blocks_loop a b fuel queue acc = Some blocks /\
    difflib.sum_sizes acc <= difflib.sum_sizes blocks /\
    difflib.sum_sizes blocks <= difflib.sum_sizes acc + span_a queue /\
    difflib.sum_sizes blocks <= difflib.sum_sizes acc + span_b queue.
Proof.
  induction fuel as [|fuel IH]; intros queue acc Hok Hcost.
  - destruct queue as [|[[[alo ahi] blo] bhi] queue'].
    + exists acc. simpl. repeat split; lia.
    + inversion Hok as [|? ? Hq Hrest]; subst.
      destruct (queue_measures_nonneg _ Hrest) as (_ & _ & Hc).
      destruct Hq as [Hqa Hqb]. simpl in *. lia.
  - destruct queue as [|[[[alo ahi] blo] bhi] queue'].
    + exists acc. simpl. repeat split; lia.
    + inversion Hok as [|? ? Hq Hrest]; subst.
      destruct (queue_measures_nonneg _ Hrest) as (Hsa & Hsb & Hc).
      destruct Hq as [Hqa Hqb]. simpl in Hqa, Hqb, Hcost.
      pose proof (find_longest_match_ok alo ahi blo bhi Hqa Hqb) as Hm.
      simpl difflib.blocks_loop.
      destruct (difflib.find_longest_match a b alo ahi blo bhi) as [[i j] k].
      unfold block_ok in Hm; simpl in Hm.
      destruct (k =? 0) eqn:Hk.
      * destruct (IH queue' acc Hrest) as (blocks & Hrun & H1 & H2 & H3); [lia|].
        exists blocks. simpl. repeat split; try assumption; lia.
      * apply Z.eqb_neq in Hk.
        destruct (alo <? i) eqn:Hl1; destruct (blo <? j) eqn:Hl2;
          destruct (i + k <? ahi) eqn:Hr1; destruct (j + k <? bhi) eqn:Hr2;
          simpl andb; cbv iota; simpl app;
          match goal with
          | |- context [difflib.blocks_loop a b fuel ?q ?acc'] =>
              destruct (IH q acc') as (blocks & Hrun & H1 & H2 & H3);
              [ repeat (constructor; [unfold range_ok; simpl; lia|]); exact Hrest
              | simpl; lia
              | exists blocks; rewrite sum_sizes_snoc in H1, H2, H3;
                simpl in H2, H3; simpl; repeat split; try assumption; lia ]
          end.
Qed.

(** [get_matching_blocks] returns. *)
Lemma get_matching_blocks_returns :
  exists blocks,
    difflib.get_matching_blocks a b = Some blocks /\
    0 <= difflib.sum_sizes blocks /\
    difflib.sum_sizes blocks <= len a /\
    difflib.sum_sizes blocks <= len b.
Proof.
  unfold difflib.get_matching_blocks.
  destruct (blocks_loop_total (difflib.blocks_fuel a) [(0, len a, 0, len b)] [])
    as (blocks & Hrun & H1 & H2 & H3).
  - constructor; [|constructor]. unfold range_ok, len; simpl. lia.
  - unfold difflib.blocks_fuel, len. simpl. lia.
  - exists blocks. change (difflib.sum_sizes []) with 0 in H1, H2, H3.
    simpl in H2, H3. repeat split; try assumption; lia.
Qed.

Lemma matches_bounds :
  0 <= difflib.matches a b /\
  difflib.matches a b <= len a /\
  difflib.matches a b <= len b.
Proof.
  unfold difflib.matches.
  destruct get_matching_blocks_returns as (blocks & -> & H). exact H.
Qed.

(** [ratio()] is a float in [0, 1]. *)
Lemma ratio_bounds : (0 <= difflib.ratio a b <= 1)%Q.
Proof.
  unfold difflib.ratio.
  destruct matches_bounds as (H0 & Ha & Hb).
  destruct (len a + len b =? 0) eqn:Hlen; [lra|].
  apply Z.eqb_neq in Hlen.
  assert (Hpos : 0 < len a + len b) by (unfold len in *; lia).
  assert (HposQ : (0 < inject_Z (len a + len b))%Q).
  { replace 0%Q with (inject_Z 0) by reflexivity. rewrite <- Zlt_Qlt. exact Hpos. }
  assert (H0Q : (0 <= inject_Z (difflib.matches a b))%Q).
  { replace 0%Q with (inject_Z 0) by reflexivity. rewrite <- Zle_Qle. exact H0. }
  assert (H2Q : (2 * inject_Z (difflib.matches a b) <= inject_Z (len a + len b))%Q).
  { replace 2%Q with (inject_Z 2) by reflexivity.
    rewrite <- inject_Z_mult, <- Zle_Qle. lia. }
  split.
  - apply Qle_shift_div_l; [exact HposQ|]. lra.
  - apply Qle_shift_div_r; [exact HposQ|]. lra.
Qed.

End SequenceMatcherFacts.

(** ** The Sequence-Order Matcher *)

Lemma str_eqb_eq (x y : str) : str_eqb x y = true <-> x = y.
Proof. unfold str_eqb. apply bool_decide_eq_true. Qed.

Lemma window_find_Some text_words word last_pos k :
  window_find text_words word last_pos = Some k <->
  Z.max 0 (last_pos - 2) <= k < Z.min (len text_words) (last_pos + 3) /\
  item text_words k = Some word /\
  (forall k', Z.max 0 (last_pos - 2) <= k' < k -> item text_words k' <> Some word).
Proof.
  unfold window_find. split.
  - intros H. apply first_in_range_Some in H. destruct H as (Hk & Hp & Hb).
    split; [exact Hk|]. split.
    + destruct (item text_words k) as [w|]; [|discriminate].
      apply str_eqb_eq in Hp. congruence.
    + intros k' Hk' Heq. specialize (Hb k' Hk'). rewrite Heq in Hb.
      assert (str_eqb word word = true) by (apply str_eqb_eq; reflexivity).
      congruence.
  - intros (Hk & Hit & Hb).
    destruct (first_in_range_hit (Z.max 0 (last_pos - 2))
                (Z.min (len text_words) (last_pos + 3))
                (fun k => match item text_words k with
                          | Some w => str_eqb w word
                          | None => false
                          end) k Hk) as (r & Hr & Hrk).
    + rewrite Hit. apply str_eqb_eq. reflexivity.
    + rewrite Hr. f_equal.
      destruct (Z.eq_dec r k) as [->|Hne]; [reflexivity|].
      apply first_in_range_Some in Hr. destruct Hr as (Hr1 & Hp & _).
      exfalso. apply (Hb r); [lia|].
      destruct (item text_words r) as [w|]; [|discriminate].
      apply str_eqb_eq in Hp. congruence.
Qed.

Lemma window_find_None text_words word last_pos :
  window_find text_words word last_pos = None <->
  (forall k, Z.max 0 (last_pos - 2) <= k < Z.min (len text_words) (last_pos + 3) ->
             item text_words k <> Some word).
Proof.
  unfold window_find. rewrite first_in_range_None. split.
  - intros H k Hk Heq. specialize (H k Hk). rewrite Heq in H.
    assert (str_eqb word word = true) by (apply str_eqb_eq; reflexivity).
    congruence.
  - intros H k Hk. specialize (H k Hk).
    destruct (item text_words k) as [w|]; [|reflexivity].
    destruct (str_eqb w word) eqn:E; [|reflexivity].
    apply str_eqb_eq in E. congruence.
Qed.

(** A word that stands in the window is found, there or further left. *)
Lemma window_find_hit text_words word last_pos j :
  Z.max 0 (last_pos - 2) <= j < Z.min (len text_words) (last_pos + 3) ->
  item text_words j = Some word ->
  exists k, window_find text_words word last_pos = Some k /\
            Z.max 0 (last_pos - 2) <= k <= j.
Proof.
  intros Hj Hit.
  destruct (window_find text_words word last_pos) as [k|] eqn:E.
  - exists k. split; [reflexivity|].
    apply window_find_Some in E. destruct E as (Hk & _ & Hb).
    destruct (Z_le_gt_dec k j); [lia|]. exfalso. apply (Hb j); [lia|exact Hit].
  - exfalso. rewrite window_find_None in E. apply (E j Hj Hit).
Qed.

(** The counters of the inner loop only grow, and [matches] by at most
    the number of query words. *)
Lemma match_query_words_counters text_words query_words : forall matches gaps last_pos,
  let r := match_query_words text_words query_words (matches, gaps, last_pos) in
  matches <= r.1.1 <= matches + len query_words /\ gaps <= r.1.2.
Proof.
  induction query_words as [|w rest IH]; intros matches gaps last_pos; simpl.
  - unfold len; simpl. lia.
  - destruct (window_find text_words w last_pos) as [k|].
    + specialize (IH (matches + 1) (gaps + Z.max 0 (k - last_pos - 1)) (k + 1)).
      simpl in IH. unfold len in *. simpl length. lia.
    + unfold len; simpl. lia.
Qed.

(** The loop matches every word exactly when the specification's relation
    holds, and then the gap counter has grown by the relation's gaps. *)
Lemma match_query_words_complete text_words query_words last_pos g :
  matches_from text_words query_words last_pos g ->
  forall matches gaps,
    let r := match_query_words text_words query_words (matches, gaps, last_pos) in
    r.1.1 = matches + len query_words /\ r.1.2 = gaps + g.
Proof.
  induction 1 as [last_pos|w rest last_pos k g Hk Hit Hb Hrest IH]; intros matches gaps; simpl.
  - unfold len; simpl. lia.
  - assert (Hfind : window_find text_words w last_pos = Some k)
      by (apply window_find_Some; auto).
    rewrite Hfind.
    specialize (IH (matches + 1) (gaps + Z.max 0 (k - last_pos - 1))).
    simpl in IH. unfold len in *. simpl length. lia.
Qed.

Lemma match_query_words_sound text_words query_words : forall matches gaps last_pos,
  let r := match_query_words text_words query_words (matches, gaps, last_pos) in
  r.1.1 = matches + len query_words ->
  exists g, matches_from text_words query_words last_pos g /\ r.1.2 = gaps + g.
Proof.
  induction query_words as [|w rest IH]; intros matches gaps last_pos; simpl.
  - intros _. exists 0. split; [constructor | lia].
  - destruct (window_find text_words w last_pos) as [k|] eqn:Hfind.
    + intros Hall.
      destruct (IH (matches + 1) (gaps + Z.max 0 (k - last_pos - 1)) (k + 1)) as (g & Hm & Hg).
      { simpl. unfold len in *. simpl length in Hall. lia. }
      apply window_find_Some in Hfind. destruct Hfind as (Hk & Hit & Hb).
      exists (Z.max 0 (k - last_pos - 1) + g). split.
      * constructor; assumption.
      * simpl in Hg. lia.
    + simpl. unfold len. simpl length. lia.
Qed.

Lemma matches_from_gaps_nonneg text_words query_words last_pos g :
  matches_from text_words query_words last_pos g -> 0 <= g.
Proof. induction 1; lia. Qed.

Lemma matches_from_functional text_words query_words last_pos g1 g2 :
  matches_from text_words query_words last_pos g1 ->
  matches_from text_words query_words last_pos g2 -> g1 = g2.
Proof.
  intros H1 H2.
  pose proof (match_query_words_complete _ _ _ _ H1 0 0) as [_ E1].
  pose proof (match_query_words_complete _ _ _ _ H2 0 0) as [_ E2].
  simpl in E1, E2. lia.
Qed.

(** *** The score of a number of gaps *)

Lemma fmin_Qmin x y : fmin x y = Qmin x y.
Proof.
  unfold Qmin, GenericMinMax.gmin.
  destruct (fmin_cases x y) as [[-> H]|[-> H]].
  - apply Qgt_alt in H. rewrite H. reflexivity.
  - destruct (x ?= y)%Q eqn:E; try reflexivity.
    apply Qgt_alt in E. lra.
Qed.

Lemma gap_score_spec gaps : gap_score gaps = spec_gap_score gaps.
Proof. unfold gap_score, spec_gap_score. rewrite fmin_Qmin. reflexivity. Qed.

Lemma inject_Z_nonneg z : 0 <= z -> (0 <= inject_Z z)%Q.
Proof. intros H. replace 0%Q with (inject_Z 0) by reflexivity. rewrite <- Zle_Qle. exact H. Qed.

Lemma inject_Z_ge_1 z : 1 <= z -> (1 <= inject_Z z)%Q.
Proof. intros H. replace 1%Q with (inject_Z 1) by reflexivity. rewrite <- Zle_Qle. exact H. Qed.

Lemma gap_penalty_bounds gaps :
  0 <= gaps -> (0 <= fmin 0.3 (inject_Z gaps * 0.1) <= 0.3)%Q.
Proof.
  intros H. pose proof (inject_Z_nonneg _ H).
  destruct (fmin_cases 0.3 (inject_Z gaps * 0.1)) as [[-> Hlt]|[-> Hle]]; lra.
Qed.

Lemma gap_score_bounds gaps : 0 <= gaps -> (0.6 <= gap_score gaps <= 0.9)%Q.
Proof. intros H. unfold gap_score. pose proof (gap_penalty_bounds _ H). lra. Qed.

Lemma gap_score_0 : (gap_score 0 == 0.9)%Q.
Proof. vm_compute. reflexivity. Qed.

Lemma gap_score_pos gaps : 1 <= gaps -> (gap_score gaps <= 0.8)%Q.
Proof.
  intros H. unfold gap_score. pose proof (inject_Z_ge_1 _ H).
  destruct (fmin_cases 0.3 (inject_Z gaps * 0.1)) as [[-> Hlt]|[-> Hle]]; lra.
Qed.

Lemma gap_score_1 : (gap_score 1 == 0.8)%Q.
Proof. vm_compute. reflexivity. Qed.

Lemma gap_score_mono g1 g2 : g1 <= g2 -> (gap_score g2 <= gap_score g1)%Q.
Proof.
  intros H. unfold gap_score.
  assert (HQ : (inject_Z g1 <= inject_Z g2)%Q) by (rewrite <- Zle_Qle; exact H).
  destruct (fmin_cases 0.3 (inject_Z g1 * 0.1)) as [[-> H1]|[-> H1]];
    destruct (fmin_cases 0.3 (inject_Z g2 * 0.1)) as [[-> H2]|[-> H2]]; lra.
Qed.

(** *** The loop over the start positions *)

Lemma sequence_step_match query_words text_words i g best :
  matches_from text_words query_words i g ->
  sequence_step query_words text_words i best = fmax best (gap_score g).
Proof.
  intros H. unfold sequence_step.
  pose proof (match_query_words_complete _ _ _ _ H 0 0) as [E1 E2].
  destruct (match_query_words text_words query_words (0, 0, i)) as [[m gs] lp].
  simpl in E1, E2. subst m gs.
  rewrite Z.add_0_l, Z.eqb_refl. reflexivity.
Qed.

Lemma sequence_step_nomatch query_words text_words i best :
  (forall g, ~ matches_from text_words query_words i g) ->
  sequence_step query_words text_words i best = best.
Proof.
  intros H. unfold sequence_step.
  pose proof (match_query_words_sound text_words query_words 0 0 i) as Hs.
  destruct (match_query_words text_words query_words (0, 0, i)) as [[m gs] lp].
  simpl in Hs.
  destruct (m =? len query_words) eqn:E; [|reflexivity].
  apply Z.eqb_eq in E. destruct Hs as (g & Hg & _); [lia|].
  exfalso. apply (H g Hg).
Qed.

Lemma matches_from_dec text_words query_words i :
  (exists g, matches_from text_words query_words i g) \/
  (forall g, ~ matches_from text_words query_words i g).
Proof.
  pose proof (match_query_words_sound text_words query_words 0 0 i) as Hs.
  destruct (Z.eq_dec (match_query_words text_words query_words (0, 0, i)).1.1
                     (0 + len query_words)) as [E|NE].
  - left. destruct (Hs E) as (g & Hg & _). exists g. exact Hg.
  - right. intros g Hg. apply NE.
    apply (match_query_words_complete _ _ _ _ Hg 0 0).
Qed.

(** After the start positions [0 .. hi - 1] the running best is at least
    the score of every complete match among them, and it is the score of
    one of them, or still 0.0 when none matched. *)
Lemma sequence_loop_spec query_words text_words hi :
  let r := range_loop 0 hi (sequence_step query_words text_words) 0%Q in
  (forall i g, 0 <= i < hi -> matches_from text_words query_words i g ->
               (gap_score g <= r)%Q) /\
  ((exists i g, 0 <= i < hi /\ matches_from text_words query_words i g /\ r = gap_score g) \/
   (r = 0%Q /\ forall i g, 0 <= i < hi -> ~ matches_from text_words query_words i g)).
Proof.
  destruct (Z_le_gt_dec 0 hi) as [Hhi|Hhi].
  2:{ simpl. rewrite range_loop_empty by lia. split.
      - intros i g Hi. lia.
      - right. split; [reflexivity|]. intros i g Hi. lia. }
  simpl.
  apply (range_loop_inv
    (fun n r =>
       (forall i g, 0 <= i < n -> matches_from text_words query_words i g ->
                    (gap_score g <= r)%Q) /\
       ((exists i g, 0 <= i < n /\ matches_from text_words query_words i g /\ r = gap_score g) \/
        (r = 0%Q /\ forall i g, 0 <= i < n -> ~ matches_from text_words query_words i g))));
    [exact Hhi | |].
  - split; [intros i g Hi; lia|]. right. split; [reflexivity|]. intros i g Hi. lia.
  - intros j t Hj [Hub Hwit].
    destruct (matches_from_dec text_words query_words j) as [[g Hg]|Hno].
    + rewrite (sequence_step_match _ _ _ _ _ Hg).
      pose proof (gap_score_bounds g (matches_from_gaps_nonneg _ _ _ _ Hg)) as Hgb.
      destruct (fmax_cases t (gap_score g)) as [[-> Hlt]|[-> Hle]].
      * split.
        -- intros i g' Hi Hg'. destruct (Z.eq_dec i j) as [->|Hne].
           ++ rewrite (matches_from_functional _ _ _ _ _ Hg' Hg). lra.
           ++ specialize (Hub i g' ltac:(lia) Hg'). lra.
        -- left. exists j, g. split; [lia|]. split; [exact Hg|reflexivity].
      * split.
        -- intros i g' Hi Hg'. destruct (Z.eq_dec i j) as [->|Hne].
           ++ rewrite (matches_from_functional _ _ _ _ _ Hg' Hg). exact Hle.
           ++ apply (Hub i g'); [lia|exact Hg'].
        -- left. destruct Hwit as [(i & g' & Hi & Hg' & Ht)|[Ht _]].
           ++ exists i, g'. split; [lia|]. split; assumption.
           ++ exfalso. subst t. lra.
    + rewrite (sequence_step_nomatch _ _ _ _ Hno). split.
      * intros i g Hi Hg. destruct (Z.eq_dec i j) as [->|Hne].
        -- exfalso. apply (Hno g Hg).
        -- apply (Hub i g); [lia|exact Hg].
      * destruct Hwit as [(i & g' & Hi & Hg' & Ht)|[Ht Hnone]].
        -- left. exists i, g'. split; [lia|]. split; assumption.
        -- right. split; [exact Ht|]. intros i g Hi Hg.
           destruct (Z.eq_dec i j) as [->|Hne]; [apply (Hno g Hg)|].
           apply (Hnone i g); [lia|exact Hg].
Qed.

(** The value of the matcher: 0.0, or the score of a gap count. *)
Lemma sequence_similarity_values query_words text_words :
  _calculate_sequence_similarity query_words text_words = 0%Q \/
  exists g, 0 <= g /\ _calculate_sequence_similarity query_words text_words = gap_score g.
Proof.
  unfold _calculate_sequence_similarity.
  destruct (len query_words <? 2); [left; reflexivity|].
  destruct (sequence_loop_spec query_words text_words
              (len text_words - len query_words + 1)) as [_ [(i & g & _ & Hg & ->)|[-> _]]].
  - right. exists g. split; [|reflexivity]. eapply matches_from_gaps_nonneg; eauto.
  - left. reflexivity.
Qed.

Lemma sequence_similarity_bounds query_words text_words :
  (0 <= _calculate_sequence_similarity query_words text_words <= 0.9)%Q.
Proof.
  destruct (sequence_similarity_values query_words text_words) as [->|(g & Hg & ->)].
  - lra.
  - pose proof (gap_score_bounds g Hg). lra.
Qed.

(** Above 0.8 the matcher's only value is the score of a match without a
    gap. *)
Lemma sequence_similarity_above query_words text_words :
  (0.8 < _calculate_sequence_similarity query_words text_words)%Q ->
  (_calculate_sequence_similarity query_words text_words == 0.9)%Q.
Proof.
  destruct (sequence_similarity_values query_words text_words) as [->|(g & Hg & ->)].
  - lra.
  - intros H. destruct (Z.eq_dec g 0) as [->|Hne]; [apply gap_score_0|].
    pose proof (gap_score_pos g ltac:(lia)). lra.
Qed.

(** ** The scoring cascade *)

Lemma Qdiv_unit_interval m n :
  0 <= m <= n -> 0 < n -> (0 <= inject_Z m / inject_Z n <= 1)%Q.
Proof.
  intros [Hm Hmn] Hn.
  assert (HnQ : (0 < inject_Z n)%Q).
  { replace 0%Q with (inject_Z 0) by reflexivity. rewrite <- Zlt_Qlt. exact Hn. }
  assert (HmQ : (0 <= inject_Z m)%Q) by (apply inject_Z_nonneg; exact Hm).
  assert (HmnQ : (inject_Z m <= inject_Z n)%Q) by (rewrite <- Zle_Qle; exact Hmn).
  split.
  - apply Qle_shift_div_l; [exact HnQ|]. lra.
  - apply Qle_shift_div_r; [exact HnQ|]. lra.
Qed.

Lemma len_filter_le {A} (f : A -> bool) (l : list A) : 0 <= len (List.filter f l) <= len l.
Proof.
  unfold len. induction l as [|x l IH]; simpl; [lia|].
  destruct (f x); simpl length; lia.
Qed.

Lemma method2_Some query_words text score :
  method2 query_words text = Some score ->
  1 < len query_words /\
  score = _calculate_sequence_similarity query_words (split text) /\
  (score == 0.9)%Q.
Proof.
  unfold method2. destruct (1 <? len query_words) eqn:Hlen; [|discriminate].
  destruct (Qltb 0.8 _) eqn:Hgt; [|discriminate].
  intros H. inversion H; subst score. apply Z.ltb_lt in Hlen. apply Qltb_lt in Hgt.
  split; [exact Hlen|]. split; [reflexivity|].
  apply sequence_similarity_above. exact Hgt.
Qed.

Lemma method3_Some query_words text score :
  method3 query_words text = Some score ->
  1 < len query_words /\ (0.5 <= score <= 0.7)%Q.
Proof.
  unfold method3. destruct (1 <? len query_words) eqn:Hlen; [|discriminate].
  apply Z.ltb_lt in Hlen.
  pose proof (len_filter_le (fun word => str_in word text) query_words) as Hm.
  destruct (_ =? len query_words) eqn:Hall.
  - intros H. inversion H. split; [exact Hlen|]. lra.
  - destruct (Qltb _ _) eqn:Hmost; [|discriminate].
    intros H. inversion H. split; [exact Hlen|].
    pose proof (Qdiv_unit_interval _ _ Hm ltac:(lia)) as Hq. lra.
Qed.

Lemma method4_Some query_words text score :
  method4 query_words text = Some score -> len query_words = 1 /\ score = 0.6%Q.
Proof.
  unfold method4. destruct query_words as [|w [|w' rest]]; try discriminate.
  destruct (str_in w text); [|discriminate].
  intros H. inversion H. split; reflexivity.
Qed.

(** *** The sub-scores of the fallback *)

Lemma word_jaccard_bounds query_words text_words :
  (0 <= word_jaccard query_words text_words <= 1)%Q.
Proof.
  unfold word_jaccard.
  destruct (size _ =? 0)%nat eqn:Hu; [lra|].
  apply Nat.eqb_neq in Hu.
  apply Qdiv_unit_interval; [|lia].
  split; [lia|]. apply inj_le, subseteq_size.
  intros word Hword. apply elem_of_intersection in Hword.
  apply elem_of_union. left. apply Hword.
Qed.

Lemma partial_inner_cases query_word text_words partial_score :
  (partial_inner query_word text_words partial_score = fmax partial_score 0.3 /\
   exists text_word, In text_word text_words /\
     (str_in query_word text_word = true \/ str_in text_word query_word = true)) \/
  (partial_inner query_word text_words partial_score = partial_score /\
   forall text_word, In text_word text_words ->
     str_in query_word text_word = false /\ str_in text_word query_word = false).
Proof.
  induction text_words as [|tw rest IH]; simpl.
  - right. split; [reflexivity|]. intros tw [].
  - destruct (str_in query_word tw) eqn:E1; simpl.
    + left. split; [reflexivity|]. exists tw. auto.
    + destruct (str_in tw query_word) eqn:E2.
      * left. split; [reflexivity|]. exists tw. auto.
      * destruct IH as [[-> (tw' & Hin & Hhit)]|[-> Hnone]].
        -- left. split; [reflexivity|]. exists tw'. auto.
        -- right. split; [reflexivity|]. intros tw' [<-|Hin]; auto.
Qed.

Lemma partial_fold_cases text_words query_words : forall partial_score,
  partial_score = 0%Q \/ partial_score = 0.3%Q ->
  let r := fold_left (fun partial_score query_word =>
                        partial_inner query_word text_words partial_score)
                     query_words partial_score in
  (r = 0.3%Q /\
   (partial_score = 0.3%Q \/
    exists query_word text_word, In query_word query_words /\ In text_word text_words /\
      (str_in query_word text_word = true \/ str_in text_word query_word = true))) \/
  (r = 0%Q /\ partial_score = 0%Q /\
   forall query_word text_word, In query_word query_words -> In text_word text_words ->
     str_in query_word text_word = false /\ str_in text_word query_word = false).
Proof.
  induction query_words as [|qw rest IH]; intros p Hp; simpl.
  - destruct Hp as [->| ->].
    + right. split; [reflexivity|]. split; [reflexivity|]. intros ? ? [].
    + left. split; [reflexivity|]. left. reflexivity.
  - destruct (partial_inner_cases qw text_words p) as [[E (tw & Hin & Hhit)]|[E Hnone]]; rewrite E.
    + assert (Hmax : fmax p 0.3 = 0.3%Q) by (destruct Hp as [->| ->]; reflexivity).
      rewrite Hmax.
      destruct (IH 0.3%Q ltac:(right; reflexivity)) as [[Hr _]|[_ [Habs _]]]; [|discriminate].
      left. split; [exact Hr|]. right. exists qw, tw. auto.
    + destruct (IH p Hp) as [[Hr [Hp3|(qw' & tw' & Hq & Ht & Hhit)]]|[Hr [Hp0 Hnone']]].
      * left. split; [exact Hr|]. left. exact Hp3.
      * left. split; [exact Hr|]. right. exists qw', tw'. auto.
      * right. split; [exact Hr|]. split; [exact Hp0|].
        intros qw' tw' [<-|Hq] Ht; auto.
Qed.

(** [partial_substring] is 0.3 when some query word and some text word
    contain one another, and 0.0 otherwise: one hit is enough, and further
    hits add nothing. *)
Lemma partial_substring_spec query_words text_words :
  (partial_hit query_words text_words /\ partial_substring query_words text_words = 0.3%Q) \/
  (~ partial_hit query_words text_words /\ partial_substring query_words text_words = 0%Q).
Proof.
  unfold partial_substring, partial_hit.
  destruct (partial_fold_cases (elements text_words) query_words 0%Q ltac:(left; reflexivity))
    as [[Hr [Habs|(qw & tw & Hq & Ht & Hhit)]]|[Hr [_ Hnone]]].
  - discriminate.
  - left. split; [|exact Hr]. exists qw, tw. split; [exact Hq|]. split; [|exact Hhit].
    apply elem_of_elements, list_elem_of_In. exact Ht.
  - right. split; [|exact Hr]. intros (qw & tw & Hq & Ht & Hhit).
    apply elem_of_elements, list_elem_of_In in Ht.
    destruct (Hnone qw tw Hq Ht) as [H1 H2]. destruct Hhit; congruence.
Qed.

Lemma partial_substring_bounds query_words text_words :
  (0 <= partial_substring query_words text_words <= 0.3)%Q.
Proof.
  destruct (partial_substring_spec query_words text_words) as [[_ ->]|[_ ->]]; lra.
Qed.

Lemma fallback_words query query_word rest text :
  fallback query (query_word :: rest) text =
  spec_composite (difflib.ratio query text)
    (word_jaccard (query_word :: rest) (list_to_set (split text)))
    (partial_substring (query_word :: rest) (list_to_set (split text))).
Proof. reflexivity. Qed.

Lemma fallback_no_words query text :
  fallback query [] text = difflib.ratio query text.
Proof. reflexivity. Qed.

Lemma fallback_words_bounds query query_words text :
  query_words <> [] ->
  (0 <= fallback query query_words text <= 0.475)%Q.
Proof.
  intros Hne. destruct query_words as [|w rest]; [congruence|].
  rewrite fallback_words. unfold spec_composite.
  pose proof (ratio_bounds query text).
  pose proof (word_jaccard_bounds (w :: rest) (list_to_set (split text))).
  pose proof (partial_substring_bounds (w :: rest) (list_to_set (split text))).
  lra.
Qed.

Lemma fallback_bounds query query_words text :
  (0 <= fallback query query_words text <= 1)%Q.
Proof.
  destruct query_words as [|w rest].
  - rewrite fallback_no_words. apply ratio_bounds.
  - pose proof (fallback_words_bounds query (w :: rest) text ltac:(discriminate)). lra.
Qed.

(** The cascade, branch by branch. *)
Lemma calculate_similarity_cases query text :
  (str_in query text = true /\ _calculate_similarity query text = 1%Q) \/
  (str_in query text = false /\
   exists score, method2 (split query) text = Some score /\
                 _calculate_similarity query text = score) \/
  (str_in query text = false /\ method2 (split query) text = None /\
   exists score, method3 (split query) text = Some score /\
                 _calculate_similarity query text = score) \/
  (str_in query text = false /\ method2 (split query) text = None /\
   method3 (split query) text = None /\
   exists score, method4 (split query) text = Some score /\
                 _calculate_similarity query text = score) \/
  (reaches_fallback query text /\
   _calculate_similarity query text = fallback query (split query) text).
Proof.
  unfold _calculate_similarity, reaches_fallback.
  destruct (str_in query text); [left; auto|]. right.
  destruct (method2 (split query) text) as [s2|]; [left; eauto|]. right.
  destruct (method3 (split query) text) as [s3|]; [left; eauto|]. right.
  destruct (method4 (split query) text) as [s4|]; [left; eauto 6|]. right.
  auto.
Qed.

Lemma calculate_similarity_bounds query text :
  (0 <= _calculate_similarity query text <= 1)%Q.
Proof.
  destruct (calculate_similarity_cases query text)
    as [[_ ->]|[(_ & s & Hm & ->)|[(_ & _ & s & Hm & ->)|[(_ & _ & _ & s & Hm & ->)|[_ ->]]]]].
  - lra.
  - apply method2_Some in Hm. destruct Hm as (_ & _ & Hs). lra.
  - apply method3_Some in Hm. destruct Hm as (_ & Hs). lra.
  - apply method4_Some in Hm. destruct Hm as (_ & ->). lra.
  - apply fallback_bounds.
Qed.

(** ** Two-word queries: one word in between, and far apart *)

Lemma item_Some_range {A} (l : list A) k x : item l k = Some x -> 0 <= k < len l.
Proof.
  unfold item, len. destruct (k <? 0) eqn:E; [discriminate|].
  intros H. apply lookup_lt_Some in H. lia.
Qed.

Lemma item_app_shift {A} (pre l : list A) k :
  0 <= k -> item (pre ++ l) (len pre + k) = item l k.
Proof.
  intros Hk. unfold item, len.
  assert (E1 : (Z.of_nat (length pre) + k <? 0) = false) by (apply Z.ltb_ge; lia).
  assert (E2 : (k <? 0) = false) by (apply Z.ltb_ge; lia).
  rewrite E1, E2.
  rewrite lookup_app_r by lia. f_equal. lia.
Qed.

Lemma len_app {A} (l1 l2 : list A) : len (l1 ++ l2) = len l1 + len l2.
Proof. unfold len. rewrite length_app. lia. Qed.

Lemma matches_from_two text_words w1 w2 i k1 k2 :
  window_find text_words w1 i = Some k1 ->
  window_find text_words w2 (k1 + 1) = Some k2 ->
  matches_from text_words [w1; w2] i
    (Z.max 0 (k1 - i - 1) + (Z.max 0 (k2 - (k1 + 1) - 1) + 0)).
Proof.
  intros H1 H2.
  apply window_find_Some in H1. destruct H1 as (Hk1 & Hit1 & Hb1).
  apply window_find_Some in H2. destruct H2 as (Hk2 & Hit2 & Hb2).
  constructor; try assumption. constructor; try assumption. constructor.
Qed.

Lemma sequence_two_lower w1 w2 text_words i g :
  0 <= i < len text_words - 1 ->
  matches_from text_words [w1; w2] i g ->
  (gap_score g <= _calculate_sequence_similarity [w1; w2] text_words)%Q.
Proof.
  intros Hi Hm. unfold _calculate_sequence_similarity.
  change (len [w1; w2]) with 2. change (2 <? 2) with false. cbv iota.
  destruct (sequence_loop_spec [w1; w2] text_words (len text_words - 2 + 1)) as [Hub _].
  apply (Hub i g); [lia|exact Hm].
Qed.

Section OneWordBetween.
Variables (w1 x w2 : str) (pre post : list str).

Let text_words : list str := pre ++ [w1; x; w2] ++ post.
Let p : Z := len pre.

Lemma between_first : item text_words p = Some w1.
Proof.
  unfold text_words, p. replace (len pre) with (len pre + 0) by lia.
  rewrite item_app_shift by lia. reflexivity.
Qed.

Lemma between_second : item text_words (p + 2) = Some w2.
Proof. unfold text_words, p. rewrite item_app_shift by lia. reflexivity. Qed.

Lemma between_len : len text_words = p + 3 + len post.
Proof. unfold text_words, p. rewrite !len_app. unfold len at 2. simpl. lia. Qed.

(** The start position just after the first word always matches, with at
    most one gap. *)
Lemma one_between_lower :
  (0.8 <= _calculate_sequence_similarity [w1; w2] text_words)%Q.
Proof.
  pose proof between_first as Hw1. pose proof between_second as Hw2.
  pose proof between_len as Hlen.
  assert (Hp : 0 <= p) by (unfold p, len; lia).
  assert (Hpost : 0 <= len post) by (unfold len; lia).
  destruct (window_find_hit text_words w1 (p + 1) p ltac:(lia) Hw1) as (k1 & Hf1 & Hk1).
  destruct (window_find_hit text_words w2 (k1 + 1) (p + 2) ltac:(lia) Hw2) as (k2 & Hf2 & Hk2).
  pose proof (matches_from_two _ _ _ _ _ _ Hf1 Hf2) as Hm.
  pose proof (sequence_two_lower w1 w2 text_words (p + 1) _ ltac:(lia) Hm) as Hlow.
  pose proof (gap_score_mono
                (Z.max 0 (k1 - (p + 1) - 1) + (Z.max 0 (k2 - (k1 + 1) - 1) + 0)) 1
                ltac:(lia)) as Hmono.
  pose proof gap_score_1. lra.
Qed.

(** When the word before the first query word is another word, or when
    the text goes on after the second query word, some start position
    matches without a gap. *)
Lemma one_between_exact :
  item text_words (p - 1) <> Some w1 \/ post <> [] ->
  (_calculate_sequence_similarity [w1; w2] text_words == 0.9)%Q.
Proof.
  intros Hcond.
  pose proof between_first as Hw1. pose proof between_second as Hw2.
  pose proof between_len as Hlen.
  assert (Hp : 0 <= p) by (unfold p, len; lia).
  assert (Hpost : 0 <= len post) by (unfold len; lia).
  pose proof (sequence_similarity_bounds [w1; w2] text_words) as Hb.
  enough (Hlow : (gap_score 0 <= _calculate_sequence_similarity [w1; w2] text_words)%Q)
    by (pose proof gap_score_0; lra).
  destruct Hcond as [Hbefore|Hafter].
  - destruct (window_find_hit text_words w1 (p + 1) p ltac:(lia) Hw1) as (k1 & Hf1 & Hk1).
    assert (k1 = p).
    { destruct (Z.eq_dec k1 p) as [E|NE]; [exact E|].
      apply window_find_Some in Hf1. destruct Hf1 as (_ & Hit & _).
      replace k1 with (p - 1) in Hit by lia. contradiction. }
    subst k1.
    destruct (window_find_hit text_words w2 (p + 1) (p + 2) ltac:(lia) Hw2)
      as (k2 & Hf2 & Hk2).
    pose proof (matches_from_two _ _ _ _ _ _ Hf1 Hf2) as Hm.
    replace (Z.max 0 (p - (p + 1) - 1) + (Z.max 0 (k2 - (p + 1) - 1) + 0)) with 0 in Hm by lia.
    apply (sequence_two_lower _ _ _ (p + 1)); [lia|exact Hm].
  - assert (1 <= len post) by (destruct post; [congruence|unfold len; simpl; lia]).
    destruct (window_find_hit text_words w1 (p + 2) p ltac:(lia) Hw1) as (k1 & Hf1 & Hk1).
    assert (k1 = p) by lia. subst k1.
    destruct (window_find_hit text_words w2 (p + 1) (p + 2) ltac:(lia) Hw2)
      as (k2 & Hf2 & Hk2).
    pose proof (matches_from_two _ _ _ _ _ _ Hf1 Hf2) as Hm.
    replace (Z.max 0 (p - (p + 2) - 1) + (Z.max 0 (k2 - (p + 1) - 1) + 0)) with 0 in Hm by lia.
    apply (sequence_two_lower _ _ _ (p + 2)); [lia|exact Hm].
Qed.
End OneWordBetween.

(** Words that stand far apart are matched from no start position. *)
Lemma scattered_zero w1 w2 text_words :
  scattered w1 w2 text_words ->
  _calculate_sequence_similarity [w1; w2] text_words = 0%Q.
Proof.
  intros Hsc. unfold _calculate_sequence_similarity.
  change (len [w1; w2]) with 2. change (2 <? 2) with false. cbv iota.
  destruct (sequence_loop_spec [w1; w2] text_words (len text_words - 2 + 1))
    as [_ [(i & g & _ & Hm & _)|[Hr _]]]; [|exact Hr].
  exfalso. inversion Hm as [|? ? ? k1 g1 Hk1 Hit1 _ Hrest]; subst.
  inversion Hrest as [|? ? ? k2 g2 Hk2 Hit2 _ _]; subst.
  destruct (Hsc k1 k2 Hit1 Hit2); lia.
Qed.

(** The cascade on a multi-word query that is not a substring of the
    text: the Sequence-Order branch returns exactly when the matcher says
    0.9; otherwise the later branches give at most 0.7. *)
Lemma cascade_sequence_hit query text :
  str_in query text = false ->
  1 < len (split query) ->
  (_calculate_sequence_similarity (split query) (split text) == 0.9)%Q ->
  method2 (split query) text = Some (_calculate_sequence_similarity (split query) (split text)) /\
  (_calculate_similarity query text == 0.9)%Q.
Proof.
  intros Hin Hlen Hseq.
  assert (Hm : method2 (split query) text =
               Some (_calculate_sequence_similarity (split query) (split text))).
  { unfold method2. replace (1 <? len (split query)) with true by lia.
    assert (Hgt : Qltb 0.8 (_calculate_sequence_similarity (split query) (split text)) = true)
      by (apply Qltb_lt; lra).
    rewrite Hgt. reflexivity. }
  split; [exact Hm|].
  unfold _calculate_similarity. rewrite Hin, Hm. exact Hseq.
Qed.

Lemma cascade_sequence_miss query text :
  str_in query text = false ->
  1 < len (split query) ->
  (_calculate_sequence_similarity (split query) (split text) <= 0.8)%Q ->
  method2 (split query) text = None /\
  (_calculate_similarity query text <= 0.7)%Q.
Proof.
  intros Hin Hlen Hseq.
  assert (Hm : method2 (split query) text = None).
  { unfold method2. replace (1 <? len (split query)) with true by lia.
    assert (Hgt : Qltb 0.8 (_calculate_sequence_similarity (split query) (split text)) = false)
      by (apply Qltb_ge; exact Hseq).
    rewrite Hgt. reflexivity. }
  split; [exact Hm|].
  destruct (calculate_similarity_cases query text)
    as [[E _]|[(_ & s & E & _)|[(_ & _ & s & E & ->)|[(_ & _ & _ & s & E & ->)|[_ ->]]]]].
  - congruence.
  - congruence.
  - apply method3_Some in E. destruct E as (_ & Hs). lra.
  - apply method4_Some in E. destruct E as (E & _). lia.
  - assert (Hne : split query <> []) by (intros E; rewrite E in Hlen; unfold len in Hlen; simpl in Hlen; lia).
    pose proof (fallback_words_bounds query (split query) text Hne). lra.
Qed.

(** ** Sorting by score, highest first *)

Lemma insert_result_perm x l : Permutation (insert_result x l) (x :: l).
Proof.
  induction l as [|y l IH]; simpl; [reflexivity|].
  destruct (Qle_bool (similarity_score y) (similarity_score x)); [reflexivity|].
  rewrite IH. apply perm_swap.
Qed.

Lemma sort_reverse_perm l : Permutation (sort_reverse l) l.
Proof.
  unfold sort_reverse. induction l as [|x l IH]; simpl; [reflexivity|].
  rewrite insert_result_perm. apply perm_skip. exact IH.
Qed.

Lemma insert_result_sorted x l : sorted_desc l -> sorted_desc (insert_result x l).
Proof.
  unfold sorted_desc. induction 1 as [|y l Hl IH Hy]; simpl.
  - repeat constructor.
  - destruct (Qle_bool (similarity_score y) (similarity_score x)) eqn:E.
    + apply Qle_bool_iff in E. constructor; [constructor; assumption|].
      constructor; [exact E|].
      rewrite Forall_forall in Hy |- *. intros z Hz. specialize (Hy z Hz). lra.
    + constructor; [exact IH|].
      assert (Hlt : (similarity_score x < similarity_score y)%Q).
      { apply Qnot_le_lt. intros Hle. apply Qle_bool_iff in Hle. congruence. }
      rewrite Forall_forall in Hy |- *. intros z Hz.
      apply list_elem_of_In in Hz.
      apply (Permutation_in _ (insert_result_perm x l)) in Hz.
      destruct Hz as [<-|Hz]; [lra|]. apply Hy, list_elem_of_In. exact Hz.
Qed.

Lemma sort_reverse_sorted l : sorted_desc (sort_reverse l).
Proof.
  unfold sort_reverse. induction l as [|x l IH]; simpl.
  - constructor.
  - apply insert_result_sorted. exact IH.
Qed.

Lemma insert_result_stable s x l :
  with_score s (insert_result x l) = with_score s (x :: l).
Proof.
  unfold with_score. induction l as [|y l IH]; simpl; [reflexivity|].
  destruct (Qle_bool (similarity_score y) (similarity_score x)) eqn:E; [reflexivity|].
  simpl. rewrite IH. simpl.
  destruct (Qeq_bool (similarity_score y) s) eqn:Ey;
    destruct (Qeq_bool (similarity_score x) s) eqn:Ex; try reflexivity.
  exfalso. apply Qeq_bool_iff in Ey, Ex.
  assert (Hle : (similarity_score y <= similarity_score x)%Q) by lra.
  apply Qle_bool_iff in Hle. congruence.
Qed.

Lemma sort_reverse_stable l : stable_order l (sort_reverse l).
Proof.
  unfold stable_order, sort_reverse. intros s.
  induction l as [|x l IH]; simpl; [reflexivity|].
  rewrite insert_result_stable. unfold with_score in *. simpl. rewrite IH. reflexivity.
Qed.







(** *** Slices *)

Lemma slice_to_prefix {A} (l : list A) n : exists rest, l = slice_to l n ++ rest.
Proof.
  unfold slice_to. destruct (0 <=? n).
  - exists (skipn (Z.to_nat n) l). symmetry. apply firstn_skipn.
  - exists (skipn (Z.to_nat (len l + n)) l). symmetry. apply firstn_skipn.
Qed.

Lemma slice_to_nonneg {A} (l : list A) n :
  0 <= n -> slice_to l n = firstn (Z.to_nat n) l /\ len (slice_to l n) <= n.
Proof.
  intros H. unfold slice_to. replace (0 <=? n) with true by lia.
  split; [reflexivity|]. unfold len. rewrite length_firstn. lia.
Qed.

Lemma slice_to_negative {A} (l : list A) n :
  n < 0 -> len (slice_to l n) = Z.max 0 (len l + n).
Proof.
  intros H. unfold slice_to. replace (0 <=? n) with false by lia.
  unfold len. rewrite length_firstn. lia.
Qed.

Lemma sorted_desc_app_l l1 l2 : sorted_desc (l1 ++ l2) -> sorted_desc l1.
Proof.
  unfold sorted_desc. induction l1 as [|x l1 IH]; simpl; intros H; [constructor|].
  inversion H as [|? ? Hs Hall]; subst. constructor; [apply IH; exact Hs|].
  apply Forall_app in Hall. apply Hall.
Qed.


(** ** The two entry points *)

Lemma fmax_Qmax x y : fmax x y = Qmax x y.
Proof.
  unfold Qmax, GenericMinMax.gmax.
  destruct (fmax_cases x y) as [[-> H]|[-> H]].
  - rewrite (proj1 (Qlt_alt x y) H). reflexivity.
  - destruct (x ?= y)%Q eqn:E; try reflexivity.
    apply (proj2 (Qlt_alt x y)) in E. lra.
Qed.

Lemma lstrip_spaces s : forallb isspace s = true -> lstrip s = [].
Proof.
  induction s as [|c s IH]; simpl; [reflexivity|].
  intros H. apply andb_true_iff in H. destruct H as [Hc Hs].
  rewrite Hc. apply IH. exact Hs.
Qed.

Lemma strip_spaces s : forallb isspace s = true -> strip s = [].
Proof.
  intros H. unfold strip, rstrip.
  assert (Hrev : forallb isspace (rev s) = true).
  { rewrite forallb_forall in H |- *. intros c Hc. apply H. apply in_rev. exact Hc. }
  rewrite (lstrip_spaces _ Hrev). reflexivity.
Qed.


Lemma search_by_rule_number_Some self n rule :
  search_by_rule_number self n = Some rule -> In rule (rules self) /\ rule_number rule = n.
Proof.
  unfold search_by_rule_number. intros H. apply find_some in H.
  destruct H as [Hin Heq]. split; [exact Hin|]. apply Z.eqb_eq. exact Heq.
Qed.

Lemma search_by_rule_number_None self n :
  search_by_rule_number self n = None <->
  (forall rule, In rule (rules self) -> rule_number rule <> n).
Proof.
  unfold search_by_rule_number. split.
  - intros H rule Hin Heq.
    pose proof (find_none _ _ H rule Hin) as Hf. simpl in Hf.
    apply Z.eqb_neq in Hf. contradiction.
  - intros H. destruct (List.find _ _) as [rule|] eqn:E; [|reflexivity].
    apply find_some in E. destruct E as [Hin Heq]. apply Z.eqb_eq in Heq.
    exfalso. apply (H rule Hin Heq).
Qed.

Section SearchFacts.
Variable lower : str -> str.
Variable isdigit_char : char -> bool.
Variable py_int : str -> option Z.

Lemma fuzzy_step_app query_lower threshold results rule :
  fuzzy_step lower query_lower threshold results rule =
  results ++ fuzzy_step lower query_lower threshold [] rule.
Proof.
  unfold fuzzy_step. destruct (Qle_bool threshold _); [reflexivity|].
  rewrite app_nil_r. reflexivity.
Qed.

Lemma fuzzy_loop query_lower threshold corpus : forall results,
  fold_left (fuzzy_step lower query_lower threshold) corpus results =
  results ++ fuzzy_candidates lower query_lower threshold corpus.
Proof.
  unfold fuzzy_candidates.
  induction corpus as [|rule corpus IH]; intros results; simpl.
  - rewrite app_nil_r. reflexivity.
  - rewrite IH, fuzzy_step_app, <- app_assoc. reflexivity.
Qed.

Lemma fuzzy_candidates_In query_lower threshold corpus r :
  In r (fuzzy_candidates lower query_lower threshold corpus) ->
  exists rule, In rule corpus /\
    let eng_score := _calculate_similarity query_lower (lower (text_eng rule)) in
    let rus_score := _calculate_similarity query_lower (lower (text_rus rule)) in
    result_rule_number r = rule_number rule /\
    result_text_eng r = text_eng rule /\
    result_text_rus r = text_rus rule /\
    similarity_score r = fmax eng_score rus_score /\
    (threshold <= similarity_score r)%Q /\
    is_direct_rule r = Some false.
Proof.
  unfold fuzzy_candidates. intros H. apply in_flat_map in H.
  destruct H as (rule & Hin & Hr). exists rule. split; [exact Hin|].
  unfold fuzzy_step in Hr. destruct (Qle_bool threshold _) eqn:E; [|destruct Hr].
  destruct Hr as [<-|[]]. simpl. apply Qle_bool_iff in E. auto 8.
Qed.

(** The candidates follow the corpus: their rule numbers are a
    subsequence of the rule numbers of the corpus. *)
Lemma fuzzy_candidates_corpus_order query_lower threshold corpus :
  sublist (List.map result_rule_number (fuzzy_candidates lower query_lower threshold corpus))
          (List.map rule_number corpus).
Proof.
  unfold fuzzy_candidates. induction corpus as [|rule corpus IH]; simpl; [constructor|].
  rewrite List.map_app. unfold fuzzy_step at 1.
  destruct (Qle_bool threshold _); simpl.
  - apply sublist_skip. exact IH.
  - apply sublist_cons. exact IH.
Qed.

(** What [fuzzy_search] does on a query that has a character other than
    whitespace and is not a digit string. *)
Lemma fuzzy_search_text self query threshold max_results :
  strip query <> [] -> isdigit isdigit_char (strip query) = false ->
  fuzzy_search lower isdigit_char py_int self query threshold max_results =
  Returns (slice_to (sort_reverse
                       (fuzzy_candidates lower (strip (lower query)) threshold (rules self)))
                    max_results).
Proof.
  intros Hne Hnd. unfold fuzzy_search. rewrite Hnd.
  destruct (strip query) as [|c s]; [congruence|].
  rewrite fuzzy_loop. reflexivity.
Qed.

Lemma keywords_step_app keywords threshold results rule :
  keywords_step lower keywords threshold results rule =
  results ++ keywords_step lower keywords threshold [] rule.
Proof.
  unfold keywords_step.
  destruct (all_present lower keywords _ _); [|rewrite app_nil_r; reflexivity].
  destruct (Qle_bool threshold _); [reflexivity|].
  rewrite app_nil_r. reflexivity.
Qed.

Lemma keywords_loop keywords threshold corpus : forall results,
  fold_left (keywords_step lower keywords threshold) corpus results =
  results ++ keyword_candidates lower keywords threshold corpus.
Proof.
  unfold keyword_candidates.
  induction corpus as [|rule corpus IH]; intros results; simpl.
  - rewrite app_nil_r. reflexivity.
  - rewrite IH, keywords_step_app, <- app_assoc. reflexivity.
Qed.

Lemma search_by_keywords_candidates self keywords threshold :
  keywords <> [] ->
  search_by_keywords lower self keywords threshold =
  sort_reverse (keyword_candidates lower keywords threshold (rules self)).
Proof.
  intros Hne. unfold search_by_keywords.
  destruct keywords as [|k ks]; [congruence|].
  rewrite keywords_loop. reflexivity.
Qed.

Lemma all_present_qualifies keywords rule :
  all_present lower keywords (lower (text_eng rule)) (lower (text_rus rule)) = true <->
  qualifies lower keywords rule.
Proof.
  unfold qualifies. induction keywords as [|k ks IH]; simpl.
  - split; [intros _ k []|reflexivity].
  - destruct (str_in (lower k) (lower (text_eng rule))) eqn:E1; simpl.
    + rewrite IH. split.
      * intros H k' [<-|Hin]; [left; exact E1|apply H; exact Hin].
      * intros H k' Hin. apply H. right. exact Hin.
    + destruct (str_in (lower k) (lower (text_rus rule))) eqn:E2; simpl.
      * rewrite IH. split.
        -- intros H k' [<-|Hin]; [right; exact E2|apply H; exact Hin].
        -- intros H k' Hin. apply H. right. exact Hin.
      * split; [discriminate|]. intros H.
        destruct (H k (or_introl eq_refl)); congruence.
Qed.

Lemma total_score_fold keywords eng_text rus_text : forall total,
  (fold_left (fun total keyword =>
                let keyword_lower := lower keyword in
                let eng_score := _calculate_similarity keyword_lower eng_text in
                let rus_score := _calculate_similarity keyword_lower rus_text in
                total + fmax eng_score rus_score)
             keywords total
   == total +
      fold_right Qplus 0
        (List.map (fun keyword =>
                     Qmax (_calculate_similarity (lower keyword) eng_text)
                          (_calculate_similarity (lower keyword) rus_text))
                  keywords))%Q.
Proof.
  induction keywords as [|k ks IH]; intros total; simpl.
  - lra.
  - rewrite IH, fmax_Qmax. lra.
Qed.

Lemma avg_score_mean keywords rule :
  (avg_score lower keywords (lower (text_eng rule)) (lower (text_rus rule))
   == spec_mean_score lower keywords rule)%Q.
Proof.
  unfold avg_score, spec_mean_score, total_score.
  rewrite total_score_fold. rewrite Qplus_0_l. reflexivity.
Qed.

Lemma keyword_candidates_In keywords threshold corpus r :
  In r (keyword_candidates lower keywords threshold corpus) <->
  exists rule, In rule corpus /\
    qualifies lower keywords rule /\
    (threshold <= avg_score lower keywords (lower (text_eng rule)) (lower (text_rus rule)))%Q /\
    r = {| result_rule_number := rule_number rule;
           result_text_eng := text_eng rule;
           result_text_rus := text_rus rule;
           similarity_score :=
             avg_score lower keywords (lower (text_eng rule)) (lower (text_rus rule));
           matched_language := Both;
           is_direct_rule := None |}.
Proof.
  unfold keyword_candidates. rewrite in_flat_map. split.
  - intros (rule & Hin & Hr). exists rule. split; [exact Hin|].
    unfold keywords_step in Hr.
    destruct (all_present lower keywords _ _) eqn:Hall; [|destruct Hr].
    destruct (Qle_bool threshold _) eqn:Hthr; [|destruct Hr].
    destruct Hr as [<-|[]].
    apply all_present_qualifies in Hall. apply Qle_bool_iff in Hthr. auto.
  - intros (rule & Hin & Hq & Hthr & ->). exists rule. split; [exact Hin|].
    unfold keywords_step.
    apply all_present_qualifies in Hq. rewrite Hq.
    apply Qle_bool_iff in Hthr. rewrite Hthr. left. reflexivity.
Qed.

End SearchFacts.

(** * The claims of the specification *)

Lemma slice_to_In {A} (l : list A) n x : In x (slice_to l n) -> In x l.
Proof.
  intros H. destruct (slice_to_prefix l n) as [rest E]. rewrite E.
  apply in_or_app. left. exact H.
Qed.

Section EntryPoints.
Variable lower : str -> str.
Variable isdigit_char : char -> bool.
Variable py_int : str -> option Z.

(** C1: for every query string and every text the score computed by the
    scoring cascade lies in the closed interval [0,1]; consequently every
    result that [fuzzy_search] returns carries a [similarity_score] in
    [0,1]. *)
Theorem similarity_score_unit_interval :
  (forall query text, (0 <= _calculate_similarity query text <= 1)%Q) /\
  (forall self query threshold max_results results,
     fuzzy_search lower isdigit_char py_int self query threshold max_results
       = Returns results ->
     Forall (fun r => (0 <= similarity_score r <= 1)%Q) results).
Proof.
  split; [exact calculate_similarity_bounds|].
  intros self query threshold max_results results.
  destruct (strip query) as [|c s] eqn:Hstrip.
  - unfold fuzzy_search. rewrite Hstrip. intros H. inversion H. constructor.
  - destruct (isdigit isdigit_char (strip query)) eqn:Hd.
    + unfold fuzzy_search. rewrite Hstrip. rewrite Hstrip in Hd. rewrite Hd.
      destruct (py_int (c :: s)) as [n|]; [|discriminate].
      destruct (search_by_rule_number self n) as [rule|]; intros H; inversion H.
      * constructor; [simpl; lra|constructor].
      * constructor.
    + rewrite fuzzy_search_text by (rewrite ?Hstrip; congruence || exact Hd).
      intros H. inversion H; subst results. clear H.
      apply Forall_forall. intros r Hr. apply list_elem_of_In in Hr.
      apply slice_to_In in Hr.
      apply (Permutation_in _ (sort_reverse_perm _)) in Hr.
      apply fuzzy_candidates_In in Hr.
      destruct Hr as (rule & _ & _ & _ & _ & Hscore & _).
      rewrite Hscore.
      pose proof (calculate_similarity_bounds (strip (lower query)) (lower (text_eng rule))).
      pose proof (calculate_similarity_bounds (strip (lower query)) (lower (text_rus rule))).
      destruct (fmax_cases
                  (_calculate_similarity (strip (lower query)) (lower (text_eng rule)))
                  (_calculate_similarity (strip (lower query)) (lower (text_rus rule))))
        as [[-> _]|[-> _]]; assumption.
Qed.

(** The numeric lookup on the digit strings that [int] reads: for a
    query that passes [str.isdigit] after trimming and that [int] reads
    as [n], whatever the threshold and [max_results], [fuzzy_search]
    returns exactly one result when a rule has the number [n], with
    [similarity_score = 1.0], [is_direct = true] and
    [matched_language = DirectNumber], and the empty list when no rule
    has it. *)
Lemma direct_number_lookup self query threshold max_results n :
  isdigit isdigit_char (strip query) = true ->
  py_int (strip query) = Some n ->
  ((exists rule, In rule (rules self) /\ rule_number rule = n) ->
   exists result rule,
     fuzzy_search lower isdigit_char py_int self query threshold max_results
       = Returns [result] /\
     In rule (rules self) /\ rule_number rule = n /\
     result_rule_number result = n /\
     result_text_eng result = text_eng rule /\
     result_text_rus result = text_rus rule /\
     similarity_score result = 1%Q /\
     is_direct_rule result = Some true /\
     matched_language result = DirectRuleNumber) /\
  ((forall rule, In rule (rules self) -> rule_number rule <> n) ->
   fuzzy_search lower isdigit_char py_int self query threshold max_results = Returns []).
Proof.
  intros Hd Hn. unfold fuzzy_search. rewrite Hd, Hn.
  destruct (strip query) as [|c s] eqn:Hstrip; [discriminate|].
  split.
  - intros (rule0 & Hin0 & Hnum0).
    destruct (search_by_rule_number self n) as [rule|] eqn:Hfind.
    + apply search_by_rule_number_Some in Hfind. destruct Hfind as [Hin Hnum].
      eexists. exists rule. split; [reflexivity|]. simpl. auto 10.
    + exfalso. rewrite search_by_rule_number_None in Hfind. apply (Hfind rule0 Hin0 Hnum0).
  - intros Hnone. apply search_by_rule_number_None in Hnone. rewrite Hnone. reflexivity.
Qed.

(** C5, amended: for every query that is neither blank nor numeric, every
    corpus, threshold and [max_results], the list [fuzzy_search] returns
    is a prefix of the passing rules' results sorted by non-increasing
    score with equal scores in corpus order (a stable sort), so it is
    itself sorted that way; when [max_results = k] is not negative it is
    the first [k] entries of that ranking, hence at most [k] entries, and
    when [k] is negative the slice leaves out the last [-k] entries. *)
Theorem fuzzy_search_ranking self query threshold max_results :
  strip query <> [] ->
  isdigit isdigit_char (strip query) = false ->
  exists results ranking,
    fuzzy_search lower isdigit_char py_int self query threshold max_results
      = Returns results /\
    ranking = sort_reverse
                (fuzzy_candidates lower (strip (lower query)) threshold (rules self)) /\
    Permutation ranking
      (fuzzy_candidates lower (strip (lower query)) threshold (rules self)) /\
    sorted_desc ranking /\
    stable_order
      (fuzzy_candidates lower (strip (lower query)) threshold (rules self)) ranking /\
    (exists rest, ranking = results ++ rest) /\
    sorted_desc results /\
    sublist (List.map result_rule_number
               (fuzzy_candidates lower (strip (lower query)) threshold (rules self)))
            (List.map rule_number (rules self)) /\
    (0 <= max_results ->
     results = firstn (Z.to_nat max_results) ranking /\ len results <= max_results) /\
    (max_results < 0 -> len results = Z.max 0 (len ranking + max_results)).
Proof.
  intros Hne Hnd.
  exists (slice_to (sort_reverse
                      (fuzzy_candidates lower (strip (lower query)) threshold (rules self)))
                   max_results).
  eexists. split; [apply fuzzy_search_text; assumption|].
  split; [reflexivity|].
  split; [apply sort_reverse_perm|].
  split; [apply sort_reverse_sorted|].
  split; [apply sort_reverse_stable|].
  split; [apply slice_to_prefix|].
  split.
  - destruct (slice_to_prefix
                (sort_reverse
                   (fuzzy_candidates lower (strip (lower query)) threshold (rules self)))
                max_results) as [rest E].
    apply (sorted_desc_app_l _ rest). rewrite <- E. apply sort_reverse_sorted.
  - split; [apply fuzzy_candidates_corpus_order|]. split.
    + intros Hk. apply slice_to_nonneg. exact Hk.
    + intros Hk. apply slice_to_negative. exact Hk.
Qed.

(** C6: a rule appears in the output of [search_by_keywords] only if
    every keyword, case-insensitively, occurs as a substring of the
    rule's primary text or of its secondary text, keyword by keyword;
    the score of a rule that qualifies is the mean over the keywords of
    [max(score(keyword, primary), score(keyword, secondary))]; the rules
    whose mean is below the threshold are dropped, and every other
    qualifying rule is returned: there is no cap on the number of
    results. *)
Theorem keyword_search_results self keywords threshold :
  (forall r, In r (search_by_keywords lower self keywords threshold) ->
     exists rule, In rule (rules self) /\
       result_rule_number r = rule_number rule /\
       result_text_eng r = text_eng rule /\
       result_text_rus r = text_rus rule /\
       qualifies lower keywords rule /\
       (similarity_score r == spec_mean_score lower keywords rule)%Q /\
       (threshold <= similarity_score r)%Q) /\
  (keywords <> [] ->
   forall rule, In rule (rules self) ->
     qualifies lower keywords rule ->
     (threshold <= spec_mean_score lower keywords rule)%Q ->
     exists r, In r (search_by_keywords lower self keywords threshold) /\
       result_rule_number r = rule_number rule /\
       result_text_eng r = text_eng rule /\
       result_text_rus r = text_rus rule /\
       (similarity_score r == spec_mean_score lower keywords rule)%Q) /\
  Permutation (search_by_keywords lower self keywords threshold)
              (match keywords with
               | [] => []
               | _ => keyword_candidates lower keywords threshold (rules self)
               end) /\
  sorted_desc (search_by_keywords lower self keywords threshold).
Proof.
  destruct keywords as [|k ks] eqn:Hk.
  { simpl. split; [intros r []|]. split; [congruence|]. split; [reflexivity|constructor]. }
  rewrite <- Hk. assert (Hne : keywords <> []) by (rewrite Hk; discriminate).
  rewrite (search_by_keywords_candidates lower self keywords threshold Hne).
  split; [|split; [|split]].
  - intros r Hr. apply (Permutation_in _ (sort_reverse_perm _)) in Hr.
    apply keyword_candidates_In in Hr.
    destruct Hr as (rule & Hin & Hq & Hthr & ->). exists rule. simpl.
    split; [exact Hin|]. repeat (split; [reflexivity|]).
    split; [exact Hq|]. split; [apply avg_score_mean|exact Hthr].
  - intros _ rule Hin Hq Hthr.
    eexists. split.
    + apply (Permutation_in _ (Permutation_sym (sort_reverse_perm _))).
      apply keyword_candidates_In. exists rule.
      split; [exact Hin|]. split; [exact Hq|]. split; [|reflexivity].
      rewrite avg_score_mean. exact Hthr.
    + simpl. repeat (split; [reflexivity|]). apply avg_score_mean.
  - subst keywords. apply sort_reverse_perm.
  - apply sort_reverse_sorted.
Qed.

(** C8, amended: every result of [fuzzy_search] carries all the fields
    [rule_number], [text_primary], [text_secondary], [similarity_score],
    [matched_language] and [is_direct]; a result of [search_by_keywords]
    carries the first five, with [matched_language = Both], and has no
    [is_direct] field. *)
Theorem result_fields :
  (forall self query threshold max_results results,
     fuzzy_search lower isdigit_char py_int self query threshold max_results
       = Returns results ->
     Forall (fun r => keys r = all_fields /\ exists flag, is_direct_rule r = Some flag)
            results) /\
  (forall self keywords threshold,
     Forall (fun r => is_direct_rule r = None /\
                      ~ In "is_direct_rule"%string (keys r) /\
                      (forall field, In field all_fields -> field <> "is_direct_rule"%string ->
                                     In field (keys r)) /\
                      matched_language r = Both)
            (search_by_keywords lower self keywords threshold)).
Proof.
  split.
  - intros self query threshold max_results results.
    destruct (strip query) as [|c s] eqn:Hstrip.
    + unfold fuzzy_search. rewrite Hstrip. intros H. inversion H. constructor.
    + destruct (isdigit isdigit_char (strip query)) eqn:Hd.
      * unfold fuzzy_search. rewrite Hstrip. rewrite Hstrip in Hd. rewrite Hd.
        destruct (py_int (c :: s)) as [n|]; [|discriminate].
        destruct (search_by_rule_number self n) as [rule|]; intros H; inversion H.
        -- constructor; [|constructor]. split; [reflexivity|]. exists true. reflexivity.
        -- constructor.
      * rewrite fuzzy_search_text by (rewrite ?Hstrip; congruence || exact Hd).
        intros H. inversion H; subst results. clear H.
        apply Forall_forall. intros r Hr. apply list_elem_of_In in Hr.
        apply slice_to_In in Hr.
        apply (Permutation_in _ (sort_reverse_perm _)) in Hr.
        apply fuzzy_candidates_In in Hr.
        destruct Hr as (rule & _ & _ & _ & _ & _ & _ & Hflag).
        split; [|exists false; exact Hflag].
        unfold keys. rewrite Hflag. reflexivity.
  - intros self keywords threshold.
    destruct keywords as [|k ks] eqn:Hk; [constructor|].
    rewrite <- Hk. assert (Hne : keywords <> []) by (rewrite Hk; discriminate).
    rewrite (search_by_keywords_candidates lower self keywords threshold Hne).
    apply Forall_forall. intros r Hr. apply list_elem_of_In in Hr.
    apply (Permutation_in _ (sort_reverse_perm _)) in Hr.
    apply keyword_candidates_In in Hr.
    destruct Hr as (rule & _ & _ & _ & ->). simpl.
    split; [reflexivity|]. split; [|split; [|reflexivity]].
    + unfold keys. simpl. intros H.
      repeat (destruct H as [H|H]; [discriminate|]). exact H.
    + unfold keys, all_fields. simpl. intros field H Hnot.
      destruct H as [H|[H|[H|[H|[H|[H|[]]]]]]]; subst field;
        solve [auto 10 | congruence].
Qed.

(** C9: for every threshold and [max_results], [fuzzy_search] on an
    empty or whitespace-only query returns the empty list, and
    [search_by_keywords] on an empty keyword list returns the empty
    list; neither raises. *)
Theorem blank_inputs_give_nothing :
  (forall self query threshold max_results,
     forallb isspace query = true ->
     fuzzy_search lower isdigit_char py_int self query threshold max_results = Returns []) /\
  (forall self threshold, search_by_keywords lower self [] threshold = []).
Proof.
  split.
  - intros self query threshold max_results Hblank.
    unfold fuzzy_search. rewrite (strip_spaces _ Hblank). reflexivity.
  - intros self threshold. reflexivity.
Qed.

End EntryPoints.

Section EmptyKeyword.
Variable lower : str -> str.
Hypothesis lower_empty : lower [] = [].




End EmptyKeyword.

(** C2, amended: when the cascade reaches the fallback with a query of at
    least one word, the result is
    [edit_ratio * 0.15 + word_jaccard * 0.25 + partial_substring * 0.25],
    where [partial_substring] is 0.3 if some query word is a substring of
    some text word or the other way round, and 0.0 otherwise (one hit is
    enough); this value never exceeds 0.475. When the query has no word
    at all, the fallback returns [edit_ratio] alone. *)
Theorem fallback_composite_value :
  (forall query text,
     reaches_fallback query text -> split query <> [] ->
     _calculate_similarity query text =
       spec_composite (difflib.ratio query text)
         (word_jaccard (split query) (list_to_set (split text)))
         (partial_substring (split query) (list_to_set (split text))) /\
     ((partial_hit (split query) (list_to_set (split text)) /\
       partial_substring (split query) (list_to_set (split text)) = 0.3%Q) \/
      (~ partial_hit (split query) (list_to_set (split text)) /\
       partial_substring (split query) (list_to_set (split text)) = 0%Q)) /\
     (0 <= difflib.ratio query text <= 1)%Q /\
     (0 <= word_jaccard (split query) (list_to_set (split text)) <= 1)%Q /\
     (_calculate_similarity query text <= 0.475)%Q) /\
  (forall query text,
     reaches_fallback query text -> split query = [] ->
     _calculate_similarity query text = difflib.ratio query text).
Proof.
  split.
  - intros query text (Hin & H2 & H3 & H4) Hwords.
    assert (E : _calculate_similarity query text = fallback query (split query) text).
    { unfold _calculate_similarity. rewrite Hin, H2, H3, H4. reflexivity. }
    split.
    { rewrite E. destruct (split query) as [|w rest]; [congruence|]. apply fallback_words. }
    split; [apply partial_substring_spec|].
    split; [apply ratio_bounds|].
    split; [apply word_jaccard_bounds|].
    rewrite E. apply fallback_words_bounds. exact Hwords.
  - intros query text (Hin & H2 & H3 & H4) Hwords.
    unfold _calculate_similarity. rewrite Hin, H2, H3, H4, Hwords. reflexivity.
Qed.

(** What the matcher computes: 0.0 for a query of fewer than two words;
    otherwise the best value of [0.9 - min(0.3, gaps * 0.1)] over the
    start positions of its loop, [range(len(text_words) -
    len(query_words) + 1)], from which all query words matched as
    [matches_from] describes, or 0.0 if there is none. *)
Lemma sequence_matcher_loop_range query_words text_words :
  (len query_words < 2 ->
   _calculate_sequence_similarity query_words text_words = 0%Q) /\
  (2 <= len query_words ->
   (forall i gaps,
      0 <= i < len text_words - len query_words + 1 ->
      matches_from text_words query_words i gaps ->
      (spec_gap_score gaps <= _calculate_sequence_similarity query_words text_words)%Q) /\
   ((exists i gaps,
       0 <= i < len text_words - len query_words + 1 /\
       matches_from text_words query_words i gaps /\
       _calculate_sequence_similarity query_words text_words = spec_gap_score gaps) \/
    (_calculate_sequence_similarity query_words text_words = 0%Q /\
     forall i gaps,
       0 <= i < len text_words - len query_words + 1 ->
       ~ matches_from text_words query_words i gaps))).
Proof.
  unfold _calculate_sequence_similarity. split.
  - intros H. replace (len query_words <? 2) with true by lia. reflexivity.
  - intros H. replace (len query_words <? 2) with false by lia.
    destruct (sequence_loop_spec query_words text_words
                (len text_words - len query_words + 1)) as [Hub Hwit].
    split.
    + intros i gaps Hi Hm. rewrite <- gap_score_spec. apply (Hub i gaps Hi Hm).
    + destruct Hwit as [(i & g & Hi & Hm & Hr)|[Hr Hnone]].
      * left. exists i, g. rewrite <- gap_score_spec. auto.
      * right. split; [exact Hr|exact Hnone].
Qed.

(** In ["never never give up"] the query words of ["never up"] match from
    the start position 3 without a gap: the window of [never] reaches
    back to position 1, and [up] is found at position 3. *)
Lemma never_up_from_last_position :
  matches_from [lit "never"; lit "never"; lit "give"; lit "up"] [lit "never"; lit "up"] 3 0.
Proof.
  exact (matches_from_two [lit "never"; lit "never"; lit "give"; lit "up"]
           (lit "never") (lit "up") 3 1 3 eq_refl eq_refl).
Qed.

(** C4: fails on the code. The matcher returns 0.0 for a query of fewer
    than two words, and what it returns otherwise is 0.0 or the value
    [0.9 - min(0.3, gaps * 0.1)] of a start position in [text_words]
    from which all query words matched; but it is not the best value
    over every start position in [text_words], because the loop stops at
    [len(text_words) - len(query_words)] while the window reaches two
    positions back. For ["never up"] in ["never never give up"] the start
    position 3 matches all words without a gap (0.9) and the matcher
    returns 0.8; for the words [a a] in the text [a] the start position
    0 matches both and the matcher returns 0.0. *)
Theorem sequence_matcher_skips_start_positions :
  (forall query_words text_words,
     len query_words < 2 ->
     _calculate_sequence_similarity query_words text_words = 0%Q) /\
  (forall query_words text_words,
     2 <= len query_words ->
     _calculate_sequence_similarity query_words text_words = 0%Q \/
     exists i gaps,
       candidate_start text_words i /\
       matches_from text_words query_words i gaps /\
       _calculate_sequence_similarity query_words text_words = spec_gap_score gaps) /\
  (candidate_start [lit "never"; lit "never"; lit "give"; lit "up"] 3 /\
   matches_from [lit "never"; lit "never"; lit "give"; lit "up"]
                [lit "never"; lit "up"] 3 0 /\
   (spec_gap_score 0 == 0.9)%Q /\
   (_calculate_sequence_similarity [lit "never"; lit "up"]
      [lit "never"; lit "never"; lit "give"; lit "up"] == 0.8)%Q /\
   ~ (spec_gap_score 0 <=
      _calculate_sequence_similarity [lit "never"; lit "up"]
        [lit "never"; lit "never"; lit "give"; lit "up"])%Q) /\
  (candidate_start [lit "a"] 0 /\
   matches_from [lit "a"] [lit "a"; lit "a"] 0 0 /\
   _calculate_sequence_similarity [lit "a"; lit "a"] [lit "a"] = 0%Q).
Proof.
  split; [|split; [|split]].
  - intros query_words text_words H.
    apply (proj1 (sequence_matcher_loop_range query_words text_words) H).
  - intros query_words text_words H.
    destruct (proj2 (sequence_matcher_loop_range query_words text_words) H)
      as [_ [(i & gaps & Hi & Hm & Hr)|[Hr _]]]; [right|left; exact Hr].
    exists i, gaps. split; [unfold candidate_start; lia|]. split; [exact Hm|exact Hr].
  - split; [unfold candidate_start, len; simpl; lia|].
    split; [exact never_up_from_last_position|].
    assert (Hbest : (spec_gap_score 0 == 0.9)%Q)
      by (rewrite <- gap_score_spec; exact gap_score_0).
    assert (Hcode : (_calculate_sequence_similarity [lit "never"; lit "up"]
                       [lit "never"; lit "never"; lit "give"; lit "up"] == 0.8)%Q)
      by (vm_compute; reflexivity).
    split; [exact Hbest|]. split; [exact Hcode|].
    rewrite Hbest, Hcode. intros H. lra.
  - split; [unfold candidate_start, len; simpl; lia|].
    split; [|reflexivity].
    exact (matches_from_two [lit "a"] (lit "a") (lit "a") 0 0 0 eq_refl eq_refl).
Qed.

(** C7: fails on the code. The score [0.9 - min(0.3, gaps * 0.1)] is
    non-increasing in the gap count and its penalty is at most 0.3, as
    the claim says. But a two-word query whose words stand one word
    apart does not always score higher than one whose words are far
    apart: ["never up"] scores 0.7 on ["never never give up"], as it does
    on ["never ever ever ever give up"]. The loop of the matcher tries the
    start positions 0, 1 and 2 only, from which the first [never] is
    matched and one gap is counted (0.8, which is not above 0.8, so the
    Sequence-Order branch does not return); from the start position 3
    the match has no gap. One more word at the end of the text lets the
    loop reach that position, and the query scores 0.9 through the
    Sequence-Order branch. *)
Theorem one_word_between_not_higher :
  (forall g1 g2, g1 <= g2 -> (gap_score g2 <= gap_score g1)%Q) /\
  (forall gaps, 0 <= gaps -> (0 <= 0.9 - gap_score gaps <= 0.3)%Q) /\
  split (lit "never up") = [lit "never"; lit "up"] /\
  split (lit "never never give up")
    = [lit "never"] ++ [lit "never"; lit "give"; lit "up"] ++ [] /\
  scattered (lit "never") (lit "up") (split (lit "never ever ever ever give up")) /\
  (_calculate_sequence_similarity (split (lit "never up")) (split (lit "never never give up"))
   == 0.8)%Q /\
  matches_from (split (lit "never never give up")) (split (lit "never up")) 3 0 /\
  method2 (split (lit "never up")) (lit "never never give up") = None /\
  (_calculate_similarity (lit "never up") (lit "never never give up") == 0.7)%Q /\
  (_calculate_similarity (lit "never up") (lit "never ever ever ever give up") == 0.7)%Q /\
  ~ (_calculate_similarity (lit "never up") (lit "never ever ever ever give up")
     < _calculate_similarity (lit "never up") (lit "never never give up"))%Q /\
  method2 (split (lit "never up")) (lit "never never give up now")
    = Some (_calculate_sequence_similarity (split (lit "never up"))
              (split (lit "never never give up now"))) /\
  (_calculate_similarity (lit "never up") (lit "never never give up now") == 0.9)%Q.
Proof.
  split; [exact gap_score_mono|].
  split; [intros gaps Hg; pose proof (gap_score_bounds gaps Hg); lra|].
  split; [reflexivity|]. split; [reflexivity|].
  split.
  { intros p q Hp Hq.
    pose proof (item_Some_range _ _ _ Hp) as Rp.
    pose proof (item_Some_range _ _ _ Hq) as Rq.
    change (len (split (lit "never ever ever ever give up"))) with 6 in Rp, Rq.
    assert (p = 0 \/ p = 1 \/ p = 2 \/ p = 3 \/ p = 4 \/ p = 5) as Cp by lia.
    assert (q = 0 \/ q = 1 \/ q = 2 \/ q = 3 \/ q = 4 \/ q = 5) as Cq by lia.
    destruct Cp as [->|[->|[->|[->|[->| ->]]]]]; try discriminate Hp;
      destruct Cq as [->|[->|[->|[->|[->| ->]]]]]; try discriminate Hq; lia. }
  split; [vm_compute; reflexivity|].
  split; [exact never_up_from_last_position|].
  split; [vm_compute; reflexivity|].
  split; [vm_compute; reflexivity|]. split; [vm_compute; reflexivity|].
  split; [intros H; vm_compute in H; discriminate|].
  split; [vm_compute; reflexivity|vm_compute; reflexivity].
Qed.

(** * Worked examples *)

(** A digit string that [int] rejects makes [fuzzy_search] raise. *)
Lemma fuzzy_search_int_raises lower isdigit_char py_int self query threshold max_results :
  isdigit isdigit_char (strip query) = true ->
  py_int (strip query) = None ->
  fuzzy_search lower isdigit_char py_int self query threshold max_results = ValueError.
Proof.
  intros Hd Hn. unfold fuzzy_search. rewrite Hd, Hn.
  destruct (strip query); [discriminate|reflexivity].
Qed.

(** C3: fails on the code. A query that [str.isdigit] accepts after
    trimming and that [int] rejects makes [fuzzy_search] raise
    ValueError, where the claim has it return one result or the empty
    list (and section 4.4 allows no fault). The superscript two, U+00B2,
    is such a query, whatever the threshold and [max_results], also
    between spaces; and no query that passes [isdigit] and that [int]
    rejects returns a list. *)
Theorem superscript_digit_query_raises :
  isdigit latin1_isdigit_char (strip (literal "²")) = true /\
  ascii_int (strip (literal "²")) = None /\
  (forall threshold max_results,
     fuzzy_search ascii_lower latin1_isdigit_char ascii_int example_corpus
                  (literal "²") threshold max_results = ValueError) /\
  (forall threshold max_results,
     fuzzy_search ascii_lower latin1_isdigit_char ascii_int example_corpus
                  (literal " ² ") threshold max_results = ValueError) /\
  (forall lower isdigit_char py_int self query threshold max_results results,
     isdigit isdigit_char (strip query) = true ->
     py_int (strip query) = None ->
     fuzzy_search lower isdigit_char py_int self query threshold max_results
       <> Returns results).
Proof.
  split; [reflexivity|]. split; [reflexivity|].
  split; [|split].
  - intros threshold max_results. apply fuzzy_search_int_raises; reflexivity.
  - intros threshold max_results. apply fuzzy_search_int_raises; reflexivity.
  - intros lower isdigit_char py_int self query threshold max_results results Hd Hn.
    rewrite (fuzzy_search_int_raises _ _ _ _ _ _ _ Hd Hn). discriminate.
Qed.

(** C1 at a query and a text that go through the fallback. *)
Lemma similarity_score_unit_interval_witness :
  (0 <= _calculate_similarity (lit "bike rides") (lit "the bike is ridden") <= 1)%Q /\
  Forall (fun r => (0 <= similarity_score r <= 1)%Q)
    [{| result_rule_number := 5;
        result_text_eng := lit "Harden up";
        result_text_rus := lit "rules y";
        similarity_score := 1;
        matched_language := DirectRuleNumber;
        is_direct_rule := Some true |}].
Proof.
  destruct (similarity_score_unit_interval ascii_lower ascii_isdigit_char ascii_int)
    as [Hscore Hresults].
  split; [apply Hscore|].
  apply (Hresults example_corpus (lit " 5 ") 0.6%Q 10). reflexivity.
Defined.

(** The numeric lookup at the query [" 5 "], with rule 5 in the corpus. *)
Lemma direct_number_lookup_witness :
  isdigit ascii_isdigit_char (strip (lit " 5 ")) = true /\
  ascii_int (strip (lit " 5 ")) = Some 5 /\
  exists result rule,
    fuzzy_search ascii_lower ascii_isdigit_char ascii_int example_corpus (lit " 5 ") 1.1%Q 10
      = Returns [result] /\
    In rule (rules example_corpus) /\ rule_number rule = 5 /\
    result_rule_number result = 5 /\
    result_text_eng result = text_eng rule /\
    result_text_rus result = text_rus rule /\
    similarity_score result = 1%Q /\
    is_direct_rule result = Some true /\
    matched_language result = DirectRuleNumber.
Proof.
  split; [reflexivity|]. split; [reflexivity|].
  destruct (direct_number_lookup ascii_lower ascii_isdigit_char ascii_int
              example_corpus (lit " 5 ") 1.1%Q 10 5 eq_refl eq_refl) as [Hhit _].
  apply Hhit.
  exists {| rule_number := 5; text_eng := lit "Harden up"; text_rus := lit "rules y" |}.
  split; [|reflexivity]. simpl. right. left. reflexivity.
Defined.

(** The numeric lookup at a number that no rule has. *)
Example direct_number_absent :
  fuzzy_search ascii_lower ascii_isdigit_char ascii_int example_corpus (lit "42") 0.6%Q 10
  = Returns [].
Proof. reflexivity. Qed.

(** C5 at the query ["rules"], which every rule of the example corpus
    matches with score 1.0: the first two rules, in corpus order. *)
Lemma fuzzy_search_ranking_witness :
  strip (lit "rules") <> [] /\
  isdigit ascii_isdigit_char (strip (lit "rules")) = false /\
  exists results ranking,
    fuzzy_search ascii_lower ascii_isdigit_char ascii_int example_corpus (lit "rules") 0.5%Q 2
      = Returns results /\
    ranking = sort_reverse
                (fuzzy_candidates ascii_lower (strip (ascii_lower (lit "rules"))) 0.5%Q
                   (rules example_corpus)) /\
    Permutation ranking
      (fuzzy_candidates ascii_lower (strip (ascii_lower (lit "rules"))) 0.5%Q
         (rules example_corpus)) /\
    sorted_desc ranking /\
    stable_order
      (fuzzy_candidates ascii_lower (strip (ascii_lower (lit "rules"))) 0.5%Q
         (rules example_corpus)) ranking /\
    (exists rest, ranking = results ++ rest) /\
    sorted_desc results /\
    sublist (List.map result_rule_number
               (fuzzy_candidates ascii_lower (strip (ascii_lower (lit "rules"))) 0.5%Q
                  (rules example_corpus)))
            (List.map rule_number (rules example_corpus)) /\
    (0 <= 2 -> results = firstn (Z.to_nat 2) ranking /\ len results <= 2) /\
    (2 < 0 -> len results = Z.max 0 (len ranking + 2)).
Proof.
  split; [discriminate|]. split; [reflexivity|].
  apply (fuzzy_search_ranking ascii_lower ascii_isdigit_char ascii_int
           example_corpus (lit "rules") 0.5%Q 2).
  - discriminate.
  - reflexivity.
Defined.

Example fuzzy_search_rules_two :
  exists r1 r2,
    fuzzy_search ascii_lower ascii_isdigit_char ascii_int example_corpus (lit "rules") 0.5%Q 2
      = Returns [r1; r2] /\
    result_rule_number r1 = 1 /\ result_rule_number r2 = 5 /\
    matched_language r1 = English /\ matched_language r2 = Russian.
Proof. do 2 eexists. split; [vm_compute; reflexivity|]. repeat split; reflexivity. Qed.

(** C5 as stated fails for a negative [max_results]: [results[:-1]] drops
    the last result and keeps the two others, more than [-1] entries. *)
Lemma negative_max_results_counterexample :
  exists results,
    fuzzy_search ascii_lower ascii_isdigit_char ascii_int example_corpus (lit "rules") 0.5%Q (-1)
      = Returns results /\
    len results = 2 /\ ~ (len results <= -1).
Proof.
  eexists. split; [vm_compute; reflexivity|].
  split; [reflexivity|]. vm_compute. intros H. apply H. reflexivity.
Qed.

(** C6: a keyword in the primary text only and one in the secondary text
    only; the rule qualifies. *)
Lemma keyword_search_results_witness :
  exists r,
    In r (search_by_keywords ascii_lower example_corpus [lit "HARDEN"; lit "Rules"] 0.5%Q) /\
    result_rule_number r = 5 /\
    result_text_eng r = lit "Harden up" /\
    result_text_rus r = lit "rules y" /\
    (similarity_score r ==
     spec_mean_score ascii_lower [lit "HARDEN"; lit "Rules"]
       {| rule_number := 5; text_eng := lit "Harden up"; text_rus := lit "rules y" |})%Q.
Proof.
  destruct (keyword_search_results ascii_lower example_corpus
              [lit "HARDEN"; lit "Rules"] 0.5%Q) as (_ & Hall & _).
  apply (Hall ltac:(discriminate)
              {| rule_number := 5; text_eng := lit "Harden up"; text_rus := lit "rules y" |}).
  - simpl. right. left. reflexivity.
  - intros keyword [<-|[<-|[]]]; [left|right]; reflexivity.
  - vm_compute. discriminate.
Defined.

Example keyword_search_both_languages :
  exists r,
    search_by_keywords ascii_lower example_corpus [lit "HARDEN"; lit "Rules"] 0.5%Q = [r] /\
    result_rule_number r = 5 /\ (similarity_score r == 1)%Q /\ matched_language r = Both.
Proof. eexists. split; [vm_compute; reflexivity|]. repeat split; reflexivity. Qed.

(** C8 as stated fails: a result of [search_by_keywords] has no
    [is_direct] field. *)
Lemma keyword_result_fields_counterexample :
  exists r,
    In r (search_by_keywords ascii_lower example_corpus [lit "harden"] 0.5%Q) /\
    is_direct_rule r = None /\
    ~ In "is_direct_rule"%string (keys r).
Proof.
  eexists. split; [vm_compute; left; reflexivity|].
  split; [reflexivity|].
  simpl. intros H. repeat (destruct H as [H|H]; [discriminate|]). exact H.
Qed.

(** C8, amended, on the example corpus. *)
Lemma result_fields_witness :
  Forall (fun r => keys r = all_fields /\ exists flag, is_direct_rule r = Some flag)
    [{| result_rule_number := 5;
        result_text_eng := lit "Harden up";
        result_text_rus := lit "rules y";
        similarity_score := 1;
        matched_language := DirectRuleNumber;
        is_direct_rule := Some true |}].
Proof.
  destruct (result_fields ascii_lower ascii_isdigit_char ascii_int) as [Hfuzzy _].
  apply (Hfuzzy example_corpus (lit "5") 0.6%Q 10). reflexivity.
Defined.

(** C9 at a query of a space, a tab and a no-break space. *)
Lemma blank_inputs_give_nothing_witness :
  forallb isspace [32; 9; 160]%N = true /\
  fuzzy_search ascii_lower ascii_isdigit_char ascii_int example_corpus [32; 9; 160]%N 0.6%Q 10
  = Returns [].
Proof.
  split; [reflexivity|].
  destruct (blank_inputs_give_nothing ascii_lower ascii_isdigit_char ascii_int) as [Hblank _].
  apply Hblank. reflexivity.
Defined.


(** C2 as stated fails: a query of three spaces against ["  a  "] reaches
    the fallback, which returns the edit ratio 0.75 itself, not the
    weighted sum, and more than 0.65; and with a query that has a word the
    fallback stays below 0.65. *)
Lemma fallback_composite_counterexample :
  reaches_fallback (lit "   ") (lit "  a  ") /\
  (_calculate_similarity (lit "   ") (lit "  a  ") == 0.75)%Q /\
  ~ (_calculate_similarity (lit "   ") (lit "  a  ") ==
     spec_composite (difflib.ratio (lit "   ") (lit "  a  "))
       (word_jaccard (split (lit "   ")) (list_to_set (split (lit "  a  "))))
       (partial_substring (split (lit "   ")) (list_to_set (split (lit "  a  ")))))%Q /\
  ~ (_calculate_similarity (lit "   ") (lit "  a  ") <= 0.65)%Q /\
  ~ (exists query text,
       reaches_fallback query text /\ split query <> [] /\
       (_calculate_similarity query text == 0.65)%Q).
Proof.
  split; [repeat split; vm_compute; reflexivity|].
  split; [vm_compute; reflexivity|].
  split; [intros H; vm_compute in H; discriminate|].
  split; [intros H; vm_compute in H; apply H; reflexivity|].
  intros (query & text & (Hin & H2 & H3 & H4) & Hwords & Hval).
  assert (E : _calculate_similarity query text = fallback query (split query) text).
  { unfold _calculate_similarity. rewrite Hin, H2, H3, H4. reflexivity. }
  pose proof (fallback_words_bounds query (split query) text Hwords) as Hb.
  rewrite <- E in Hb. lra.
Qed.

(** C2, amended, at a one-word query with a partial hit. *)
Lemma fallback_composite_value_witness :
  reaches_fallback (lit "helmet") (lit "helm on") /\
  split (lit "helmet") <> [] /\
  _calculate_similarity (lit "helmet") (lit "helm on") =
    spec_composite (difflib.ratio (lit "helmet") (lit "helm on"))
      (word_jaccard (split (lit "helmet")) (list_to_set (split (lit "helm on"))))
      (partial_substring (split (lit "helmet")) (list_to_set (split (lit "helm on")))) /\
  (_calculate_similarity (lit "helmet") (lit "helm on") <= 0.475)%Q.
Proof.
  assert (Hreach : reaches_fallback (lit "helmet") (lit "helm on"))
    by (repeat split; vm_compute; reflexivity).
  assert (Hwords : split (lit "helmet") <> []) by discriminate.
  split; [exact Hreach|]. split; [exact Hwords|].
  destruct fallback_composite_value as [Hwordy _].
  destruct (Hwordy (lit "helmet") (lit "helm on") Hreach Hwords) as (Hval & _ & _ & _ & Hmax).
  split; assumption.
Defined.

Example fallback_helmet :
  (_calculate_similarity (lit "helmet") (lit "helm on") == 8 / 13 * 0.15 + 0 * 0.25 + 0.3 * 0.25)%Q.
Proof. vm_compute. reflexivity. Qed.

Example sequence_query_longer_than_text :
  _calculate_sequence_similarity [lit "a"; lit "a"] [lit "a"] = 0%Q.
Proof. reflexivity. Qed.

(** * Further properties of the code *)

(** ** Strings of numbers, dictionaries, lists *)

Lemma lit_inj s1 s2 : lit s1 = lit s2 -> s1 = s2.
Proof.
  unfold lit. intros H.
  rewrite <- (string_of_list_ascii_of_string s1), <- (string_of_list_ascii_of_string s2).
  f_equal. revert H. generalize (list_ascii_of_string s1) (list_ascii_of_string s2).
  induction l as [|a l IH]; intros [|b l']; simpl; intros H; try discriminate; [reflexivity|].
  inversion H as [[Hab Hl]]. f_equal; [|apply IH; exact Hl].
  rewrite <- (ascii_N_embedding a), <- (ascii_N_embedding b), Hab. reflexivity.
Qed.

Lemma to_int_proper n : Z.to_int n <> Pos Nil /\ Z.to_int n <> Neg Nil.
Proof.
  destruct n as [|p|p]; simpl; split; try discriminate;
    intros H; inversion H as [Hp]; apply (Unsigned.to_uint_nonnil p Hp).
Qed.

(** [str] maps different numbers to different strings. *)
Lemma py_str_inj n m : py_str n = py_str m -> n = m.
Proof.
  unfold py_str. intros H. apply lit_inj in H.
  destruct (to_int_proper n) as [Hn1 Hn2]. destruct (to_int_proper m) as [Hm1 Hm2].
  pose proof (NilZero.isi _ Hn1 Hn2) as En. pose proof (NilZero.isi _ Hm1 Hm2) as Em.
  rewrite H in En. rewrite En in Em. inversion Em as [E].
  rewrite <- (DecimalZ.of_to n), <- (DecimalZ.of_to m), E. reflexivity.
Qed.

Lemma lit_ascii s : forallb (fun c => (c <? 256)%N) (lit s) = true /\
                    string_of_list_ascii (List.map ascii_of_N (lit s)) = s.
Proof.
  unfold lit. rewrite <- (string_of_list_ascii_of_string s) at 3.
  generalize (list_ascii_of_string s). intros l. split.
  - apply forallb_forall. intros c Hc. apply in_map_iff in Hc.
    destruct Hc as (a & <- & _). apply N.ltb_lt, N_ascii_bounded.
  - f_equal. induction l as [|a l IH]; simpl; [reflexivity|].
    rewrite ascii_N_embedding, IH. reflexivity.
Qed.

(** [decimal_int] reads back what [str] writes. *)
Lemma decimal_int_str n : decimal_int (py_str n) = Some n.
Proof.
  unfold decimal_int, py_str.
  destruct (lit_ascii (NilZero.string_of_int (Z.to_int n))) as [-> ->].
  destruct (to_int_proper n) as [H1 H2].
  rewrite (NilZero.isi _ H1 H2). simpl. rewrite DecimalZ.of_to. reflexivity.
Qed.

Lemma dict_get_set_eq {V} (d : list (list N * V)) k v :
  dict_get (dict_set d k v) k = Some v.
Proof.
  assert (Hk : str_eqb k k = true) by (apply str_eqb_eq; reflexivity).
  induction d as [|[k' v'] d IH]; simpl.
  - rewrite Hk. reflexivity.
  - destruct (str_eqb k' k) eqn:E; simpl.
    + rewrite Hk. reflexivity.
    + rewrite E. exact IH.
Qed.

Lemma dict_get_set_ne {V} (d : list (list N * V)) k k' v :
  k' <> k -> dict_get (dict_set d k v) k' = dict_get d k'.
Proof.
  intros Hne. induction d as [|[k0 v0] d IH]; simpl.
  - destruct (str_eqb k k') eqn:E; [|reflexivity].
    apply str_eqb_eq in E. congruence.
  - destruct (str_eqb k0 k) eqn:E; simpl.
    + apply str_eqb_eq in E. subst k0.
      destruct (str_eqb k k') eqn:E'; [|reflexivity].
      apply str_eqb_eq in E'. congruence.
    + rewrite IH. reflexivity.
Qed.

Lemma dict_get_None {V} (d : list (list N * V)) k :
  dict_get d k = None <-> ~ In k (List.map fst d).
Proof.
  induction d as [|[k' v'] d IH]; simpl.
  - split; [intros _ []|reflexivity].
  - destruct (str_eqb k' k) eqn:E.
    + apply str_eqb_eq in E. split; [discriminate|]. intros H. exfalso. apply H. left. exact E.
    + rewrite IH. split.
      * intros H [Hk|Hin]; [|contradiction].
        assert (str_eqb k' k = true) by (apply str_eqb_eq; exact Hk). congruence.
      * intros H Hin. apply H. right. exact Hin.
Qed.

(** Assigning to a key that is present keeps the keys and their order;
    assigning to a new key appends it. *)
Lemma dict_set_keys {V} (d : list (list N * V)) k v :
  List.map fst (dict_set d k v) =
  match dict_get d k with
  | Some _ => List.map fst d
  | None => List.map fst d ++ [k]
  end.
Proof.
  induction d as [|[k' v'] d IH]; simpl; [reflexivity|].
  destruct (str_eqb k' k) eqn:E; simpl.
  - apply str_eqb_eq in E. subst k'. reflexivity.
  - rewrite IH. destruct (dict_get d k); reflexivity.
Qed.

Lemma dict_set_middle {V} (d1 d2 : list (list N * V)) k v0 v :
  ~ In k (List.map fst d1) ->
  dict_get (d1 ++ (k, v0) :: d2) k = Some v0 /\
  dict_set (d1 ++ (k, v0) :: d2) k v = d1 ++ (k, v) :: d2.
Proof.
  assert (Hk : str_eqb k k = true) by (apply str_eqb_eq; reflexivity).
  induction d1 as [|[k' v'] d1 IH]; simpl; intros Hnot.
  - rewrite Hk. split; reflexivity.
  - destruct (str_eqb k' k) eqn:E.
    + apply str_eqb_eq in E. exfalso. apply Hnot. left. exact E.
    + destruct IH as [IH1 IH2]; [intros H; apply Hnot; right; exact H|].
      rewrite IH1, IH2. split; reflexivity.
Qed.

Lemma choice_In {A} (draw : nat) (seq : list A) :
  seq <> [] -> exists x, choice draw seq = Some x /\ In x seq.
Proof.
  intros Hne. unfold choice.
  assert (Hlt : (draw mod length seq < length seq)%nat).
  { apply Nat.mod_upper_bound. destruct seq; [congruence|simpl; lia]. }
  destruct (lookup_lt_is_Some_2 seq _ Hlt) as [x Hx].
  exists x. split; [exact Hx|]. apply list_elem_of_In, list_elem_of_lookup. eauto.
Qed.

(** Every element can be the one that is drawn. *)
Lemma choice_any {A} (seq : list A) x :
  In x seq -> exists draw, choice draw seq = Some x.
Proof.
  intros Hin. apply list_elem_of_In, list_elem_of_lookup in Hin. destruct Hin as [i Hi].
  exists i. unfold choice. rewrite Nat.mod_small; [exact Hi|].
  apply lookup_lt_Some in Hi. exact Hi.
Qed.

Lemma choice_nil {A} (draw : nat) : choice draw (@nil A) = None.
Proof. unfold choice. apply lookup_nil. Qed.

Lemma list_remove_perm x l : In x l -> Permutation (x :: list_remove x l) l.
Proof.
  induction l as [|y l IH]; simpl; intros Hin; [contradiction|].
  destruct (y =? x) eqn:E.
  - apply Z.eqb_eq in E. subst y. reflexivity.
  - destruct Hin as [Hy|Hin]; [apply Z.eqb_neq in E; congruence|].
    rewrite perm_swap. apply perm_skip. apply IH. exact Hin.
Qed.

Lemma list_remove_length x l : In x l -> len l = len (list_remove x l) + 1.
Proof.
  intros Hin. pose proof (Permutation_length (list_remove_perm x l Hin)) as H.
  unfold len. simpl in H. lia.
Qed.

Lemma all_rule_numbers_spec n : In n all_rule_numbers <-> 1 <= n <= 95.
Proof.
  unfold all_rule_numbers. rewrite <- list_elem_of_In, elem_of_seqZ. lia.
Qed.

Lemma all_rule_numbers_NoDup : NoDup all_rule_numbers.
Proof. apply NoDup_seqZ. Qed.

(** ** One call of get_daily_rule *)

(** After the refill a record that has ["used"] holds both lists, the
    unused one is not empty, and together they are the pool. *)
Lemma refill_unused_spec group used_list :
  used group = Some used_list ->
  exists used0 unused0,
    refill_unused group = {| id_ := id_ group; used := Some used0; unused := Some unused0 |} /\
    unused0 <> [] /\
    Permutation (used0 ++ unused0) (rule_pool group) /\
    (default [] (unused group) <> [] -> used0 = used_list /\ unused group = Some unused0).
Proof.
  intros Hused. destruct group as [i u un]. simpl in Hused. subst u.
  unfold refill_unused, rule_pool. simpl.
  destruct un as [[|y un]|]; simpl.
  - destruct used_list as [|x used_list]; simpl.
    + exists [], all_rule_numbers.
      repeat split; solve [reflexivity | congruence | discriminate].
    + exists [], (x :: used_list). rewrite app_nil_r.
      repeat split; solve [reflexivity | congruence | discriminate].
  - exists used_list, (y :: un).
    assert (E : match used_list ++ y :: un with
                | [] => all_rule_numbers
                | _ :: _ => used_list ++ y :: un
                end = used_list ++ y :: un)
      by (destruct used_list; reflexivity).
    rewrite E. repeat split; solve [reflexivity | congruence | discriminate].
  - destruct used_list as [|x used_list]; simpl.
    + exists [], all_rule_numbers.
      repeat split; solve [reflexivity | congruence | discriminate].
    + exists [], (x :: used_list). rewrite app_nil_r.
      repeat split; solve [reflexivity | congruence | discriminate].
Qed.

(** On a record that has ["used"] a call always picks: a number of the
    unused list (after the refill) leaves it and becomes the last used
    one, and the pool stays what it was. *)
Lemma pick_rule_spec draw group used_list :
  used group = Some used_list ->
  exists x used0 unused0,
    refill_unused group = {| id_ := id_ group; used := Some used0; unused := Some unused0 |} /\
    In x unused0 /\
    pick_rule draw group =
      ({| id_ := id_ group;
          used := Some (used0 ++ [x]);
          unused := Some (list_remove x unused0) |}, Some x) /\
    Permutation ((used0 ++ [x]) ++ list_remove x unused0) (rule_pool group) /\
    (default [] (unused group) <> [] -> used0 = used_list /\ unused group = Some unused0).
Proof.
  intros Hused.
  destruct (refill_unused_spec group used_list Hused) as (used0 & unused0 & Hre & Hne & Hperm & Hsame).
  destruct (choice_In draw unused0 Hne) as (x & Hx & Hin).
  exists x, used0, unused0. split; [exact Hre|]. split; [exact Hin|].
  split; [|split; [|exact Hsame]].
  - unfold pick_rule. rewrite Hre. simpl. rewrite Hx. reflexivity.
  - rewrite <- Hperm, <- app_assoc. apply Permutation_app_head.
    simpl. apply list_remove_perm. exact Hin.
Qed.

Lemma pick_rule_no_used draw group :
  used group = None ->
  snd (pick_rule draw group) = None /\ used (fst (pick_rule draw group)) = None /\
  id_ (fst (pick_rule draw group)) = id_ group.
Proof.
  intros Hused.
  assert (Hre : used (refill_unused group) = None /\ id_ (refill_unused group) = id_ group).
  { unfold refill_unused. destruct (default [] (unused group)); [|auto].
    rewrite Hused. simpl. auto. }
  destruct Hre as [Hu Hi]. unfold pick_rule.
  destruct (choice draw (default [] (unused (refill_unused group)))) as [x|]; simpl.
  - rewrite Hu. simpl. auto.
  - auto.
Qed.

Lemma get_daily_rule_unfold self group_id draw group :
  dict_get (groups self) (py_str group_id) = Some group ->
  searcher (fst (get_daily_rule self group_id draw)) = searcher self /\
  groups (fst (get_daily_rule self group_id draw)) =
    dict_set (groups self) (py_str group_id) (fst (pick_rule draw group)) /\
  snd (get_daily_rule self group_id draw) =
    match snd (pick_rule draw group) with
    | None => None
    | Some rule_number =>
        match search_by_rule_number (searcher self) rule_number with
        | Some rule =>
            Some {| daily_rule_number := rule_number;
                    daily_text_eng := text_eng rule;
                    daily_text_rus := text_rus rule;
                    used_count := len (default [] (used (fst (pick_rule draw group))));
                    unused_count := len (default [] (unused (fst (pick_rule draw group)))) |}
        | None => None
        end
    end.
Proof.
  intros Hget. unfold get_daily_rule. rewrite Hget.
  destruct (pick_rule draw group) as [group' [x|]]; simpl.
  - destruct (search_by_rule_number (searcher self) x); simpl; auto.
  - auto.
Qed.

Lemma dict_set_absent {V} (d : list (list N * V)) k v :
  dict_get d k = None -> dict_set d k v = d ++ [(k, v)].
Proof.
  induction d as [|[k' v'] d IH]; simpl; [reflexivity|].
  destruct (str_eqb k' k); [discriminate|]. intros H. rewrite IH by exact H. reflexivity.
Qed.

(** X1: [get_daily_rule] never registers or removes a group: it keeps
    the searcher, the keys of [groups] and their order, and the record
    of every other group; for a group that is not registered it returns
    [None] and changes nothing. *)
Theorem get_daily_rule_frame self group_id draw :
  searcher (fst (get_daily_rule self group_id draw)) = searcher self /\
  List.map fst (groups (fst (get_daily_rule self group_id draw))) = List.map fst (groups self) /\
  (forall key, key <> py_str group_id ->
     dict_get (groups (fst (get_daily_rule self group_id draw))) key
     = dict_get (groups self) key) /\
  (dict_get (groups self) (py_str group_id) = None ->
   get_daily_rule self group_id draw = (self, None)).
Proof.
  destruct (dict_get (groups self) (py_str group_id)) as [group|] eqn:Hget.
  - destruct (get_daily_rule_unfold self group_id draw group Hget) as (Hs & Hg & _).
    split; [exact Hs|]. rewrite Hg. split; [|split].
    + rewrite dict_set_keys, Hget. reflexivity.
    + intros key Hne. apply dict_get_set_ne. exact Hne.
    + discriminate.
  - unfold get_daily_rule. rewrite Hget. simpl. repeat split; reflexivity.
Qed.


Lemma daily_rules_of_cons self group_id draw draws :
  daily_rules_of self group_id (draw :: draws) =
  (fst (daily_rules_of (fst (get_daily_rule self group_id draw)) group_id draws),
   snd (get_daily_rule self group_id draw)
   :: snd (daily_rules_of (fst (get_daily_rule self group_id draw)) group_id draws)).
Proof.
  simpl. destruct (get_daily_rule self group_id draw) as [self1 result]. simpl.
  destruct (daily_rules_of self1 group_id draws) as [self2 results]. reflexivity.
Qed.

(** Successive calls while the unused list lasts: the picks leave it one
    by one and line up at the end of the used list. *)
Lemma daily_rules_of_run group_id draws : forall self i used_list unused_list,
  dict_get (groups self) (py_str group_id)
    = Some {| id_ := i; used := Some used_list; unused := Some unused_list |} ->
  (length draws <= length unused_list)%nat ->
  exists picks rest,
    length picks = length draws /\
    Permutation (picks ++ rest) unused_list /\
    searcher (fst (daily_rules_of self group_id draws)) = searcher self /\
    dict_get (groups (fst (daily_rules_of self group_id draws))) (py_str group_id)
      = Some {| id_ := i; used := Some (used_list ++ picks); unused := Some rest |} /\
    Forall2 (fun x result =>
               match search_by_rule_number (searcher self) x with
               | Some _ => exists rule_data,
                   result = Some rule_data /\ daily_rule_number rule_data = x
               | None => result = None
               end) picks (snd (daily_rules_of self group_id draws)).
Proof.
  induction draws as [|draw draws IH]; intros self i used_list unused_list Hget Hlen.
  - exists [], unused_list. simpl. rewrite app_nil_r.
    split; [reflexivity|]. split; [reflexivity|]. split; [reflexivity|].
    split; [exact Hget|constructor].
  - assert (Hne : default [] (Some unused_list) <> [])
      by (destruct unused_list; [simpl in Hlen; lia|discriminate]).
    destruct (pick_rule_spec draw
                {| id_ := i; used := Some used_list; unused := Some unused_list |}
                used_list eq_refl)
      as (x & used0 & unused0 & _ & Hin & Hpick & _ & Hsame).
    destruct (Hsame Hne) as [-> Hun]. simpl in Hun. inversion Hun; subst unused0. clear Hun Hsame.
    destruct (get_daily_rule_unfold self group_id draw _ Hget) as (Hs & Hg & Hres).
    rewrite Hpick in Hg, Hres. simpl in Hg, Hres.
    assert (Hget1 : dict_get (groups (fst (get_daily_rule self group_id draw))) (py_str group_id)
                    = Some {| id_ := i; used := Some (used_list ++ [x]);
                              unused := Some (list_remove x unused_list) |})
      by (rewrite Hg; apply dict_get_set_eq).
    pose proof (list_remove_perm x unused_list Hin) as Hperm.
    assert (Hlen1 : (length draws <= length (list_remove x unused_list))%nat).
    { apply Permutation_length in Hperm. simpl in Hperm, Hlen. lia. }
    destruct (IH _ _ _ _ Hget1 Hlen1) as (picks & rest & Hl & Hp & Hs1 & Hg1 & Hf).
    exists (x :: picks), rest. rewrite daily_rules_of_cons. simpl.
    split; [lia|]. split; [rewrite <- Hperm; apply perm_skip; exact Hp|].
    split; [rewrite Hs1; exact Hs|].
    split; [rewrite Hg1, <- app_assoc; reflexivity|].
    constructor.
    + rewrite Hres. destruct (search_by_rule_number (searcher self) x); [|reflexivity].
      eexists. split; reflexivity.
    + rewrite Hs in Hf. exact Hf.
Qed.

Lemma delivered_sublist (found : Z -> bool) picks results :
  Forall2 (fun x result =>
             if found x
             then exists rule_data, result = Some rule_data /\ daily_rule_number rule_data = x
             else result = None) picks results ->
  delivered results = List.filter found picks.
Proof.
  induction 1 as [|x result picks results Hx _ IH]; simpl; [reflexivity|].
  destruct (found x).
  - destruct Hx as (rd & -> & <-). simpl. rewrite IH. reflexivity.
  - subst result. simpl. exact IH.
Qed.

Lemma daily_rules_of_delivered group_id draws self i used_list unused_list :
  dict_get (groups self) (py_str group_id)
    = Some {| id_ := i; used := Some used_list; unused := Some unused_list |} ->
  (length draws <= length unused_list)%nat ->
  exists picks rest,
    length picks = length draws /\
    Permutation (picks ++ rest) unused_list /\
    searcher (fst (daily_rules_of self group_id draws)) = searcher self /\
    dict_get (groups (fst (daily_rules_of self group_id draws))) (py_str group_id)
      = Some {| id_ := i; used := Some (used_list ++ picks); unused := Some rest |} /\
    delivered (snd (daily_rules_of self group_id draws))
      = List.filter (fun x => bool_decide (search_by_rule_number (searcher self) x <> None)) picks.
Proof.
  intros Hget Hlen.
  destruct (daily_rules_of_run group_id draws self i used_list unused_list Hget Hlen)
    as (picks & rest & Hl & Hp & Hs & Hg & Hf).
  exists picks, rest. repeat (split; [assumption|]).
  apply delivered_sublist.
  eapply Forall2_impl; [exact Hf|].
  intros x result Hx. simpl in Hx.
  destruct (search_by_rule_number (searcher self) x) as [rule|].
  - rewrite bool_decide_eq_true_2 by discriminate. exact Hx.
  - rewrite bool_decide_eq_false_2 by (intros H; apply H; reflexivity). exact Hx.
Qed.

(** X3: within a cycle no rule is delivered twice. For a registered
    group whose used and unused lists hold no number twice, successive
    calls of [get_daily_rule], no more than the unused list has numbers,
    deliver distinct rules, each from the unused list and none that was
    used before; the picks leave the unused list and join the used list
    in the order of the calls. *)
Theorem daily_rules_never_repeat self group_id draws group used_list unused_list :
  dict_get (groups self) (py_str group_id) = Some group ->
  used group = Some used_list ->
  unused group = Some unused_list ->
  NoDup (used_list ++ unused_list) ->
  (length draws <= length unused_list)%nat ->
  NoDup (delivered (snd (daily_rules_of self group_id draws))) /\
  (forall n, In n (delivered (snd (daily_rules_of self group_id draws))) ->
             In n unused_list /\ ~ In n used_list) /\
  exists picks rest,
    length picks = length draws /\
    Permutation (picks ++ rest) unused_list /\
    dict_get (groups (fst (daily_rules_of self group_id draws))) (py_str group_id)
      = Some {| id_ := id_ group; used := Some (used_list ++ picks); unused := Some rest |} /\
    delivered (snd (daily_rules_of self group_id draws))
      = List.filter (fun x => bool_decide (search_by_rule_number (searcher self) x <> None)) picks.
Proof.
  intros Hget Hused Hunused Hnodup Hlen.
  destruct group as [i u un]. simpl in Hused, Hunused. subst u un.
  destruct (daily_rules_of_delivered group_id draws self i used_list unused_list Hget Hlen)
    as (picks & rest & Hl & Hp & _ & Hg & Hd).
  apply NoDup_app in Hnodup. destruct Hnodup as (_ & Hdisj & Hnd_un).
  assert (Hnd_picks : NoDup picks).
  { rewrite <- Hp in Hnd_un. apply NoDup_app in Hnd_un. destruct Hnd_un as (H & _). exact H. }
  split; [|split].
  - rewrite Hd. apply NoDup_ListNoDup, List.NoDup_filter, NoDup_ListNoDup. exact Hnd_picks.
  - intros n Hn. rewrite Hd in Hn. apply filter_In in Hn. destruct Hn as [Hn _].
    assert (Hin : In n unused_list).
    { apply (Permutation_in _ Hp). apply in_or_app. left. exact Hn. }
    split; [exact Hin|]. intros Hu.
    apply (Hdisj n); apply list_elem_of_In; assumption.
  - exists picks, rest. simpl. auto.
Qed.

Lemma add_group_new self group_id save_ok :
  dict_get (groups self) (py_str group_id) = None ->
  add_group self group_id save_ok =
  ({| searcher := searcher self;
      groups := groups self ++ [(py_str group_id,
                                 {| id_ := group_id; used := Some [];
                                    unused := Some all_rule_numbers |})] |},
   save_ok).
Proof.
  intros Hnone. unfold add_group. rewrite Hnone, dict_set_absent by exact Hnone. reflexivity.
Qed.

Lemma dict_get_app_new {V} (d : list (list N * V)) k v :
  dict_get d k = None -> dict_get (d ++ [(k, v)]) k = Some v.
Proof.
  intros H. rewrite <- (dict_set_absent d k v H). apply dict_get_set_eq.
Qed.

(** X4: a group that has just been added gets every rule once before
    any rule comes again. When the corpus has the rules 1 to 95, the
    first 95 calls of [get_daily_rule] after [add_group] all return a
    rule, their numbers are the numbers 1 to 95 in some order, and the
    unused list is then empty; the call after them starts the next
    cycle: it returns a rule with [used_count = 1] and
    [unused_count = 94]. *)
Theorem first_cycle_delivers_every_rule self group_id save_ok draws :
  dict_get (groups self) (py_str group_id) = None ->
  (forall n, 1 <= n <= 95 -> search_by_rule_number (searcher self) n <> None) ->
  length draws = 95%nat ->
  Forall (fun result => result <> None)
    (snd (daily_rules_of (fst (add_group self group_id save_ok)) group_id draws)) /\
  Permutation
    (delivered (snd (daily_rules_of (fst (add_group self group_id save_ok)) group_id draws)))
    all_rule_numbers /\
  (exists picks,
     Permutation picks all_rule_numbers /\
     dict_get (groups (fst (daily_rules_of (fst (add_group self group_id save_ok))
                                           group_id draws)))
              (py_str group_id)
       = Some {| id_ := group_id; used := Some picks; unused := Some [] |}) /\
  (forall draw, exists rule_data,
     snd (get_daily_rule (fst (daily_rules_of (fst (add_group self group_id save_ok))
                                              group_id draws))
                         group_id draw)
       = Some rule_data /\
     1 <= daily_rule_number rule_data <= 95 /\
     used_count rule_data = 1 /\ unused_count rule_data = 94).
Proof.
  intros Hnew Hcorpus Hlen.
  rewrite (add_group_new self group_id save_ok Hnew). simpl fst.
  set (self1 := {| searcher := searcher self;
                   groups := groups self ++ [(py_str group_id,
                               {| id_ := group_id; used := Some [];
                                  unused := Some all_rule_numbers |})] |}).
  assert (Hget1 : dict_get (groups self1) (py_str group_id)
                  = Some {| id_ := group_id; used := Some [];
                            unused := Some all_rule_numbers |})
    by (apply dict_get_app_new; exact Hnew).
  assert (Hall : length all_rule_numbers = 95%nat) by reflexivity.
  destruct (daily_rules_of_run group_id draws self1 group_id [] all_rule_numbers Hget1
              ltac:(lia)) as (picks & rest & Hl & Hp & Hs & Hg & Hf).
  assert (Hrest : rest = []).
  { apply Permutation_length in Hp. rewrite length_app in Hp.
    destruct rest; [reflexivity|simpl in Hp; lia]. }
  subst rest. rewrite app_nil_r in Hp. simpl in Hg.
  assert (Hfound : forall x, In x picks -> search_by_rule_number (searcher self1) x <> None).
  { intros x Hx. apply Hcorpus, all_rule_numbers_spec, (Permutation_in _ Hp), Hx. }
  assert (Hsome : Forall (fun result => result <> None)
                    (snd (daily_rules_of self1 group_id draws)) /\
                  delivered (snd (daily_rules_of self1 group_id draws)) = picks).
  { clear Hg Hl Hp. revert Hfound.
    induction Hf as [|x result picks' results Hx _ IH]; intros Hfound.
    - split; [constructor|reflexivity].
    - destruct IH as [IH1 IH2]; [intros y Hy; apply Hfound; right; exact Hy|].
      pose proof (Hfound x (or_introl eq_refl)) as Hfx.
      destruct (search_by_rule_number (searcher self1) x); [|congruence].
      destruct Hx as (rd & -> & <-). split.
      + constructor; [discriminate|exact IH1].
      + simpl. rewrite IH2. reflexivity. }
  destruct Hsome as [Hall_some Hdel].
  split; [exact Hall_some|]. split; [rewrite Hdel; exact Hp|].
  split; [exists picks; split; [exact Hp|exact Hg]|].
  intros draw.
  set (self2 := fst (daily_rules_of self1 group_id draws)) in *.
  destruct (get_daily_rule_unfold self2 group_id draw _ Hg) as (_ & _ & Hres).
  destruct (pick_rule_spec draw {| id_ := group_id; used := Some picks; unused := Some [] |}
              picks eq_refl) as (x & used0 & unused0 & Hre & Hin & Hpick & _ & _).
  assert (Hpicks : picks <> []) by (intros E; rewrite E in Hl; simpl in Hl; lia).
  assert (Hre' : refill_unused {| id_ := group_id; used := Some picks; unused := Some [] |}
                 = {| id_ := group_id; used := Some []; unused := Some picks |})
    by (destruct picks; [congruence|reflexivity]).
  rewrite Hre' in Hre. inversion Hre; subst used0 unused0. clear Hre.
  rewrite Hpick in Hres. simpl in Hres.
  assert (Hx95 : 1 <= x <= 95) by (apply all_rule_numbers_spec, (Permutation_in _ Hp), Hin).
  assert (Hfx : search_by_rule_number (searcher self2) x <> None)
    by (rewrite Hs; apply Hcorpus, Hx95).
  destruct (search_by_rule_number (searcher self2) x) as [rule|]; [|congruence].
  eexists. split; [exact Hres|]. simpl. split; [exact Hx95|]. split; [reflexivity|].
  pose proof (list_remove_length x picks Hin) as Hrl.
  unfold len in *. lia.
Qed.

(** X5: a group record without the key ["used"] never gets a daily rule:
    every call of [get_daily_rule] returns [None] (the KeyError is
    caught after the unused list has lost the number), and the record
    stays without the key. *)
Theorem group_without_used_gets_no_rule self group_id draws : forall group,
  dict_get (groups self) (py_str group_id) = Some group ->
  used group = None ->
  Forall (fun result => result = None) (snd (daily_rules_of self group_id draws)) /\
  exists group',
    dict_get (groups (fst (daily_rules_of self group_id draws))) (py_str group_id)
      = Some group' /\
    used group' = None.
Proof.
  revert self. induction draws as [|draw draws IH]; intros self group Hget Hused.
  - simpl. split; [constructor|]. exists group. auto.
  - rewrite daily_rules_of_cons. simpl.
    destruct (get_daily_rule_unfold self group_id draw group Hget) as (_ & Hg & Hres).
    destruct (pick_rule_no_used draw group Hused) as (Hnone & Hused' & _).
    rewrite Hnone in Hres.
    assert (Hget1 : dict_get (groups (fst (get_daily_rule self group_id draw)))
                             (py_str group_id) = Some (fst (pick_rule draw group)))
      by (rewrite Hg; apply dict_get_set_eq).
    destruct (IH _ _ Hget1 Hused') as [IH1 IH2].
    split; [constructor; [exact Hres|exact IH1]|exact IH2].
Qed.

(** X6: [add_group] registers a group once. For a group that is
    registered it changes nothing (the progress of the group is kept)
    and returns [True]; for a new one it appends a record with an empty
    used list and the numbers 1 to 95 unused, and returns what saving
    returned. Afterwards the group is registered, the records of the
    groups with other ids are what they were, the keys are still
    distinct, and a second [add_group] changes nothing. *)
Theorem add_group_registers_once self group_id save_ok :
  (forall group, dict_get (groups self) (py_str group_id) = Some group ->
     add_group self group_id save_ok = (self, true)) /\
  (dict_get (groups self) (py_str group_id) = None ->
   snd (add_group self group_id save_ok) = save_ok /\
   groups (fst (add_group self group_id save_ok))
     = groups self ++ [(py_str group_id,
                        {| id_ := group_id; used := Some [];
                           unused := Some all_rule_numbers |})]) /\
  (exists group,
     dict_get (groups (fst (add_group self group_id save_ok))) (py_str group_id)
       = Some group) /\
  (forall other, other <> group_id ->
     dict_get (groups (fst (add_group self group_id save_ok))) (py_str other)
     = dict_get (groups self) (py_str other)) /\
  (NoDup (List.map fst (groups self)) ->
   NoDup (List.map fst (groups (fst (add_group self group_id save_ok))))) /\
  (forall save_ok',
     add_group (fst (add_group self group_id save_ok)) group_id save_ok'
     = (fst (add_group self group_id save_ok), true)).
Proof.
  destruct (dict_get (groups self) (py_str group_id)) as [group|] eqn:Hget.
  - assert (E : add_group self group_id save_ok = (self, true))
      by (unfold add_group; rewrite Hget; reflexivity).
    rewrite E. simpl.
    split; [reflexivity|]. split; [discriminate|]. split; [eauto|].
    split; [reflexivity|]. split; [auto|].
    intros save_ok'. unfold add_group. rewrite Hget. reflexivity.
  - rewrite (add_group_new self group_id save_ok Hget). simpl.
    split; [discriminate|]. split; [auto|].
    split; [eexists; apply dict_get_app_new; exact Hget|].
    split; [|split].
    + intros other Hne. rewrite <- (dict_set_absent _ _ _ Hget).
      apply dict_get_set_ne. intros E. apply py_str_inj in E. contradiction.
    + intros Hnd. rewrite List.map_app. simpl.
      apply NoDup_app. split; [exact Hnd|]. split; [|apply NoDup_singleton].
      intros k Hk Hk'. apply list_elem_of_In in Hk. apply list_elem_of_singleton in Hk'.
      subst k. apply dict_get_None in Hget. contradiction.
    + intros save_ok'. unfold add_group. simpl.
      rewrite (dict_get_app_new _ _ _ Hget). reflexivity.
Qed.

(** * simple_scheduler.py *)

Lemma Qdiv_million m : (inject_Z m / 1000000 == m # 1000000)%Q.
Proof.
  unfold Qdiv, Qmult, Qinv, Qeq, inject_Z. simpl. lia.
Qed.

Lemma Qmillion_lt m n : (m # 1000000 < n # 1000000)%Q <-> m < n.
Proof.
  unfold Qlt. simpl. lia.
Qed.

Lemma Qmillion_pos m : (0 < m # 1000000)%Q <-> 0 < m.
Proof.
  unfold Qlt. simpl. lia.
Qed.

Lemma Qmillion_le m n : (m # 1000000 <= n # 1000000)%Q <-> m <= n.
Proof.
  unfold Qle. simpl. lia.
Qed.

Lemma Qmillion_eq m n : (m # 1000000 == n # 1000000)%Q <-> m = n.
Proof.
  unfold Qeq. simpl. lia.
Qed.

Lemma total_seconds_between_instants a b :
  (total_seconds_between a b == (instant a - instant b) # 1000000)%Q.
Proof.
  unfold total_seconds_between, instant. rewrite Qdiv_million.
  apply Qmillion_eq. lia.
Qed.

Lemma get_daily_rule_keys self group_id draw :
  searcher (fst (get_daily_rule self group_id draw)) = searcher self /\
  List.map fst (groups (fst (get_daily_rule self group_id draw))) = List.map fst (groups self).
Proof.
  destruct (dict_get (groups self) (py_str group_id)) as [group|] eqn:Hget.
  - destruct (get_daily_rule_unfold self group_id draw group Hget) as (Hs & Hg & _).
    split; [exact Hs|]. rewrite Hg, dict_set_keys, Hget. reflexivity.
  - unfold get_daily_rule. rewrite Hget. simpl. split; reflexivity.
Qed.

(** X7: [wait_until_next_run] always sleeps, for more than zero and at
    most 86400 seconds, until the first moment after [now] at which the
    clock shows [daily_time]: today when that time is still ahead,
    tomorrow otherwise. A call at [daily_time] itself sleeps a whole
    day. (With the clock and [daily_time] being times of a day, and
    [now] before the last day that [datetime] can hold.) *)
Theorem wait_until_next_run_within_a_day now daily_time :
  valid_time (time_of_day now) -> valid_time daily_time -> date now < max_ordinal ->
  exists wait_seconds next,
    wait_until_next_run now daily_time = Sleeps wait_seconds /\
    next_run now daily_time = Some next /\
    time_of_day next = daily_time /\
    (date next = date now <-> time_of_day now < daily_time) /\
    (date next = date now + 1 <-> daily_time <= time_of_day now) /\
    (wait_seconds == (instant next - instant now) # 1000000)%Q /\
    (0 < wait_seconds)%Q /\ (wait_seconds <= 86400)%Q /\
    ((wait_seconds == 86400)%Q <-> time_of_day now = daily_time) /\
    (forall day, instant now < day * microseconds_per_day + daily_time ->
                 instant next <= day * microseconds_per_day + daily_time).
Proof.
  unfold valid_time, microseconds_per_day. intros Hnow Hdaily Hdate.
  unfold wait_until_next_run, next_run. simpl.
  destruct (daily_time <=? time_of_day now) eqn:E.
  - apply Z.leb_le in E.
    assert (Hd : (date now + 1 <=? max_ordinal) = true) by (apply Z.leb_le; lia).
    rewrite Hd.
    set (next := {| date := date now + 1; time_of_day := daily_time |}).
    pose proof (total_seconds_between_instants next now) as Hw.
    assert (Hi : instant next - instant now = 86400000000 + daily_time - time_of_day now)
      by (unfold instant, next, microseconds_per_day; simpl; lia).
    assert (Hpos : (0 < total_seconds_between next now)%Q).
    { rewrite Hw. apply Qmillion_pos. lia. }
    rewrite (proj2 (Qltb_lt _ _) Hpos).
    exists (total_seconds_between next now), next.
    split; [reflexivity|]. split; [reflexivity|]. split; [reflexivity|].
    split; [simpl; lia|]. split; [simpl; lia|]. split; [exact Hw|].
    split; [exact Hpos|]. rewrite Hw.
    assert (H86400 : (86400 == 86400000000 # 1000000)%Q) by reflexivity.
    rewrite H86400. split; [apply Qmillion_le; lia|].
    split; [rewrite Qmillion_eq; lia|].
    unfold instant, next, microseconds_per_day. simpl. intros day Hday. lia.
  - apply Z.leb_gt in E.
    set (next := {| date := date now; time_of_day := daily_time |}).
    pose proof (total_seconds_between_instants next now) as Hw.
    assert (Hi : instant next - instant now = daily_time - time_of_day now)
      by (unfold instant, next, microseconds_per_day; simpl; lia).
    assert (Hpos : (0 < total_seconds_between next now)%Q).
    { rewrite Hw. apply Qmillion_pos. lia. }
    rewrite (proj2 (Qltb_lt _ _) Hpos).
    exists (total_seconds_between next now), next.
    split; [reflexivity|]. split; [reflexivity|]. split; [reflexivity|].
    split; [simpl; lia|]. split; [simpl; lia|]. split; [exact Hw|].
    split; [exact Hpos|]. rewrite Hw.
    assert (H86400 : (86400 == 86400000000 # 1000000)%Q) by reflexivity.
    rewrite H86400. split; [apply Qmillion_le; lia|].
    split; [rewrite Qmillion_eq; lia|].
    unfold instant, next, microseconds_per_day. simpl. intros day Hday. lia.
Qed.

Section SchedulerFacts.
Variable py_int : str -> option Z.

Lemma send_daily_rule_to_group_unfold daily_rules group_id draw :
  send_daily_rule_to_group daily_rules group_id draw =
  (fst (get_daily_rule daily_rules group_id draw),
   match snd (get_daily_rule daily_rules group_id draw) with
   | None => []
   | Some rule_data => [(group_id, format_daily_rule_message rule_data)]
   end).
Proof.
  unfold send_daily_rule_to_group.
  destruct (get_daily_rule daily_rules group_id draw) as [daily_rules' [rule_data|]];
    reflexivity.
Qed.

Lemma send_loop_alone rules_searcher draws todo : forall pre n sent,
  NoDup (List.map fst (pre ++ todo)) ->
  (forall key group_id,
     In key (List.map fst todo) -> py_int key = Some group_id -> py_str group_id = key) ->
  send_loop py_int (List.map fst todo) n draws
            {| searcher := rules_searcher; groups := pre ++ todo |} sent =
  ({| searcher := rules_searcher;
      groups := pre ++ fst (each_group_alone py_int rules_searcher n draws todo) |},
   sent ++ snd (each_group_alone py_int rules_searcher n draws todo)).
Proof.
  induction todo as [|[key group] rest IH]; intros pre n sent Hnd Hcanon.
  - simpl. rewrite !app_nil_r. reflexivity.
  - simpl.
    assert (Hpre : ~ In key (List.map fst pre)).
    { rewrite List.map_app in Hnd. simpl in Hnd.
      apply NoDup_app in Hnd. destruct Hnd as (_ & Hdisj & _).
      intros Hin. apply (Hdisj key); [apply list_elem_of_In; exact Hin|left]. }
    assert (Hcanon' : forall key' group_id,
               In key' (List.map fst rest) -> py_int key' = Some group_id ->
               py_str group_id = key')
      by (intros key' group_id Hin; apply Hcanon; right; exact Hin).
    destruct (py_int key) as [group_id|] eqn:Hint.
    + pose proof (Hcanon key group_id (or_introl eq_refl) Hint) as Hkey.
      rewrite !send_daily_rule_to_group_unfold.
      set (whole := {| searcher := rules_searcher; groups := pre ++ (key, group) :: rest |}).
      set (alone := {| searcher := rules_searcher; groups := [(key, group)] |}).
      destruct (dict_set_middle pre rest key group (fst (pick_rule (draws n) group)) Hpre)
        as [Hget Hset].
      destruct (dict_set_middle [] [] key group (fst (pick_rule (draws n) group))
                  ltac:(intros [])) as [Hget1 Hset1].
      simpl in Hget1, Hset1.
      assert (Hw : dict_get (groups whole) (py_str group_id) = Some group)
        by (rewrite Hkey; exact Hget).
      assert (Ha : dict_get (groups alone) (py_str group_id) = Some group)
        by (rewrite Hkey; exact Hget1).
      destruct (get_daily_rule_unfold whole group_id (draws n) group Hw) as (Hs & Hg & Hr).
      destruct (get_daily_rule_unfold alone group_id (draws n) group Ha) as (Hs1 & Hg1 & Hr1).
      rewrite Hkey in Hg, Hg1. simpl in Hg, Hg1. rewrite Hset in Hg.
      rewrite Hset1 in Hg1.
      rewrite Hr, Hr1, Hg1. simpl searcher.
      destruct (fst (get_daily_rule whole group_id (draws n))) as [s' g'] eqn:Ew.
      simpl in Hs, Hg. subst s' g'.
      replace (pre ++ (key, fst (pick_rule (draws n) group)) :: rest)
        with ((pre ++ [(key, fst (pick_rule (draws n) group))]) ++ rest)
        by (rewrite <- app_assoc; reflexivity).
      rewrite IH.
      * destruct (each_group_alone py_int rules_searcher (Datatypes.S n) draws rest)
          as [entries' sent'].
        simpl. rewrite <- !app_assoc. reflexivity.
      * rewrite <- app_assoc. simpl. rewrite List.map_app in *. simpl in *. exact Hnd.
      * exact Hcanon'.
    + replace (pre ++ (key, group) :: rest) with ((pre ++ [(key, group)]) ++ rest)
        by (rewrite <- app_assoc; reflexivity).
      rewrite IH.
      * destruct (each_group_alone py_int rules_searcher (Datatypes.S n) draws rest)
          as [entries' sent'].
        simpl. rewrite <- !app_assoc. reflexivity.
      * rewrite <- app_assoc. simpl. exact Hnd.
      * exact Hcanon'.
Qed.

(** X8: in a daily run the groups do not interfere. When the keys of
    [groups] are distinct and [int] reads from each key only the id that
    [str] writes as this key, [send_daily_rules_to_all_groups] leaves
    every record and sends every message as the run of this group alone
    would: one step of the rotation for each group, in the order of the
    keys. *)
Theorem daily_run_takes_each_group_alone daily_rules draws :
  NoDup (List.map fst (groups daily_rules)) ->
  (forall key group_id,
     In key (List.map fst (groups daily_rules)) ->
     py_int key = Some group_id -> py_str group_id = key) ->
  send_daily_rules_to_all_groups py_int daily_rules draws =
  ({| searcher := searcher daily_rules;
      groups := fst (each_group_alone py_int (searcher daily_rules) 0 draws
                                      (groups daily_rules)) |},
   snd (each_group_alone py_int (searcher daily_rules) 0 draws (groups daily_rules))).
Proof.
  intros Hnd Hcanon. destruct daily_rules as [rules_searcher entries]. simpl in *.
  unfold send_daily_rules_to_all_groups. simpl groups.
  destruct entries as [|entry entries]; [reflexivity|].
  apply (send_loop_alone rules_searcher draws (entry :: entries) [] 0%nat []).
  - exact Hnd.
  - exact Hcanon.
Qed.

Lemma send_loop_frame draws keys : forall n daily_rules sent,
  searcher (fst (send_loop py_int keys n draws daily_rules sent)) = searcher daily_rules /\
  List.map fst (groups (fst (send_loop py_int keys n draws daily_rules sent)))
    = List.map fst (groups daily_rules) /\
  exists chats,
    sublist chats (omap py_int keys) /\
    Forall2 (fun chat message =>
               fst message = chat /\
               exists rule_data, snd message = format_daily_rule_message rule_data)
            chats
            (drop (length sent) (snd (send_loop py_int keys n draws daily_rules sent))) /\
    take (length sent) (snd (send_loop py_int keys n draws daily_rules sent)) = sent.
Proof.
  induction keys as [|key keys IH]; intros n daily_rules sent.
  - simpl. split; [reflexivity|]. split; [reflexivity|]. exists [].
    rewrite drop_all, firstn_all. split; [constructor|]. split; [constructor|reflexivity].
  - simpl. destruct (py_int key) as [group_id|] eqn:Hint.
    + rewrite send_daily_rule_to_group_unfold.
      destruct (get_daily_rule_keys daily_rules group_id (draws n)) as [Hs Hk].
      set (daily_rules' := fst (get_daily_rule daily_rules group_id (draws n))) in *.
      set (messages := match snd (get_daily_rule daily_rules group_id (draws n)) with
                       | None => []
                       | Some rule_data => [(group_id, format_daily_rule_message rule_data)]
                       end).
      destruct (IH (Datatypes.S n) daily_rules' (sent ++ messages))
        as (IHs & IHk & chats & Hsub & Hall & Htake).
      set (out := send_loop py_int keys (Datatypes.S n) draws daily_rules' (sent ++ messages))
        in *.
      split; [rewrite IHs; exact Hs|]. split; [rewrite IHk; exact Hk|].
      assert (Hout : snd out = (sent ++ messages) ++ drop (length (sent ++ messages)) (snd out)).
      { rewrite <- Htake at 1. rewrite take_drop. reflexivity. }
      rewrite Hout, <- app_assoc.
      rewrite drop_app_length, take_app_length.
      unfold messages in *.
      destruct (snd (get_daily_rule daily_rules group_id (draws n))) as [rule_data|].
      * exists (group_id :: chats). split; [apply sublist_skip; exact Hsub|].
        split; [|reflexivity]. simpl. constructor; [|exact Hall].
        simpl. split; [reflexivity|]. exists rule_data. reflexivity.
      * exists chats. split; [apply sublist_cons; exact Hsub|].
        split; [exact Hall|reflexivity].
    + destruct (IH (Datatypes.S n) daily_rules sent) as (IHs & IHk & chats & Hsub & Hall & Htake).
      split; [exact IHs|]. split; [exact IHk|]. exists chats.
      split; [exact Hsub|]. split; [exact Hall|exact Htake].
Qed.

Lemma key_ids_keys (entries : list (list N * Group)) :
  omap py_int (List.map fst entries) = key_ids py_int entries.
Proof.
  unfold key_ids. induction entries as [|[k g] l IHl]; [reflexivity|].
  simpl. destruct (py_int k); [f_equal|]; exact IHl.
Qed.

Lemma key_ids_length (entries : list (list N * Group)) :
  (length (key_ids py_int entries) <= length entries)%nat.
Proof.
  unfold key_ids. induction entries as [|[k g] l IHl]; [reflexivity|].
  simpl. unfold omap in IHl. destruct (py_int k); simpl; lia.
Qed.

(** X9: whatever the keys of [groups] are, a daily run keeps the corpus
    and the keys of [groups] with their order, and it sends at most one
    message per key: the chat ids of the messages are, in the order of
    the keys, ids that [int] reads from keys, every key being used at
    most once and a key that [int] rejects never; every text is a
    formatted daily rule. *)
Theorem daily_run_one_message_per_key daily_rules draws :
  searcher (fst (send_daily_rules_to_all_groups py_int daily_rules draws))
    = searcher daily_rules /\
  List.map fst (groups (fst (send_daily_rules_to_all_groups py_int daily_rules draws)))
    = List.map fst (groups daily_rules) /\
  sublist (List.map fst (snd (send_daily_rules_to_all_groups py_int daily_rules draws)))
          (key_ids py_int (groups daily_rules)) /\
  (length (snd (send_daily_rules_to_all_groups py_int daily_rules draws))
     <= length (groups daily_rules))%nat /\
  Forall (fun message => exists rule_data, snd message = format_daily_rule_message rule_data)
         (snd (send_daily_rules_to_all_groups py_int daily_rules draws)).
Proof.
  unfold send_daily_rules_to_all_groups.
  destruct (groups daily_rules) as [|entry entries] eqn:Hgroups.
  - simpl. rewrite Hgroups. repeat split; try reflexivity; constructor.
  - rewrite <- Hgroups.
    destruct (send_loop_frame draws (List.map fst (groups daily_rules)) 0 daily_rules [])
      as (Hs & Hk & chats & Hsub & Hall & _).
    simpl in Hall. rewrite drop_0 in Hall.
    set (out := send_loop py_int (List.map fst (groups daily_rules)) 0 draws daily_rules [])
      in *.
    assert (Hchats : List.map fst (snd out) = chats).
    { clear Hsub. induction Hall as [|chat message chats' messages [Hc _] _ IHa];
        [reflexivity|]. simpl. rewrite Hc, IHa. reflexivity. }
    pose proof (key_ids_keys (groups daily_rules)) as Hids.
    split; [exact Hs|]. split; [exact Hk|].
    split; [rewrite Hchats, <- Hids; exact Hsub|]. split.
    + apply sublist_length in Hsub. rewrite <- Hchats, length_map in Hsub.
      etransitivity; [exact Hsub|]. rewrite Hids. apply key_ids_length.
    + clear Hsub Hchats. induction Hall as [|chat message chats' messages [_ Hm] _ IHa];
        constructor; assumption.
Qed.
End SchedulerFacts.

(** * Worked examples for the daily rules and the scheduler *)

Lemma corpus_95_complete n :
  1 <= n <= 95 -> search_by_rule_number corpus_95 n <> None.
Proof.
  intros Hn Hnone. rewrite search_by_rule_number_None in Hnone.
  apply (Hnone {| rule_number := n;
                  text_eng := lit "Rule " ++ py_str n;
                  text_rus := literal "Правило " ++ py_str n |}); [|reflexivity].
  unfold corpus_95, rules. apply in_map_iff. exists n.
  split; [reflexivity|]. apply all_rule_numbers_spec. exact Hn.
Qed.

Lemma decimal_int_canonical key group_id :
  decimal_int key = Some group_id -> forall n, key = py_str n -> py_str group_id = key.
Proof.
  intros H n ->. rewrite decimal_int_str in H. congruence.
Qed.


(** X3 at the same group and two calls. *)
Lemma daily_rules_never_repeat_witness :
  NoDup ([1] ++ [5; 7]) /\
  (length [0%nat; 0%nat] <= length [5; 7])%nat /\
  NoDup (delivered (snd (daily_rules_of example_manager 7 [0%nat; 0%nat]))).
Proof.
  assert (Hnd : NoDup ([1] ++ [5; 7]))
    by (apply (bool_decide_unpack _); vm_compute; reflexivity).
  assert (Hlen : (length [0%nat; 0%nat] <= length [5; 7])%nat) by (simpl; lia).
  split; [exact Hnd|]. split; [exact Hlen|].
  apply (daily_rules_never_repeat example_manager 7 [0%nat; 0%nat]
           {| id_ := 7; used := Some [1]; unused := Some [5; 7] |} [1] [5; 7]
           eq_refl eq_refl eq_refl Hnd Hlen).
Defined.

(** X4 at a new group over the corpus of 95 rules, every call drawing
    the first of the unused numbers. *)
Lemma first_cycle_delivers_every_rule_witness :
  dict_get (groups {| searcher := corpus_95; groups := [] |}) (py_str (-100123)) = None /\
  length (List.repeat 0%nat 95) = 95%nat /\
  Permutation
    (delivered (snd (daily_rules_of
                       (fst (add_group {| searcher := corpus_95; groups := [] |}
                                       (-100123) true))
                       (-100123) (List.repeat 0%nat 95))))
    all_rule_numbers.
Proof.
  split; [reflexivity|]. split; [reflexivity|].
  apply (first_cycle_delivers_every_rule {| searcher := corpus_95; groups := [] |}
           (-100123) true (List.repeat 0%nat 95) eq_refl corpus_95_complete eq_refl).
Defined.

(** X5 at a record without the key ["used"]. *)
Lemma group_without_used_gets_no_rule_witness :
  dict_get (groups example_manager_no_used) (py_str 7)
    = Some {| id_ := 7; used := None; unused := Some [5; 7] |} /\
  Forall (fun result => result = None)
         (snd (daily_rules_of example_manager_no_used 7 [0%nat; 1%nat; 2%nat])).
Proof.
  split; [reflexivity|].
  apply (group_without_used_gets_no_rule example_manager_no_used 7 [0%nat; 1%nat; 2%nat]
           {| id_ := 7; used := None; unused := Some [5; 7] |} eq_refl eq_refl).
Defined.

(** X7 at 09:59:59.5 of a day, the daily time being 10:00. *)
Lemma wait_until_next_run_within_a_day_witness :
  valid_time 35999500000 /\ valid_time 36000000000 /\ 739000 < max_ordinal /\
  exists wait_seconds next,
    wait_until_next_run {| date := 739000; time_of_day := 35999500000 |} 36000000000
      = Sleeps wait_seconds /\
    next_run {| date := 739000; time_of_day := 35999500000 |} 36000000000 = Some next /\
    (0 < wait_seconds)%Q /\ (wait_seconds <= 86400)%Q.
Proof.
  assert (H1 : valid_time 35999500000) by (unfold valid_time, microseconds_per_day; lia).
  assert (H2 : valid_time 36000000000) by (unfold valid_time, microseconds_per_day; lia).
  assert (H3 : 739000 < max_ordinal) by (unfold max_ordinal; lia).
  split; [exact H1|]. split; [exact H2|]. split; [exact H3|].
  destruct (wait_until_next_run_within_a_day
              {| date := 739000; time_of_day := 35999500000 |} 36000000000 H1 H2 H3)
    as (wait_seconds & next & Hw & Hn & _ & _ & _ & _ & Hpos & Hle & _).
  exists wait_seconds, next. split; [exact Hw|]. split; [exact Hn|].
  split; [exact Hpos|exact Hle].
Defined.

(** X8 at two groups, [int] reading decimal strings. *)
Lemma daily_run_takes_each_group_alone_witness :
  NoDup (List.map fst (groups example_manager_two_groups)) /\
  (forall key group_id,
     In key (List.map fst (groups example_manager_two_groups)) ->
     decimal_int key = Some group_id -> py_str group_id = key) /\
  send_daily_rules_to_all_groups decimal_int example_manager_two_groups (fun n => n) =
  ({| searcher := corpus_95;
      groups := fst (each_group_alone decimal_int corpus_95 0 (fun n => n)
                                      (groups example_manager_two_groups)) |},
   snd (each_group_alone decimal_int corpus_95 0 (fun n => n)
                         (groups example_manager_two_groups))).
Proof.
  assert (Hnd : NoDup (List.map fst (groups example_manager_two_groups)))
    by (apply (bool_decide_unpack _); vm_compute; reflexivity).
  assert (Hcanon : forall key group_id,
             In key (List.map fst (groups example_manager_two_groups)) ->
             decimal_int key = Some group_id -> py_str group_id = key).
  { intros key group_id Hin Hint. simpl in Hin.
    destruct Hin as [Hk|[Hk|[]]];
      apply (decimal_int_canonical key group_id Hint _ (eq_sym Hk)). }
  split; [exact Hnd|]. split; [exact Hcanon|].
  apply (daily_run_takes_each_group_alone decimal_int example_manager_two_groups
           (fun n => n) Hnd Hcanon).
Defined.

(** * Facts about [str(n)], [strip] and [split] *)

Lemma lit_String c s : lit (String c s) = N_of_ascii c :: lit s.
Proof. reflexivity. Qed.

Lemma string_of_uint_digits d : Forall ascii_digit (lit (NilEmpty.string_of_uint d)).
Proof.
  induction d; simpl NilEmpty.string_of_uint;
    [constructor|rewrite lit_String; constructor; [unfold ascii_digit; simpl; lia|exact IHd]..].
Qed.

Lemma nilzero_string_of_uint_digits d :
  lit (NilZero.string_of_uint d) <> [] /\ Forall ascii_digit (lit (NilZero.string_of_uint d)).
Proof.
  destruct d.
  - split; [discriminate|].
    constructor; [unfold ascii_digit; simpl; lia|constructor].
  - split; [discriminate|]. exact (string_of_uint_digits (D0 d)).
  - split; [discriminate|]. exact (string_of_uint_digits (D1 d)).
  - split; [discriminate|]. exact (string_of_uint_digits (D2 d)).
  - split; [discriminate|]. exact (string_of_uint_digits (D3 d)).
  - split; [discriminate|]. exact (string_of_uint_digits (D4 d)).
  - split; [discriminate|]. exact (string_of_uint_digits (D5 d)).
  - split; [discriminate|]. exact (string_of_uint_digits (D6 d)).
  - split; [discriminate|]. exact (string_of_uint_digits (D7 d)).
  - split; [discriminate|]. exact (string_of_uint_digits (D8 d)).
  - split; [discriminate|]. exact (string_of_uint_digits (D9 d)).
Qed.

(** [str(n)] is a minus sign for a negative [n] and then decimal
    digits, at least one. *)
Lemma py_str_chars n :
  exists digits,
    digits <> [] /\ Forall ascii_digit digits /\
    py_str n = (if n <? 0 then [45%N] else []) ++ digits.
Proof.
  unfold py_str. destruct n as [|p|p]; simpl Z.to_int; simpl NilZero.string_of_int.
  - exists (lit "0"). split; [discriminate|]. split; [|reflexivity].
    constructor; [unfold ascii_digit; simpl; lia|constructor].
  - exists (lit (NilZero.string_of_uint (Pos.to_uint p))).
    destruct (nilzero_string_of_uint_digits (Pos.to_uint p)) as [Hne Hd].
    split; [exact Hne|]. split; [exact Hd|reflexivity].
  - exists (lit (NilZero.string_of_uint (Pos.to_uint p))).
    destruct (nilzero_string_of_uint_digits (Pos.to_uint p)) as [Hne Hd].
    split; [exact Hne|]. split; [exact Hd|]. rewrite lit_String. reflexivity.
Qed.

Lemma py_str_nonempty n : py_str n <> [].
Proof.
  destruct (py_str_chars n) as (digits & Hne & _ & ->).
  destruct (n <? 0); [discriminate|exact Hne].
Qed.

Lemma py_str_Forall (P : char -> Prop) n :
  P 45%N -> (forall c, ascii_digit c -> P c) -> Forall P (py_str n).
Proof.
  intros Hminus Hdigit. destruct (py_str_chars n) as (digits & _ & Hd & ->).
  apply Forall_app. split.
  - destruct (n <? 0); constructor; [exact Hminus|constructor].
  - eapply Forall_impl; [exact Hd|exact Hdigit].
Qed.

Lemma py_str_nonneg_digits n : 0 <= n -> Forall ascii_digit (py_str n).
Proof.
  intros Hn. destruct (py_str_chars n) as (digits & _ & Hd & ->).
  replace (n <? 0) with false by lia. exact Hd.
Qed.

Lemma ascii_digit_not_space c : ascii_digit c -> isspace c = false.
Proof.
  unfold ascii_digit. intros H.
  assert (Hc : (c = 48 \/ c = 49 \/ c = 50 \/ c = 51 \/ c = 52 \/
                c = 53 \/ c = 54 \/ c = 55 \/ c = 56 \/ c = 57)%N) by lia.
  repeat (destruct Hc as [->|Hc]; [reflexivity|]). subst c. reflexivity.
Qed.

(** ** [strip] *)

Lemma lstrip_head s : no_space_head (lstrip s).
Proof.
  induction s as [|c s IH]; simpl; [exact I|].
  destruct (isspace c) eqn:E; [exact IH|exact E].
Qed.

Lemma lstrip_fix s : no_space_head s -> lstrip s = s.
Proof.
  destruct s as [|c s]; simpl; [reflexivity|]. intros ->. reflexivity.
Qed.

Lemma lstrip_suffix s : exists pre, s = pre ++ lstrip s.
Proof.
  induction s as [|c s [pre IH]]; simpl.
  - exists []. reflexivity.
  - destruct (isspace c).
    + exists (c :: pre). simpl. f_equal. exact IH.
    + exists []. reflexivity.
Qed.

Lemma no_space_head_rev_suffix pre u :
  u <> [] -> no_space_head (rev (pre ++ u)) -> no_space_head (rev u).
Proof.
  intros Hne H. rewrite rev_app_distr in H.
  destruct (rev u) as [|c r] eqn:E.
  - exfalso. apply Hne. rewrite <- (rev_involutive u), E. reflexivity.
  - exact H.
Qed.

(** A string that neither begins nor ends with whitespace is what
    [strip] returns for it. *)
Lemma strip_fix s : no_space_head s -> no_space_head (rev s) -> strip s = s.
Proof.
  intros Hh Hl. unfold strip, rstrip.
  rewrite (lstrip_fix _ Hl), rev_involutive. apply lstrip_fix. exact Hh.
Qed.

Lemma strip_ends s : no_space_head (strip s) /\ no_space_head (rev (strip s)).
Proof.
  split; [apply lstrip_head|].
  unfold strip. set (t := rstrip s).
  destruct (lstrip_suffix t) as [pre Hpre].
  destruct (lstrip t) as [|c u] eqn:E; [exact I|].
  apply (no_space_head_rev_suffix pre); [discriminate|].
  rewrite <- Hpre. unfold t, rstrip. rewrite rev_involutive. apply lstrip_head.
Qed.

Lemma strip_idempotent s : strip (strip s) = strip s.
Proof.
  destruct (strip_ends s) as [Hh Hl]. apply strip_fix; assumption.
Qed.

Lemma strip_no_space s : Forall (fun c => isspace c = false) s -> strip s = s.
Proof.
  intros H. apply strip_fix.
  - destruct H; [exact I|assumption].
  - assert (Hr : Forall (fun c => isspace c = false) (rev s)).
    { apply Forall_forall. intros c Hc. rewrite Forall_forall in H. apply H.
      apply list_elem_of_In. apply in_rev. apply list_elem_of_In. exact Hc. }
    destruct Hr; [exact I|assumption].
Qed.

Lemma strip_py_str n : strip (py_str n) = py_str n.
Proof.
  apply strip_no_space. apply py_str_Forall; [reflexivity|apply ascii_digit_not_space].
Qed.

(** ** [split] at a separator *)

Lemma split_at_no_sep sep s : forall cur,
  Forall (fun c => c <> sep) s -> split_at sep cur s = [rev cur ++ s].
Proof.
  induction s as [|c s IH]; intros cur H; simpl.
  - rewrite app_nil_r. reflexivity.
  - inversion H as [|c' s' Hc Hs]; subst.
    replace (c =? sep)%N with false by (symmetry; apply N.eqb_neq; exact Hc).
    rewrite IH by exact Hs. simpl. rewrite <- app_assoc. reflexivity.
Qed.

Lemma split_rule_data n : split_sep (lit "rule_" ++ py_str n) 95%N = [lit "rule"; py_str n].
Proof.
  unfold split_sep. simpl.
  rewrite split_at_no_sep; [reflexivity|].
  apply py_str_Forall; [discriminate|]. unfold ascii_digit. intros c Hc E. subst c. lia.
Qed.

(** A string that begins with ["rule_"] has a second part. *)
Lemma split_at_length sep s : forall cur, (1 <= length (split_at sep cur s))%nat.
Proof.
  induction s as [|c s IH]; intros cur; simpl; [lia|].
  destruct (c =? sep)%N; [simpl; lia|apply IH].
Qed.

Lemma startswith_prefix p : forall s, startswith s p = true -> exists rest, s = p ++ rest.
Proof.
  induction p as [|x p IH]; intros s H.
  - exists s. reflexivity.
  - destruct s as [|y s]; simpl in H; [discriminate|].
    apply andb_true_iff in H. destruct H as [Hxy Hs]. apply N.eqb_eq in Hxy. subst y.
    destruct (IH s Hs) as [rest ->]. exists rest. reflexivity.
Qed.

Lemma split_rule_prefix data :
  startswith data (lit "rule_") = true -> exists part, item (split_sep data 95%N) 1 = Some part.
Proof.
  intros H. apply startswith_prefix in H. destruct H as [rest ->].
  assert (E : split_sep (lit "rule_" ++ rest) 95%N = lit "rule" :: split_at 95%N [] rest)
    by reflexivity.
  rewrite E. pose proof (split_at_length 95%N rest []) as Hl.
  destruct (split_at 95%N [] rest) as [|part parts]; [simpl in Hl; lia|].
  exists part. reflexivity.
Qed.

Lemma startswith_app p s : startswith (p ++ s) p = true.
Proof.
  induction p as [|x p IH]; simpl; [destruct s; reflexivity|].
  rewrite N.eqb_refl. exact IH.
Qed.

(** * search_rules.py: what the command line prints *)

Section CommandLineFacts.
Variable lower : str -> str.
Variable isdigit_char : char -> bool.
Variable py_int : str -> option Z.
Variable format_3f : Q -> str.

Lemma display_results_list results show_scores :
  results <> [] ->
  (forall result, In result results -> is_direct_rule result <> Some true) ->
  display_results format_3f results show_scores = display_list format_3f results show_scores.
Proof.
  intros Hne Hnot. unfold display_results.
  destruct results as [|result rest]; [congruence|].
  pose proof (Hnot result (or_introl eq_refl)) as H.
  destruct (is_direct_rule result) as [[|]|]; simpl; [congruence|..];
    rewrite andb_false_r; reflexivity.
Qed.

Lemma search_by_keywords_not_direct self keywords threshold result :
  In result (search_by_keywords lower self keywords threshold) ->
  is_direct_rule result = None.
Proof.
  destruct keywords as [|keyword rest]; [intros []|].
  rewrite search_by_keywords_candidates by discriminate.
  intros H. apply (Permutation_in _ (sort_reverse_perm _)) in H.
  apply keyword_candidates_In in H. destruct H as (rule & _ & _ & _ & ->). reflexivity.
Qed.

Lemma fuzzy_search_text_not_direct self query threshold max_results results result :
  isdigit isdigit_char (strip query) = false ->
  fuzzy_search lower isdigit_char py_int self query threshold max_results = Returns results ->
  In result results -> is_direct_rule result = Some false.
Proof.
  intros Hnd Hs Hin. destruct (strip query) as [|c s] eqn:E.
  - unfold fuzzy_search in Hs. rewrite E in Hs. inversion Hs; subst. destruct Hin.
  - rewrite fuzzy_search_text in Hs by (rewrite E; first [discriminate|exact Hnd]).
    inversion Hs; subst. apply slice_to_In in Hin.
    apply (Permutation_in _ (sort_reverse_perm _)) in Hin.
    apply fuzzy_candidates_In in Hin. destruct Hin as (rule & _ & _ & _ & _ & _ & _ & H).
    exact H.
Qed.

Lemma fuzzy_search_number self query threshold max_results :
  isdigit isdigit_char (strip query) = true ->
  fuzzy_search lower isdigit_char py_int self query threshold max_results =
  match py_int (strip query) with
  | None => ValueError
  | Some n =>
      match search_by_rule_number self n with
      | Some rule =>
          Returns [{| result_rule_number := rule_number rule;
                      result_text_eng := text_eng rule;
                      result_text_rus := text_rus rule;
                      similarity_score := 1;
                      matched_language := DirectRuleNumber;
                      is_direct_rule := Some true |}]
      | None => Returns []
      end
  end.
Proof.
  intros Hd. unfold fuzzy_search. rewrite Hd.
  destruct (strip query) as [|c s]; [discriminate|reflexivity].
Qed.

(** X10: which layout [display_results] uses for the results of a
    search. The results of [search_by_keywords] are never shown in the
    layout of a single rule, also when there is one result only: they
    are listed under ["Found n result(s):"]. The results of
    [fuzzy_search] are shown in the layout of a single rule, with the
    number and the texts of the rule that has the number of the query,
    exactly when the query is a digit string; the results of a text
    query are listed. *)
Theorem display_layout_by_search self show_scores :
  (forall keywords threshold,
     display_results format_3f (search_by_keywords lower self keywords threshold) show_scores =
     match search_by_keywords lower self keywords threshold with
     | [] => [lit "No results found."]
     | results => display_list format_3f results show_scores
     end) /\
  (forall query threshold max_results results,
     fuzzy_search lower isdigit_char py_int self query threshold max_results
       = Returns results ->
     match results with
     | [] => display_results format_3f results show_scores = [lit "No results found."]
     | _ =>
         if isdigit isdigit_char (strip query) then
           exists n rule,
             py_int (strip query) = Some n /\
             search_by_rule_number self n = Some rule /\
             rule_number rule = n /\
             display_results format_3f results show_scores =
               [ nl ++ lit "Rule #" ++ py_str n ++ lit ":";
                 str_mul (lit "=") 80;
                 lit "English: " ++ text_eng rule;
                 lit "Russian: " ++ text_rus rule ]
         else
           display_results format_3f results show_scores
             = display_list format_3f results show_scores
     end).
Proof.
  split.
  - intros keywords threshold.
    destruct (search_by_keywords lower self keywords threshold) as [|result rest] eqn:E;
      [reflexivity|].
    apply display_results_list; [discriminate|].
    intros r Hr. rewrite <- E in Hr. apply search_by_keywords_not_direct in Hr.
    congruence.
  - intros query threshold max_results results Hs.
    destruct results as [|result rest]; [reflexivity|].
    destruct (isdigit isdigit_char (strip query)) eqn:Hd.
    + rewrite fuzzy_search_number in Hs by exact Hd.
      destruct (py_int (strip query)) as [n|]; [|discriminate].
      destruct (search_by_rule_number self n) as [rule|] eqn:Hr; [|discriminate].
      inversion Hs; subst. exists n, rule.
      destruct (search_by_rule_number_Some _ _ _ Hr) as [_ Hn].
      split; [reflexivity|]. split; [exact Hr|]. split; [exact Hn|].
      unfold display_results, display_direct. simpl. rewrite Hn. reflexivity.
    + apply display_results_list; [discriminate|].
      intros r Hr.
      rewrite (fuzzy_search_text_not_direct self query threshold max_results _ r Hd Hs Hr).
      discriminate.
Qed.

Lemma isdigit_py_str n :
  (forall c, ascii_digit c -> isdigit_char c = true) -> 0 <= n ->
  isdigit isdigit_char (py_str n) = true.
Proof.
  intros Hdigit Hn. unfold isdigit.
  pose proof (py_str_nonempty n) as Hne. pose proof (py_str_nonneg_digits n Hn) as Hd.
  destruct (py_str n) as [|c s]; [congruence|].
  apply forallb_forall. intros x Hx. apply Hdigit.
  rewrite Forall_forall in Hd. apply Hd. apply list_elem_of_In. exact Hx.
Qed.

(** X11: [--rule n] against the query [n]. For [n > 0] and a corpus
    that has a rule [n], [main] prints for [--rule n] what it prints for
    the positional query [str(n)]: the rule in the layout of a single
    rule; the other arguments are not looked at. When no rule has the
    number, [--rule n] prints ["Rule #n not found."] and the query
    ["No results found."]. [--rule 0] is no [--rule]: [main] goes on to
    [--keywords], the query and the interactive mode, and rule 0 is not
    looked up. (With [isdigit] accepting the ASCII digits and [int]
    reading [str(n)] as [n].) *)
Theorem rule_option_and_numeric_query self args n :
  (forall c, ascii_digit c -> isdigit_char c = true) ->
  py_int (py_str n) = Some n ->
  args_rule args = Some n ->
  (n = 0 ->
   main lower isdigit_char py_int format_3f self args
   = main lower isdigit_char py_int format_3f self (without_rule args)) /\
  (0 < n -> forall rule,
     search_by_rule_number self n = Some rule ->
     main lower isdigit_char py_int format_3f self args
       = Prints [ nl ++ lit "Rule #" ++ py_str n ++ lit ":";
                  str_mul (lit "=") 80;
                  lit "English: " ++ text_eng rule;
                  lit "Russian: " ++ text_rus rule ] /\
     main lower isdigit_char py_int format_3f self (query_only args (py_str n))
       = main lower isdigit_char py_int format_3f self args) /\
  (0 < n ->
   search_by_rule_number self n = None ->
   main lower isdigit_char py_int format_3f self args
     = Prints [ lit "Rule #" ++ py_str n ++ lit " not found." ] /\
   main lower isdigit_char py_int format_3f self (query_only args (py_str n))
     = Prints [ lit "No results found." ]).
Proof.
  intros Hdigit Hint Hrule.
  assert (Hquery : 0 < n ->
            main lower isdigit_char py_int format_3f self (query_only args (py_str n)) =
            match search_by_rule_number self n with
            | Some rule =>
                Prints (display_results format_3f
                          [{| result_rule_number := rule_number rule;
                              result_text_eng := text_eng rule;
                              result_text_rus := text_rus rule;
                              similarity_score := 1;
                              matched_language := DirectRuleNumber;
                              is_direct_rule := Some true |}]
                          (args_show_scores args))
            | None => Prints (display_results format_3f [] (args_show_scores args))
            end).
  { intros Hn. unfold main, query_only, main_search. simpl.
    pose proof (py_str_nonempty n) as Hne.
    destruct (py_str n) as [|c s] eqn:E; [congruence|]. rewrite <- E in Hint |- *.
    rewrite fuzzy_search_number
      by (rewrite strip_py_str; apply isdigit_py_str; [exact Hdigit|lia]).
    rewrite strip_py_str, Hint.
    destruct (search_by_rule_number self n); reflexivity. }
  split; [|split].
  - intros ->. unfold main, without_rule. rewrite Hrule. simpl. reflexivity.
  - intros Hn rule Hr.
    assert (Hm : main lower isdigit_char py_int format_3f self args
                 = Prints [ nl ++ lit "Rule #" ++ py_str n ++ lit ":";
                            str_mul (lit "=") 80;
                            lit "English: " ++ text_eng rule;
                            lit "Russian: " ++ text_rus rule ]).
    { unfold main. rewrite Hrule. replace (n =? 0) with false by lia.
      rewrite Hr. reflexivity. }
    split; [exact Hm|]. rewrite Hm, (Hquery Hn), Hr.
    destruct (search_by_rule_number_Some _ _ _ Hr) as [_ Hnum].
    unfold display_results, display_direct. simpl. rewrite Hnum. reflexivity.
  - intros Hn Hr. split.
    + unfold main. rewrite Hrule. replace (n =? 0) with false by lia.
      rewrite Hr. reflexivity.
    + rewrite (Hquery Hn), Hr. reflexivity.
Qed.
End CommandLineFacts.

(** * telegram_bot.py *)

Lemma NoDup_map_inj {A B} (f : A -> B) (l : list A) :
  (forall x y, f x = f y -> x = y) -> NoDup l -> NoDup (List.map f l).
Proof.
  intros Hinj. induction 1 as [|x l Hx Hl IH]; simpl; constructor.
  - intros Hin. apply Hx. apply list_elem_of_In in Hin. apply in_map_iff in Hin.
    destruct Hin as (y & Hy & Hin). apply Hinj in Hy. subst y.
    apply list_elem_of_In. exact Hin.
  - exact IH.
Qed.

Section BotFacts.
Variable lower : str -> str.
Variable isdigit_char : char -> bool.
Variable py_int : str -> option Z.
Variable searcher : RulesSearcher.

Lemma fuzzy_search_at_most query threshold max_results results :
  1 <= max_results ->
  fuzzy_search lower isdigit_char py_int searcher query threshold max_results
    = Returns results ->
  len results <= max_results.
Proof.
  intros Hmax Hs. destruct (strip query) as [|c s] eqn:E.
  - unfold fuzzy_search in Hs. rewrite E in Hs. inversion Hs. unfold len. simpl. lia.
  - destruct (isdigit isdigit_char (strip query)) eqn:Hd.
    + rewrite fuzzy_search_number in Hs by exact Hd.
      destruct (py_int (strip query)); [|discriminate].
      destruct (search_by_rule_number searcher z); inversion Hs; unfold len; simpl; lia.
    + rewrite fuzzy_search_text in Hs by (first [rewrite E; discriminate|exact Hd]).
      inversion Hs. apply slice_to_nonneg. lia.
Qed.

Lemma fuzzy_search_numbers_NoDup query threshold max_results results :
  NoDup (List.map rule_number (rules searcher)) ->
  fuzzy_search lower isdigit_char py_int searcher query threshold max_results
    = Returns results ->
  NoDup (List.map result_rule_number results).
Proof.
  intros Hnd Hs. destruct (strip query) as [|c s] eqn:E.
  - unfold fuzzy_search in Hs. rewrite E in Hs. inversion Hs. constructor.
  - destruct (isdigit isdigit_char (strip query)) eqn:Hd.
    + rewrite fuzzy_search_number in Hs by exact Hd.
      destruct (py_int (strip query)); [|discriminate].
      destruct (search_by_rule_number searcher z); inversion Hs; simpl.
      * apply NoDup_singleton.
      * constructor.
    + rewrite fuzzy_search_text in Hs by (first [rewrite E; discriminate|exact Hd]).
      inversion Hs as [Hr]. clear Hs.
      set (candidates := fuzzy_candidates lower (strip (lower query)) threshold
                                          (rules searcher)).
      assert (Hc : NoDup (List.map result_rule_number candidates)).
      { eapply sublist_NoDup; [exact Hnd|apply fuzzy_candidates_corpus_order]. }
      assert (Hsorted : NoDup (List.map result_rule_number (sort_reverse candidates))).
      { apply NoDup_ListNoDup.
        eapply Permutation_NoDup; [|apply NoDup_ListNoDup; exact Hc].
        apply Permutation_map. symmetry. apply sort_reverse_perm. }
      destruct (slice_to_prefix (sort_reverse candidates) max_results) as [rest Hrest].
      rewrite Hrest, List.map_app in Hsorted.
      apply NoDup_app in Hsorted. destruct Hsorted as [H _]. exact H.
Qed.

Lemma digit_message_replies message_text :
  isdigit isdigit_char (strip message_text) = true ->
  match py_int (strip message_text) with
  | Some n =>
      handle_message lower isdigit_char py_int searcher message_text
        = Returns [show_rule searcher n] /\
      (search_by_rule_number searcher n <> None ->
       perform_search lower isdigit_char py_int searcher (strip message_text)
         = show_rule searcher n) /\
      (search_by_rule_number searcher n = None ->
       perform_search lower isdigit_char py_int searcher (strip message_text)
         = nothing_found_reply (strip message_text))
  | None =>
      handle_message lower isdigit_char py_int searcher message_text = ValueError /\
      perform_search lower isdigit_char py_int searcher (strip message_text)
        = search_error_reply
  end.
Proof.
  intros Hd.
  assert (Hne : strip message_text <> []) by (intros E; rewrite E in Hd; discriminate).
  assert (Hd' : isdigit isdigit_char (strip (strip message_text)) = true)
    by (rewrite strip_idempotent; exact Hd).
  unfold handle_message, perform_search.
  rewrite (fuzzy_search_number lower isdigit_char py_int searcher _ 0.5 5 Hd').
  rewrite strip_idempotent, Hd.
  destruct (strip message_text) as [|c s] eqn:E; [congruence|].
  destruct (py_int (c :: s)) as [n|]; [|split; reflexivity].
  split; [reflexivity|].
  destruct (search_by_rule_number searcher n) as [rule|] eqn:Hr.
  - split; [|discriminate]. intros _. simpl.
    destruct (search_by_rule_number_Some _ _ _ Hr) as [_ ->]. reflexivity.
  - split; [congruence|]. intros _. reflexivity.
Qed.

(** X12: what a text message is answered. A blank message gets no
    reply. A digit string is answered by [show_rule] for its number
    (the ValueError of [int] is not caught); [perform_search] shows the
    same reply for it when the rule exists. Any other text gets the one
    reply of [perform_search] for the stripped text: nothing found, or
    the list of at most five results with their buttons; the branch of
    [perform_search] for a direct rule number is never taken from
    here. *)
Theorem text_message_replies message_text :
  (strip message_text = [] ->
   handle_message lower isdigit_char py_int searcher message_text = Returns []) /\
  (isdigit isdigit_char (strip message_text) = true ->
   match py_int (strip message_text) with
   | Some n =>
       handle_message lower isdigit_char py_int searcher message_text
         = Returns [show_rule searcher n] /\
       (search_by_rule_number searcher n <> None ->
        perform_search lower isdigit_char py_int searcher (strip message_text)
          = show_rule searcher n) /\
       (search_by_rule_number searcher n = None ->
        perform_search lower isdigit_char py_int searcher (strip message_text)
          = nothing_found_reply (strip message_text))
   | None =>
       handle_message lower isdigit_char py_int searcher message_text = ValueError /\
       perform_search lower isdigit_char py_int searcher (strip message_text)
         = search_error_reply
   end) /\
  (strip message_text <> [] -> isdigit isdigit_char (strip message_text) = false ->
   exists results,
     fuzzy_search lower isdigit_char py_int searcher (strip message_text) 0.5 5
       = Returns results /\
     len results <= 5 /\
     Forall (fun result => is_direct_rule result = Some false) results /\
     handle_message lower isdigit_char py_int searcher message_text
       = Returns [perform_search lower isdigit_char py_int searcher (strip message_text)] /\
     perform_search lower isdigit_char py_int searcher (strip message_text)
       = match results with
         | [] => nothing_found_reply (strip message_text)
         | _ => show_search_results (strip message_text) results
         end).
Proof.
  split; [|split].
  - intros E. unfold handle_message. rewrite E. reflexivity.
  - exact (digit_message_replies message_text).
  - intros Hne Hd.
    assert (Hne' : strip (strip message_text) <> []) by (rewrite strip_idempotent; exact Hne).
    assert (Hd' : isdigit isdigit_char (strip (strip message_text)) = false)
      by (rewrite strip_idempotent; exact Hd).
    pose proof (fuzzy_search_text lower isdigit_char py_int searcher
                  (strip message_text) 0.5 5 Hne' Hd') as Hs.
    eexists. split; [exact Hs|].
    split; [apply (fuzzy_search_at_most (strip message_text) 0.5 5 _ ltac:(lia) Hs)|].
    assert (Hall : Forall (fun result => is_direct_rule result = Some false)
                     (slice_to (sort_reverse
                        (fuzzy_candidates lower (strip (lower (strip message_text))) 0.5
                                          (rules searcher))) 5)).
    { apply Forall_forall. intros r Hr. apply list_elem_of_In in Hr.
      apply (fuzzy_search_text_not_direct lower isdigit_char py_int searcher
               (strip message_text) 0.5 5 _ r Hd' Hs Hr). }
    split; [exact Hall|]. split.
    + unfold handle_message. rewrite Hd.
      destruct (strip message_text); [congruence|reflexivity].
    + unfold perform_search. rewrite Hs.
      destruct (slice_to _ 5) as [|result rest]; [reflexivity|].
      inversion Hall as [|? ? Hr _]; subst. rewrite Hr. simpl.
      rewrite andb_false_r. reflexivity.
Qed.

(** X13: the buttons under a list of results name their rules.
    [show_search_results] makes one row with one button for each result,
    in the order of the results, and [handle_callback] reads from the
    callback data of a button the rule number of its result; data that
    begins with ["rule_"] always has the part that is read, so the
    error message of [handle_callback] stands for a part that [int]
    rejects. (With [int] reading [str(n)] as [n].) *)
Theorem search_buttons_name_their_rules query results :
  (forall n, py_int (py_str n) = Some n) ->
  Forall2 (fun result row =>
             exists button,
               row = [button] /\
               button_text button = literal "Правило " ++ py_str (result_rule_number result) /\
               handle_callback py_int (callback_data button)
                 = CallShowRule (result_rule_number result))
          results (reply_markup (show_search_results query results)) /\
  (forall data text,
     handle_callback py_int data = EditMessageText text ->
     exists part, item (split_sep data 95%N) 1 = Some part /\ py_int part = None).
Proof.
  intros Hint. split.
  - change (reply_markup (show_search_results query results))
      with (List.map result_row results).
    induction results as [|result rest IH]; [constructor|].
    change (List.map result_row (result :: rest))
      with (result_row result :: List.map result_row rest).
    constructor; [|exact IH].
    eexists. split; [reflexivity|]. split; [reflexivity|].
    unfold handle_callback. cbn [callback_data].
    rewrite startswith_app, split_rule_data.
    change (item [lit "rule"; py_str (result_rule_number result)] 1)
      with (Some (py_str (result_rule_number result))).
    cbv beta iota. rewrite Hint. reflexivity.
  - intros data text. unfold handle_callback.
    destruct (startswith data (lit "rule_")) eqn:Hs; [|discriminate].
    destruct (split_rule_prefix data Hs) as [part Hp]. rewrite Hp.
    destruct (py_int part) eqn:Hi; [discriminate|]. intros _. exists part. auto.
Qed.

(** X14: the answer to an inline query always has at least one article
    and at most ten. *)
Theorem inline_answer_size inline_query draw :
  (1 <= length (handle_inline_query lower isdigit_char py_int searcher inline_query draw)
   <= 10)%nat.
Proof.
  assert (Hsearch : forall query,
            (1 <= length (inline_search lower isdigit_char py_int searcher query) <= 10)%nat).
  { intros query. unfold inline_search.
    destruct (fuzzy_search lower isdigit_char py_int searcher query 0.4 10)
      as [results|] eqn:Hs; [|simpl; lia].
    apply fuzzy_search_at_most in Hs; [|lia].
    destruct results as [|result rest]; [simpl; lia|].
    rewrite length_map. unfold len in Hs. simpl in *. lia. }
  unfold handle_inline_query.
  destruct (strip inline_query) as [|c s]; [simpl; lia|].
  destruct (existsb _ random_keywords); [|apply Hsearch].
  destruct (search_by_rule_number searcher (randint draw 1 95)); [simpl; lia|apply Hsearch].
Qed.

(** X15: the articles of an inline answer have different ids, as
    Telegram asks, when no two rules of the corpus have the same
    number. *)
Theorem inline_answer_ids_unique inline_query draw :
  NoDup (List.map rule_number (rules searcher)) ->
  NoDup (List.map article_id
           (handle_inline_query lower isdigit_char py_int searcher inline_query draw)).
Proof.
  intros Hnd.
  assert (Hsearch : forall query,
            NoDup (List.map article_id
                     (inline_search lower isdigit_char py_int searcher query))).
  { intros query. unfold inline_search.
    destruct (fuzzy_search lower isdigit_char py_int searcher query 0.4 10)
      as [results|] eqn:Hs; [|apply NoDup_singleton].
    apply (fuzzy_search_numbers_NoDup _ _ _ _ Hnd) in Hs.
    destruct results as [|result rest]; [apply NoDup_singleton|].
    rewrite List.map_map.
    change (List.map (fun x => article_id (result_article x)) (result :: rest))
      with (List.map (fun x => lit "rule_" ++ py_str (result_rule_number x)) (result :: rest)).
    rewrite <- (List.map_map result_rule_number (fun n => lit "rule_" ++ py_str n)).
    apply NoDup_map_inj; [|exact Hs].
    intros x y Hxy. apply app_inv_head in Hxy. apply py_str_inj. exact Hxy. }
  unfold handle_inline_query.
  destruct (strip inline_query) as [|c s].
  - apply (bool_decide_unpack _). vm_compute. reflexivity.
  - destruct (existsb _ random_keywords); [|apply Hsearch].
    destruct (search_by_rule_number searcher (randint draw 1 95));
      [apply NoDup_singleton|apply Hsearch].
Qed.
(** X16: three ways to ask for rule [n], for [n >= 0]: the command
    [/rule n], the message [n] and, when the corpus has the rule, the
    command [/search n] are answered with the same reply, that of
    [show_rule]. For a number that no rule has, [/rule n] and the
    message answer that the rule is not found and [/search n] that
    nothing is found. (With [isdigit] accepting the ASCII digits and
    [int] reading [str(n)] as [n].) *)
Theorem rule_number_three_ways n more_args :
  (forall c, ascii_digit c -> isdigit_char c = true) ->
  py_int (py_str n) = Some n ->
  0 <= n ->
  rule_command py_int searcher (py_str n :: more_args) = show_rule searcher n /\
  handle_message lower isdigit_char py_int searcher (py_str n)
    = Returns [show_rule searcher n] /\
  (search_by_rule_number searcher n <> None ->
   search_command lower isdigit_char py_int searcher [py_str n] = show_rule searcher n) /\
  (search_by_rule_number searcher n = None ->
   search_command lower isdigit_char py_int searcher [py_str n]
     = nothing_found_reply (py_str n) /\
   show_rule searcher n
     = text_reply (literal "❌ Правило #" ++ py_str n ++ literal " не найдено."
                   ++ nl ++ nl ++ literal "💡 Всего правил: 95 (от 1 до 95)")).
Proof.
  intros Hdigit Hint Hn.
  pose proof (isdigit_py_str isdigit_char n Hdigit Hn) as Hd.
  pose proof (strip_py_str n) as Hstrip.
  assert (Hd' : isdigit isdigit_char (strip (py_str n)) = true) by (rewrite Hstrip; exact Hd).
  pose proof (digit_message_replies (py_str n) Hd') as Hnum.
  rewrite Hstrip, Hint in Hnum.
  destruct Hnum as (Hmsg & Hfound & Hmissing).
  split; [unfold rule_command; rewrite Hint; reflexivity|].
  split; [exact Hmsg|].
  assert (Hcmd : search_command lower isdigit_char py_int searcher [py_str n]
                 = perform_search lower isdigit_char py_int searcher (py_str n))
    by reflexivity.
  rewrite Hcmd. split; [exact Hfound|].
  intros Hr. split; [exact (Hmissing Hr)|].
  unfold show_rule. rewrite Hr. reflexivity.
Qed.

Lemma randint_range draw a b : a <= b -> a <= randint draw a b <= b.
Proof.
  intros H. unfold randint.
  pose proof (Z.mod_pos_bound (Z.of_nat draw) (b - a + 1) ltac:(lia)). lia.
Qed.

(** X17: a random rule is a rule from 1 to 95. When the corpus has the
    rules 1 to 95, [/random] always shows a rule, never that it is not
    found, and an inline query with one of the random keywords is
    answered by one article, with the texts of the rule drawn. *)
Theorem random_rule_is_shown draw :
  (forall n, 1 <= n <= 95 -> search_by_rule_number searcher n <> None) ->
  exists rule,
    1 <= rule_number rule <= 95 /\
    rule_number rule = randint draw 1 95 /\
    In rule (rules searcher) /\
    random_command searcher draw
      = text_reply ((literal "Правило " ++ py_str (rule_number rule) ++ nl ++ nl)
                    ++ (text_eng rule ++ nl ++ nl)
                    ++ text_rus rule) /\
    (forall inline_query,
       strip inline_query <> [] ->
       existsb (fun keyword => str_in keyword (lower (strip inline_query))) random_keywords
         = true ->
       handle_inline_query lower isdigit_char py_int searcher inline_query draw
         = [random_article (rule_number rule) rule]).
Proof.
  intros Hcorpus.
  pose proof (randint_range draw 1 95 ltac:(lia)) as Hrange.
  pose proof (Hcorpus _ Hrange) as Hfound.
  destruct (search_by_rule_number searcher (randint draw 1 95)) as [rule|] eqn:Hr;
    [|congruence].
  destruct (search_by_rule_number_Some _ _ _ Hr) as [Hin Hnum].
  exists rule. split; [lia|]. split; [exact Hnum|]. split; [exact Hin|]. split.
  - unfold random_command, show_rule. rewrite Hr. reflexivity.
  - intros inline_query Hne Hkw. unfold handle_inline_query.
    destruct (strip inline_query) as [|c s] eqn:E; [congruence|].
    rewrite Hkw, Hr, Hnum. reflexivity.
Qed.

(** X18: an inline query that is a rule number. When the stripped query
    is a digit string and holds none of the random keywords, the answer
    has one article: that of the first rule with the number that [int]
    reads, its id being ["rule_n"] and its message the full texts of the
    rule; the article that nothing is found, when no rule has the
    number; the article of an error, when [int] rejects the digit
    string. *)
Theorem inline_rule_number_query inline_query draw :
  isdigit isdigit_char (strip inline_query) = true ->
  existsb (fun keyword => str_in keyword (lower (strip inline_query))) random_keywords
    = false ->
  handle_inline_query lower isdigit_char py_int searcher inline_query draw
  = match py_int (strip inline_query) with
    | Some n =>
        match search_by_rule_number searcher n with
        | Some rule =>
            [ {| article_id := lit "rule_" ++ py_str n;
                 title := literal "Правило " ++ py_str n;
                 description := preview 120 (text_rus rule);
                 message_text :=
                   (literal "Правило " ++ py_str n ++ nl ++ nl)
                   ++ (text_eng rule ++ nl ++ nl)
                   ++ text_rus rule |} ]
        | None => [no_results_article (strip inline_query)]
        end
    | None => [error_article]
    end.
Proof.
  intros Hd Hkw. unfold handle_inline_query.
  assert (Hd' : isdigit isdigit_char (strip (strip inline_query)) = true)
    by (rewrite strip_idempotent; exact Hd).
  destruct (strip inline_query) as [|c s] eqn:E; [discriminate|].
  rewrite Hkw. unfold inline_search. rewrite <- E in *.
  rewrite fuzzy_search_number by exact Hd'.
  rewrite strip_idempotent.
  destruct (py_int (strip inline_query)) as [n|]; [|reflexivity].
  destruct (search_by_rule_number searcher n) as [rule|] eqn:Hr; [|reflexivity].
  destruct (search_by_rule_number_Some _ _ _ Hr) as [_ Hnum].
  unfold result_article. simpl. rewrite Hnum. reflexivity.
Qed.
End BotFacts.

(** * Worked examples for the command line and the bot *)

Lemma ascii_isdigit_digits c : ascii_digit c -> ascii_isdigit_char c = true.
Proof.
  unfold ascii_digit, ascii_isdigit_char. intros H.
  apply andb_true_iff. split; apply N.leb_le; lia.
Qed.

(** X11 at [--rule 5] over the example corpus. *)
Lemma rule_option_and_numeric_query_witness :
  ascii_int (py_str 5) = Some 5 /\
  main ascii_lower ascii_isdigit_char ascii_int (fun _ => lit "1.000") example_corpus
       (query_only {| args_query := None; args_rule := Some 5; args_keywords := None;
                      args_threshold := 0.6; args_max_results := 10;
                      args_show_scores := false |}
                   (py_str 5))
  = main ascii_lower ascii_isdigit_char ascii_int (fun _ => lit "1.000") example_corpus
         {| args_query := None; args_rule := Some 5; args_keywords := None;
            args_threshold := 0.6; args_max_results := 10; args_show_scores := false |}.
Proof.
  split; [reflexivity|].
  destruct (rule_option_and_numeric_query ascii_lower ascii_isdigit_char ascii_int
              (fun _ => lit "1.000") example_corpus
              {| args_query := None; args_rule := Some 5; args_keywords := None;
                 args_threshold := 0.6; args_max_results := 10; args_show_scores := false |}
              5 ascii_isdigit_digits eq_refl eq_refl) as (_ & Hfound & _).
  destruct (Hfound ltac:(lia)
              {| rule_number := 5; text_eng := lit "Harden up"; text_rus := lit "rules y" |}
              eq_refl) as [_ H].
  exact H.
Defined.

(** X13 at two results. *)
Lemma search_buttons_name_their_rules_witness :
  (forall n, decimal_int (py_str n) = Some n) /\
  Forall2 (fun result row =>
             exists button,
               row = [button] /\
               button_text button = literal "Правило " ++ py_str (result_rule_number result) /\
               handle_callback decimal_int (callback_data button)
                 = CallShowRule (result_rule_number result))
          [ {| result_rule_number := 5; result_text_eng := lit "Harden up";
               result_text_rus := lit "rules y"; similarity_score := 1;
               matched_language := Russian; is_direct_rule := Some false |};
            {| result_rule_number := 7; result_text_eng := lit "rules rule";
               result_text_rus := lit "z"; similarity_score := 1;
               matched_language := English; is_direct_rule := Some false |} ]
          (reply_markup
             (show_search_results (lit "rules")
                [ {| result_rule_number := 5; result_text_eng := lit "Harden up";
                     result_text_rus := lit "rules y"; similarity_score := 1;
                     matched_language := Russian; is_direct_rule := Some false |};
                  {| result_rule_number := 7; result_text_eng := lit "rules rule";
                     result_text_rus := lit "z"; similarity_score := 1;
                     matched_language := English; is_direct_rule := Some false |} ])).
Proof.
  split; [exact decimal_int_str|].
  apply (search_buttons_name_their_rules decimal_int (lit "rules") _ decimal_int_str).
Defined.

(** X15 at the inline query ["rules"] over the example corpus. *)
Lemma inline_answer_ids_unique_witness :
  NoDup (List.map rule_number (rules example_corpus)) /\
  NoDup (List.map article_id
           (handle_inline_query ascii_lower ascii_isdigit_char ascii_int example_corpus
                                (lit "rules") 0)).
Proof.
  assert (Hnd : NoDup (List.map rule_number (rules example_corpus)))
    by (apply (bool_decide_unpack _); vm_compute; reflexivity).
  split; [exact Hnd|].
  apply (inline_answer_ids_unique ascii_lower ascii_isdigit_char ascii_int example_corpus
           (lit "rules") 0 Hnd).
Defined.

(** The inline query ["rules"] over the example corpus: the three rules,
    in corpus order (every score is 1.0). *)
Example inline_query_rules :
  List.map article_id
    (handle_inline_query ascii_lower ascii_isdigit_char ascii_int example_corpus
                         (lit " rules ") 0)
  = [lit "rule_1"; lit "rule_5"; lit "rule_7"].
Proof. vm_compute. reflexivity. Qed.

(** The inline query ["dice"] asks for a random rule: the draw 4 gives
    rule 5. With the draw 1 the number is 2, which the example corpus
    does not have, and the query is searched for as a text. *)
Example inline_query_dice :
  List.map article_id
    (handle_inline_query ascii_lower ascii_isdigit_char ascii_int example_corpus
                         (lit "dice") 4)
  = [lit "random_5"] /\
  List.map article_id
    (handle_inline_query ascii_lower ascii_isdigit_char ascii_int example_corpus
                         (lit "dice") 1)
  = [lit "no_results"].
Proof. split; vm_compute; reflexivity. Qed.

(** The message ["5"] and the message ["8"] over the example corpus. *)
Example text_message_numbers :
  handle_message ascii_lower ascii_isdigit_char ascii_int example_corpus (lit " 5 ")
  = Returns [text_reply (literal "Правило 5" ++ nl ++ nl ++ lit "Harden up"
                         ++ nl ++ nl ++ lit "rules y")] /\
  handle_message ascii_lower ascii_isdigit_char ascii_int example_corpus (lit "8")
  = Returns [text_reply (literal "❌ Правило #8 не найдено." ++ nl ++ nl
                         ++ literal "💡 Всего правил: 95 (от 1 до 95)")].
Proof. split; vm_compute; reflexivity. Qed.

(** [python search_rules.py --keywords rules] over the example corpus,
    with one result: listed, not shown as a single rule. *)
Example main_keywords_one_result :
  main ascii_lower ascii_isdigit_char ascii_int (fun _ => lit "1.000") example_corpus
       {| args_query := None; args_rule := None; args_keywords := Some [lit "harden"];
          args_threshold := 0.5; args_max_results := 10; args_show_scores := false |}
  = Prints [ nl ++ lit "Found 1 result(s):";
             str_mul (lit "=") 80;
             nl ++ lit "1. Rule #5";
             lit "   English: Harden up";
             lit "   Russian: rules y";
             str_mul (lit "-") 80 ].
Proof. vm_compute. reflexivity. Qed.

(** X16 at rule 5 of the example corpus. *)
Lemma rule_number_three_ways_witness :
  ascii_int (py_str 5) = Some 5 /\ 0 <= 5 /\
  rule_command ascii_int example_corpus [py_str 5] = show_rule example_corpus 5 /\
  handle_message ascii_lower ascii_isdigit_char ascii_int example_corpus (py_str 5)
    = Returns [show_rule example_corpus 5].
Proof.
  assert (Hn : 0 <= 5) by lia.
  split; [reflexivity|]. split; [exact Hn|].
  destruct (rule_number_three_ways ascii_lower ascii_isdigit_char ascii_int example_corpus
              5 [] ascii_isdigit_digits eq_refl Hn) as (Hcommand & Hmessage & _).
  split; [exact Hcommand|exact Hmessage].
Defined.

(** X17 over the corpus of 95 rules. *)
Lemma random_rule_is_shown_witness :
  (forall n, 1 <= n <= 95 -> search_by_rule_number corpus_95 n <> None) /\
  exists rule,
    1 <= rule_number rule <= 95 /\
    rule_number rule = randint 4 1 95 /\
    In rule (rules corpus_95).
Proof.
  split; [exact corpus_95_complete|].
  destruct (random_rule_is_shown ascii_lower ascii_isdigit_char ascii_int corpus_95 4
              corpus_95_complete) as (rule & Hrange & Hdraw & Hin & _).
  exists rule. split; [exact Hrange|]. split; [exact Hdraw|exact Hin].
Defined.

(** X18 at the inline query [" 5 "] over the example corpus. *)
Lemma inline_rule_number_query_witness :
  isdigit ascii_isdigit_char (strip (lit " 5 ")) = true /\
  existsb (fun keyword => str_in keyword (ascii_lower (strip (lit " 5 ")))) random_keywords
    = false /\
  List.map article_id
    (handle_inline_query ascii_lower ascii_isdigit_char ascii_int example_corpus
                         (lit " 5 ") 0)
  = [lit "rule_" ++ py_str 5].
Proof.
  split; [reflexivity|]. split; [reflexivity|].
  rewrite (inline_rule_number_query ascii_lower ascii_isdigit_char ascii_int example_corpus
             (lit " 5 ") 0 eq_refl eq_refl).
  reflexivity.
Defined.

(** * What a score says about the words of the query *)

Lemma str_in_cons sub c s :
  str_in sub (c :: s) = startswith (c :: s) sub || str_in sub s.
Proof. reflexivity. Qed.

Lemma str_in_spec sub s :
  str_in sub s = true <-> exists pre post, s = pre ++ sub ++ post.
Proof.
  split.
  - induction s as [|c s IH]; intros H.
    + destruct sub; [|discriminate]. exists [], []. reflexivity.
    + rewrite str_in_cons in H. apply orb_true_iff in H. destruct H as [H|H].
      * apply startswith_prefix in H. destruct H as [rest E]. exists [], rest. exact E.
      * destruct (IH H) as (pre & post & ->). exists (c :: pre), post. reflexivity.
  - intros (pre & post & ->). induction pre as [|c pre IH].
    + change ([] ++ sub ++ post) with (sub ++ post).
      destruct (sub ++ post) as [|c rest] eqn:E.
      * destruct sub; [reflexivity|discriminate].
      * rewrite str_in_cons, <- E, startswith_app. reflexivity.
    + change ((c :: pre) ++ sub ++ post) with (c :: (pre ++ sub ++ post)).
      rewrite str_in_cons, IH. apply orb_true_r.
Qed.

Lemma str_in_trans a b c : str_in a b = true -> str_in b c = true -> str_in a c = true.
Proof.
  rewrite !str_in_spec. intros (pre1 & post1 & ->) (pre2 & post2 & ->).
  exists (pre2 ++ pre1), (post1 ++ post2). rewrite <- !app_assoc. reflexivity.
Qed.

Lemma split_from_words s : forall cur word,
  In word (split_from cur s) -> exists pre post, rev cur ++ s = pre ++ word ++ post.
Proof.
  induction s as [|c s IH]; intros cur word H; simpl in H.
  - destruct cur as [|x cur]; [destruct H|].
    destruct H as [<-|[]]. exists [], []. rewrite !app_nil_r. reflexivity.
  - destruct (isspace c).
    + destruct cur as [|x cur].
      * destruct (IH [] word H) as (pre & post & E). simpl in E.
        exists (c :: pre), post. simpl. rewrite E. reflexivity.
      * destruct H as [<-|H].
        -- exists [], (c :: s). reflexivity.
        -- destruct (IH [] word H) as (pre & post & E). simpl in E.
           exists (rev (x :: cur) ++ c :: pre), post.
           rewrite E, <- !app_assoc. reflexivity.
    + destruct (IH (c :: cur) word H) as (pre & post & E).
      exists pre, post. rewrite <- E. simpl. rewrite <- app_assoc. reflexivity.
Qed.

(** A word of [s.split()] occurs in [s]. *)
Lemma split_word_in s word : In word (split s) -> str_in word s = true.
Proof.
  intros H. apply str_in_spec. apply (split_from_words s [] word H).
Qed.

Lemma split_from_cur s : forall cur, cur <> [] -> split_from cur s <> [].
Proof.
  induction s as [|c s IH]; intros cur Hne; simpl.
  - destruct cur; [congruence|discriminate].
  - destruct (isspace c).
    + destruct cur; [congruence|discriminate].
    + apply IH. discriminate.
Qed.

(** A stripped string that is not empty has a word. *)
Lemma split_strip_nonempty s : strip s <> [] -> split (strip s) <> [].
Proof.
  intros Hne. destruct (strip_ends s) as [Hh _].
  destruct (strip s) as [|c rest]; [congruence|]. simpl in Hh.
  unfold split. simpl. rewrite Hh. apply split_from_cur. discriminate.
Qed.

(** The sequence branch fires only when the first query word is a word
    of the text. *)
Lemma method2_first_word query_words text score :
  method2 query_words text = Some score ->
  exists word, In word query_words /\ In word (split text).
Proof.
  unfold method2. destruct (1 <? len query_words) eqn:Hlen; [|discriminate].
  destruct (Qltb 0.8 _) eqn:Hgt; [|discriminate]. intros _.
  apply Qltb_lt in Hgt. unfold _calculate_sequence_similarity in Hgt.
  destruct (len query_words <? 2); [lra|].
  destruct (sequence_loop_spec query_words (split text)
              (len (split text) - len query_words + 1))
    as [_ [(i & g & _ & Hm & _)|[Hr _]]].
  - inversion Hm as [|word rest last_pos k gaps Hk Hitem _ _]; subst.
    + apply Z.ltb_lt in Hlen. unfold len in Hlen. simpl in Hlen. lia.
    + exists word. split; [left; reflexivity|].
      unfold item in Hitem. destruct (k <? 0); [discriminate|].
      apply list_elem_of_In. eapply list_elem_of_lookup_2. exact Hitem.
  - simpl in Hr. rewrite Hr in Hgt. lra.
Qed.

(** When no word of the query occurs in the text, only the fallback is
    left, and it gives at most 0.475. *)
Lemma no_literal_word_low_score query text :
  split query <> [] ->
  (forall word, In word (split query) -> str_in word text = false) ->
  (_calculate_similarity query text <= 0.475)%Q.
Proof.
  intros Hne Hnone.
  destruct (calculate_similarity_cases query text)
    as [[Hin _]|[(_ & s & Hm & _)|[(_ & _ & s & Hm & _)|[(_ & _ & _ & s & Hm & _)|[_ ->]]]]].
  - exfalso. destruct (split query) as [|word rest] eqn:E; [congruence|].
    assert (Hw : In word (split query)) by (rewrite E; left; reflexivity).
    rewrite <- E in Hnone.
    pose proof (str_in_trans _ _ _ (split_word_in _ _ Hw) Hin) as H.
    rewrite (Hnone word Hw) in H. discriminate.
  - exfalso. destruct (method2_first_word _ _ _ Hm) as (word & Hq & Ht).
    apply split_word_in in Ht. rewrite (Hnone word Hq) in Ht. discriminate.
  - exfalso. unfold method3 in Hm.
    destruct (1 <? len (split query)) eqn:Hlen; [|discriminate].
    apply Z.ltb_lt in Hlen.
    assert (Hf : List.filter (fun word => str_in word text) (split query) = []).
    { clear Hm Hlen Hne. induction (split query) as [|w ws IH]; [reflexivity|].
      simpl. rewrite (Hnone w (or_introl eq_refl)). apply IH.
      intros word Hw. apply Hnone. right. exact Hw. }
    rewrite Hf in Hm. change (len []) with 0 in Hm.
    replace (0 =? len (split query)) with false in Hm by lia.
    destruct (Qltb _ _) eqn:Hq; [|discriminate].
    apply Qltb_lt in Hq.
    assert (H1 : (1 <= inject_Z (len (split query)))%Q) by (apply inject_Z_ge_1; lia).
    change (inject_Z 0) with 0%Q in Hq. lra.
  - exfalso. unfold method4 in Hm.
    destruct (split query) as [|w [|w' rest]]; try discriminate.
    rewrite (Hnone w (or_introl eq_refl)) in Hm. discriminate.
  - apply fallback_words_bounds. exact Hne.
Qed.

Lemma literal_word_of_score query text :
  split query <> [] ->
  (0.475 < _calculate_similarity query text)%Q ->
  exists word, In word (split query) /\ str_in word text = true.
Proof.
  intros Hne Hscore.
  destruct (existsb (fun word => str_in word text) (split query)) eqn:E.
  - apply existsb_exists in E. exact E.
  - exfalso.
    assert (Hnone : forall word, In word (split query) -> str_in word text = false).
    { intros word Hw. destruct (str_in word text) eqn:Hin; [|reflexivity].
      assert (Ht : existsb (fun word => str_in word text) (split query) = true)
        by (apply existsb_exists; exists word; auto).
      congruence. }
    pose proof (no_literal_word_low_score query text Hne Hnone). lra.
Qed.

(** Whether the phrase occurs in the text decides between the score 1.0
    and a score of at most 0.9. *)
Lemma phrase_score query text :
  split query <> [] ->
  (str_in query text = true /\ _calculate_similarity query text = 1%Q) \/
  (str_in query text = false /\ (_calculate_similarity query text <= 0.9)%Q).
Proof.
  intros Hne.
  destruct (calculate_similarity_cases query text)
    as [[Hin H]|[(Hin & s & Hm & ->)|[(Hin & _ & s & Hm & ->)|
        [(Hin & _ & _ & s & Hm & ->)|[[Hin _] ->]]]]].
  - left. auto.
  - right. split; [exact Hin|]. apply method2_Some in Hm. destruct Hm as (_ & _ & Hs). lra.
  - right. split; [exact Hin|]. apply method3_Some in Hm. destruct Hm as (_ & Hs). lra.
  - right. split; [exact Hin|]. apply method4_Some in Hm. destruct Hm as (_ & ->). lra.
  - right. split; [exact Hin|].
    pose proof (fallback_words_bounds query (split query) text Hne). lra.
Qed.

Lemma fmax_phrase (in_eng in_rus : bool) (eng_score rus_score : Q) :
  (in_eng = true /\ eng_score = 1%Q) \/ (in_eng = false /\ (eng_score <= 0.9)%Q) ->
  (in_rus = true /\ rus_score = 1%Q) \/ (in_rus = false /\ (rus_score <= 0.9)%Q) ->
  ((in_eng = true \/ in_rus = true) /\ fmax eng_score rus_score = 1%Q) \/
  (~ (in_eng = true \/ in_rus = true) /\ (fmax eng_score rus_score <= 0.9)%Q).
Proof.
  intros [[-> ->]|[-> He]] [[-> ->]|[-> Hr]].
  - left. split; [auto|]. destruct (fmax_cases 1 1) as [[-> _]|[-> _]]; reflexivity.
  - left. split; [auto|].
    destruct (fmax_cases 1 rus_score) as [[_ H]|[-> _]]; [exfalso; lra|reflexivity].
  - left. split; [auto|].
    destruct (fmax_cases eng_score 1) as [[-> _]|[_ H]]; [reflexivity|exfalso; lra].
  - right. split; [intros [H|H]; discriminate|].
    destruct (fmax_cases eng_score rus_score) as [[-> _]|[-> _]]; assumption.
Qed.

Section ScoreFacts.
Variable lower : str -> str.
Variable isdigit_char : char -> bool.
Variable py_int : str -> option Z.

(** X19: above the threshold 0.475 there is no match without a literal
    word. For a text query, every result of [fuzzy_search] with a
    threshold above 0.475 (the bot searches messages with 0.5, the
    command line with 0.6 by default) is the result of a rule one of
    whose lower-cased texts holds a word of the lower-cased query as a
    substring: the edit-distance fallback alone never reaches such a
    threshold. *)
Theorem threshold_needs_literal_word self query threshold max_results results :
  isdigit isdigit_char (strip query) = false ->
  strip (lower query) <> [] ->
  (0.475 < threshold)%Q ->
  fuzzy_search lower isdigit_char py_int self query threshold max_results
    = Returns results ->
  forall result, In result results ->
    exists rule word,
      In rule (rules self) /\
      result_rule_number result = rule_number rule /\
      result_text_eng result = text_eng rule /\
      result_text_rus result = text_rus rule /\
      In word (split (strip (lower query))) /\
      (str_in word (lower (text_eng rule)) = true \/
       str_in word (lower (text_rus rule)) = true).
Proof.
  intros Hd Hlower Hthreshold Hs result Hin.
  destruct (strip query) as [|c s] eqn:E.
  { unfold fuzzy_search in Hs. rewrite E in Hs. inversion Hs; subst. destruct Hin. }
  rewrite fuzzy_search_text in Hs by (rewrite E; first [discriminate|exact Hd]).
  inversion Hs; subst. apply slice_to_In in Hin.
  apply (Permutation_in _ (sort_reverse_perm _)) in Hin.
  apply fuzzy_candidates_In in Hin.
  destruct Hin as (rule & Hrule & Hnum & Heng & Hrus & Hscore & Hge & _).
  simpl in Hscore.
  pose proof (split_strip_nonempty _ Hlower) as Hwords.
  assert (Hbest : (0.475 < fmax (_calculate_similarity (strip (lower query))
                                                       (lower (text_eng rule)))
                                 (_calculate_similarity (strip (lower query))
                                                       (lower (text_rus rule))))%Q)
    by (rewrite <- Hscore; lra).
  destruct (fmax_cases (_calculate_similarity (strip (lower query)) (lower (text_eng rule)))
                       (_calculate_similarity (strip (lower query)) (lower (text_rus rule))))
    as [[Hm _]|[Hm _]]; rewrite Hm in Hbest;
    destruct (literal_word_of_score _ _ Hwords Hbest) as (word & Hw & Hword);
    exists rule, word; auto 10.
Qed.

(** X20: a rule that holds the query as a phrase is ranked before every
    rule that does not. In the results of [fuzzy_search] for a text
    query, a result has the score 1.0 exactly when the lower-cased,
    stripped query occurs in one of its lower-cased texts, every other
    result has at most 0.9, and every result that stands before a result
    with the phrase has the phrase too. *)
Theorem exact_phrase_ranks_first self query threshold max_results before result after :
  isdigit isdigit_char (strip query) = false ->
  strip (lower query) <> [] ->
  fuzzy_search lower isdigit_char py_int self query threshold max_results
    = Returns (before ++ result :: after) ->
  (has_phrase lower (strip (lower query)) result ->
   similarity_score result = 1%Q /\
   forall earlier, In earlier before -> has_phrase lower (strip (lower query)) earlier) /\
  (~ has_phrase lower (strip (lower query)) result ->
   (similarity_score result <= 0.9)%Q).
Proof.
  intros Hd Hlower Hs.
  destruct (strip query) as [|c s] eqn:E.
  { unfold fuzzy_search in Hs. rewrite E in Hs. inversion Hs as [Hnil].
    destruct before; discriminate. }
  rewrite fuzzy_search_text in Hs by (rewrite E; first [discriminate|exact Hd]).
  inversion Hs as [Hres]. clear Hs.
  pose proof (split_strip_nonempty _ Hlower) as Hwords.
  set (query_lower := strip (lower query)) in *.
  set (candidates := fuzzy_candidates lower query_lower threshold (rules self)) in *.
  assert (Hscore : forall r, In r (before ++ result :: after) ->
            (has_phrase lower query_lower r /\ similarity_score r = 1%Q) \/
            (~ has_phrase lower query_lower r /\ (similarity_score r <= 0.9)%Q)).
  { intros r Hr. rewrite <- Hres in Hr. apply slice_to_In in Hr.
    apply (Permutation_in _ (sort_reverse_perm _)) in Hr.
    apply fuzzy_candidates_In in Hr.
    destruct Hr as (rule & _ & _ & Heng & Hrus & Hsc & _). simpl in Hsc.
    unfold has_phrase. rewrite Heng, Hrus, Hsc.
    apply fmax_phrase; apply phrase_score; exact Hwords. }
  assert (Hsorted : sorted_desc (before ++ result :: after)).
  { destruct (slice_to_prefix (sort_reverse candidates) max_results) as [rest Hrest].
    rewrite Hres in Hrest. apply (sorted_desc_app_l _ rest). rewrite <- Hrest.
    apply sort_reverse_sorted. }
  assert (Hresult : In result (before ++ result :: after))
    by (apply in_or_app; right; left; reflexivity).
  split.
  - intros Hp. destruct (Hscore result Hresult) as [[_ H1]|[Hn _]]; [|contradiction].
    split; [exact H1|]. intros earlier He.
    assert (Hearlier : In earlier (before ++ result :: after))
      by (apply in_or_app; left; exact He).
    destruct (Hscore earlier Hearlier) as [[H _]|[_ Hlow]]; [exact H|]. exfalso.
    assert (Hle : (similarity_score result <= similarity_score earlier)%Q).
    { clear - Hsorted He. unfold sorted_desc in Hsorted.
      induction before as [|b before IH]; [destruct He|].
      simpl in Hsorted. inversion Hsorted as [|? ? Hs Hall]; subst.
      destruct He as [->|He]; [|apply IH; assumption].
      rewrite Forall_forall in Hall. apply Hall.
      apply list_elem_of_In. apply in_or_app. right. left. reflexivity. }
    rewrite H1 in Hle. lra.
  - intros Hn. destruct (Hscore result Hresult) as [[H _]|[_ Hlow]]; [contradiction|exact Hlow].
Qed.
End ScoreFacts.

(** X19 at the query ["rules"] over the example corpus, with the
    threshold 0.5 of the bot. *)
Lemma threshold_needs_literal_word_witness :
  isdigit ascii_isdigit_char (strip (lit "rules")) = false /\
  strip (ascii_lower (lit "rules")) <> [] /\
  (0.475 < 0.5)%Q /\
  exists results,
    fuzzy_search ascii_lower ascii_isdigit_char ascii_int example_corpus (lit "rules") 0.5 10
      = Returns results /\
    forall result, In result results ->
      exists rule word,
        In rule (rules example_corpus) /\
        result_rule_number result = rule_number rule /\
        In word (split (strip (ascii_lower (lit "rules")))) /\
        (str_in word (ascii_lower (text_eng rule)) = true \/
         str_in word (ascii_lower (text_rus rule)) = true).
Proof.
  assert (Hd : isdigit ascii_isdigit_char (strip (lit "rules")) = false) by reflexivity.
  assert (Hne : strip (lit "rules") <> []) by (vm_compute; discriminate).
  assert (Hlower : strip (ascii_lower (lit "rules")) <> []) by (vm_compute; discriminate).
  assert (Hthreshold : (0.475 < 0.5)%Q) by lra.
  split; [exact Hd|]. split; [exact Hlower|]. split; [exact Hthreshold|].
  pose proof (fuzzy_search_text ascii_lower ascii_isdigit_char ascii_int example_corpus
                (lit "rules") 0.5 10 Hne Hd) as Hs.
  eexists. split; [exact Hs|].
  intros result Hin.
  destruct (threshold_needs_literal_word ascii_lower ascii_isdigit_char ascii_int
              example_corpus (lit "rules") 0.5 10 _ Hd Hlower Hthreshold Hs result Hin)
    as (rule & word & Hrule & Hnum & _ & _ & Hword & Hlit).
  exists rule, word.
  split; [exact Hrule|]. split; [exact Hnum|]. split; [exact Hword|exact Hlit].
Defined.

(** X20 at the query ["Ride hard"] over a corpus whose first rule has the
    words but not the phrase: the two rules with the phrase, 1 and 3,
    come first, and rule 2 comes last with a score of at most 0.9. The
    theorem is used at the second result, which has a result before it
    and one after it, and at the third. *)
Lemma exact_phrase_ranks_first_witness :
  isdigit ascii_isdigit_char (strip (lit "Ride hard")) = false /\
  strip (ascii_lower (lit "Ride hard")) <> [] /\
  exists first second third,
    fuzzy_search ascii_lower ascii_isdigit_char ascii_int phrase_corpus (lit "Ride hard") 0.5 10
      = Returns ([first] ++ second :: [third]) /\
    List.map result_rule_number [first; second; third] = [1; 3; 2] /\
    has_phrase ascii_lower (strip (ascii_lower (lit "Ride hard"))) second /\
    similarity_score second = 1%Q /\
    (forall earlier, In earlier [first] ->
       has_phrase ascii_lower (strip (ascii_lower (lit "Ride hard"))) earlier) /\
    ~ has_phrase ascii_lower (strip (ascii_lower (lit "Ride hard"))) third /\
    (similarity_score third <= 0.9)%Q.
Proof.
  assert (Hd : isdigit ascii_isdigit_char (strip (lit "Ride hard")) = false) by reflexivity.
  assert (Hlower : strip (ascii_lower (lit "Ride hard")) <> []) by (vm_compute; discriminate).
  split; [exact Hd|]. split; [exact Hlower|].
  destruct (fuzzy_search ascii_lower ascii_isdigit_char ascii_int phrase_corpus
              (lit "Ride hard") 0.5 10) as [results|] eqn:Hs;
    [|vm_compute in Hs; discriminate].
  assert (Hvalue : fuzzy_search ascii_lower ascii_isdigit_char ascii_int phrase_corpus
                     (lit "Ride hard") 0.5 10 = Returns results) by exact Hs.
  vm_compute in Hvalue.
  destruct results as [|first [|second [|third [|fourth rest]]]]; try discriminate Hvalue.
  injection Hvalue as H1 H2 H3.
  assert (Hphrase : has_phrase ascii_lower (strip (ascii_lower (lit "Ride hard"))) second)
    by (rewrite <- H2; left; vm_compute; reflexivity).
  assert (Hnone : ~ has_phrase ascii_lower (strip (ascii_lower (lit "Ride hard"))) third)
    by (rewrite <- H3; intros [H|H]; vm_compute in H; discriminate).
  destruct (exact_phrase_ranks_first ascii_lower ascii_isdigit_char ascii_int phrase_corpus
              (lit "Ride hard") 0.5 10 [first] second [third] Hd Hlower Hs) as [Hwith _].
  destruct (Hwith Hphrase) as [Hscore Hearlier].
  destruct (exact_phrase_ranks_first ascii_lower ascii_isdigit_char ascii_int phrase_corpus
              (lit "Ride hard") 0.5 10 [first; second] third [] Hd Hlower Hs) as [_ Hwithout].
  exists first, second, third.
  split; [reflexivity|].
  split; [rewrite <- H1, <- H2, <- H3; reflexivity|].
  split; [exact Hphrase|]. split; [exact Hscore|]. split; [exact Hearlier|].
  split; [exact Hnone|exact (Hwithout Hnone)].
Defined.
